(** * YatraBackend: a shallow embedding of the Express/MySQL route handlers

    The route modules of the backend (travelers, posts, check-ins, vehicle
    allotments, settings, announcements) are translated handler by handler.
    JavaScript values are an inductive type, a MySQL table is a list of rows,
    a handler is a computation in a state-and-exception monad over the
    database, and [try { ... } catch (error) { ... }] is [try_catch]. *)

From Stdlib Require Import ZArith Lia Ascii String DecimalString DecimalPos.
From stdpp Require Import base strings list gmap.

#[local] Open Scope string_scope.
#[local] Open Scope Z_scope.
#[local] Set Warnings "-register-all".

(** ** JavaScript values and the built-ins the handlers call *)

Module JS.

(** Numbers are the integer-valued ones ([JNum]); a [Date] object carries its
    epoch milliseconds.  Objects are finite maps from property names. *)
Inductive jsval : Type :=
| JUndefined
| JNull
| JBool (b : bool)
| JNum (n : Z)
| JStr (s : string)
| JDate (ms : Z)
| JArr (l : list jsval)
| JObj (m : gmap string jsval).

(** ToBoolean. *)
Definition truthy (v : jsval) : bool :=
  match v with
  | JUndefined | JNull => false
  | JBool b => b
  | JNum n => negb (n =? 0)
  | JStr s => negb (s =? "")%string
  | JDate _ | JArr _ | JObj _ => true
  end.

(** [a || b] on values. *)
Definition js_or (a b : jsval) : jsval := if truthy a then a else b.

(** [===] on primitives; two object literals are never the same reference. *)
Definition strict_eq (a b : jsval) : bool :=
  match a, b with
  | JUndefined, JUndefined => true
  | JNull, JNull => true
  | JBool x, JBool y => Bool.eqb x y
  | JNum x, JNum y => x =? y
  | JStr x, JStr y => (x =? y)%string
  | _, _ => false
  end.

(** Property read [o.k]; reading off a non-object gives [undefined]. *)
Definition prop (o : jsval) (k : string) : jsval :=
  match o with
  | JObj m => default JUndefined (m !! k)
  | _ => JUndefined
  end.

(** Object literal [{k1: v1, ...}]. *)
Definition obj (fields : list (string * jsval)) : jsval :=
  JObj (list_to_map fields).

Definition is_array (v : jsval) : bool :=
  match v with JArr _ => true | _ => false end.

(** Decimal rendering of an integer, as [Number.prototype.toString] prints
    it (integers below 10^21 in magnitude). *)
Definition string_of_Z (n : Z) : string := NilZero.string_of_int (Z.to_int n).

Fixpoint join (sep : string) (l : list string) : string :=
  match l with
  | [] => ""
  | [s] => s
  | s :: rest => s +:+ sep +:+ join sep rest
  end.

(** ToString.  The ISO rendering of dates is the platform's; it is a
    parameter of the handlers that need it, and [to_string] is only applied
    to the other values. *)
Fixpoint to_string (v : jsval) : string :=
  match v with
  | JUndefined => "undefined"
  | JNull => "null"
  | JBool true => "true"
  | JBool false => "false"
  | JNum n => string_of_Z n
  | JStr s => s
  | JDate _ => "[object Date]"
  | JArr l =>
      join "," (map (fun x => match x with
                              | JUndefined | JNull => ""
                              | _ => to_string x
                              end) l)
  | JObj _ => "[object Object]"
  end.

(** White space of the ASCII range: TAB, LF, VT, FF, CR and SPACE. *)
Definition is_space (c : ascii) : bool :=
  let n := N_of_ascii c in
  ((9 <=? n) && (n <=? 13))%N || (n =? 32)%N.

Fixpoint trim_start (s : string) : string :=
  match s with
  | String c rest => if is_space c then trim_start rest else s
  | EmptyString => EmptyString
  end.

Fixpoint trim_end (s : string) : string :=
  match s with
  | EmptyString => EmptyString
  | String c rest =>
      match trim_end rest with
      | EmptyString => if is_space c then EmptyString else String c EmptyString
      | r => String c r
      end
  end.

(** [String.prototype.trim]. *)
Definition trim (s : string) : string := trim_end (trim_start s).

(** Value of a digit in the given radix (10 or 16). *)
Definition digit_value (radix : Z) (c : ascii) : option Z :=
  let n := Z.of_N (N_of_ascii c) in
  let d :=
    if (48 <=? n) && (n <=? 57) then Some (n - 48)
    else if (97 <=? n) && (n <=? 102) then Some (n - 87)
    else if (65 <=? n) && (n <=? 70) then Some (n - 55)
    else None in
  match d with
  | Some k => if k <? radix then Some k else None
  | None => None
  end.

(** Longest prefix of digits, accumulated left to right; [None] when there
    is no digit at all. *)
Fixpoint read_digits (radix : Z) (acc : option Z) (s : string) : option Z :=
  match s with
  | EmptyString => acc
  | String c rest =>
      match digit_value radix c with
      | Some d => read_digits radix (Some (default 0 acc * radix + d)) rest
      | None => acc
      end
  end.

Definition strip_hex_prefix (s : string) : option string :=
  match s with
  | String "0" (String "x" rest) | String "0" (String "X" rest) => Some rest
  | _ => None
  end.

(** [parseInt(string)] without a radix: leading white space, a sign, an
    optional 0x prefix, then digits.  [None] is NaN. *)
Definition parseInt_string (s : string) : option Z :=
  let s1 := trim_start s in
  let '(sign, s2) :=
    match s1 with
    | String "-" rest => (-1, rest)
    | String "+" rest => (1, rest)
    | _ => (1, s1)
    end in
  let r :=
    match strip_hex_prefix s2 with
    | Some rest => read_digits 16 None rest
    | None => read_digits 10 None s2
    end in
  (fun n => sign * n) <$> r.

Definition parseInt (v : jsval) : option Z := parseInt_string (to_string v).

(** [Number.isFinite] of a [parseInt] result: NaN is not finite. *)
Definition isFinite (n : option Z) : bool := bool_decide (is_Some n).

(** [s.split(c)[0]]: the text before the first [c]. *)
Fixpoint before_char (c : ascii) (s : string) : string :=
  match s with
  | EmptyString => EmptyString
  | String d rest => if Ascii.eqb c d then EmptyString else String d (before_char c rest)
  end.

End JS.
Export JS.

Example parseInt_12abc : parseInt (JStr "12abc") = Some 12.
Proof. reflexivity. Qed.
Example parseInt_hex : parseInt (JStr "  -0x1F") = Some (-31).
Proof. reflexivity. Qed.
Example parseInt_abc : parseInt (JStr "abc") = None.
Proof. reflexivity. Qed.
Example parseInt_num : parseInt (JNum 7) = Some 7.
Proof. reflexivity. Qed.
Example trim_ex : trim "  a b  " = "a b".
Proof. reflexivity. Qed.

(** *** [parseInt] reads back a printed integer *)

Module Numerals.

(** The value of a numeral read digit by digit from the left. *)
Fixpoint digits_value (d : Decimal.uint) (acc : Z) : Z :=
  match d with
  | Decimal.Nil => acc
  | Decimal.D0 l => digits_value l (10 * acc)
  | Decimal.D1 l => digits_value l (10 * acc + 1)
  | Decimal.D2 l => digits_value l (10 * acc + 2)
  | Decimal.D3 l => digits_value l (10 * acc + 3)
  | Decimal.D4 l => digits_value l (10 * acc + 4)
  | Decimal.D5 l => digits_value l (10 * acc + 5)
  | Decimal.D6 l => digits_value l (10 * acc + 6)
  | Decimal.D7 l => digits_value l (10 * acc + 7)
  | Decimal.D8 l => digits_value l (10 * acc + 8)
  | Decimal.D9 l => digits_value l (10 * acc + 9)
  end.

Lemma read_digits_numeral (d : Decimal.uint) (a : Z) :
  read_digits 10 (Some a) (NilEmpty.string_of_uint d) = Some (digits_value d a).
Proof.
  revert a. induction d; intros a; simpl; try done;
    rewrite IHd; do 2 f_equal; lia.
Qed.

Lemma of_uint_acc_value (l : Decimal.uint) (p : positive) :
  Z.pos (Pos.of_uint_acc l p) = digits_value l (Z.pos p).
Proof.
  revert p. induction l; intros p; simpl; try done; rewrite IHl; f_equal; lia.
Qed.

Lemma of_uint_value (d : Decimal.uint) : Z.of_N (Pos.of_uint d) = digits_value d 0.
Proof.
  induction d; simpl; try done; rewrite of_uint_acc_value; done.
Qed.

Lemma parse_numeral (d : Decimal.uint) :
  let s := NilZero.string_of_uint d in
  trim_start s = s ∧ strip_hex_prefix s = None ∧
  (∀ rest, s ≠ String "-" rest) ∧ (∀ rest, s ≠ String "+" rest) ∧
  read_digits 10 None s = Some (Z.of_N (Pos.of_uint d)).
Proof.
  rewrite of_uint_value.
  destruct d as [|l|l|l|l|l|l|l|l|l|l]; simpl;
    try (repeat split; try done; rewrite read_digits_numeral; do 2 f_equal; lia).
  destruct l; simpl; repeat split; try done;
    rewrite ?read_digits_numeral; done.
Qed.

Lemma parseInt_numeral (d : Decimal.uint) :
  parseInt_string (NilZero.string_of_uint d) = Some (Z.of_N (Pos.of_uint d)).
Proof.
  destruct (parse_numeral d) as (Ht & Hx & Hm & Hp & Hr).
  unfold parseInt_string. rewrite Ht.
  destruct (NilZero.string_of_uint d) as [|c rest] eqn:E.
  - simpl in *. rewrite <- Hr. done.
  - destruct (decide (c = "-"%char)) as [->|Hc1]; [by destruct (Hm rest)|].
    destruct (decide (c = "+"%char)) as [->|Hc2]; [by destruct (Hp rest)|].
    assert (match String c rest with
            | String "-" r => (-1, r)
            | String "+" r => (1, r)
            | _ => (1, String c rest)
            end = (1, String c rest)) as ->.
    { destruct c as [[] [] [] [] [] [] [] []]; try done. }
    rewrite Hx, Hr. simpl. f_equal. lia.
Qed.

(** [parseInt] reads back what [toString] printed. *)
Lemma parseInt_number (n : Z) : parseInt (JNum n) = Some n.
Proof.
  unfold parseInt. simpl. unfold string_of_Z.
  destruct n as [|p|p]; simpl.
  - done.
  - rewrite parseInt_numeral. f_equal.
    by rewrite DecimalPos.Unsigned.of_to.
  - destruct (parse_numeral (Pos.to_uint p)) as (Ht & Hx & Hm & Hp & Hr).
    unfold parseInt_string. simpl. rewrite Hx, Hr. simpl.
    rewrite DecimalPos.Unsigned.of_to. done.
Qed.

End Numerals.

(** ** HTTP requests and responses *)

Module Http.

(** [req.user], the payload that [authenticateToken] decodes from the token. *)
Record user : Type := {
  user_id : Z;
  user_email : string;
  user_isAdmin : bool
}.

Record response : Type := {
  status : Z;
  body : jsval
}.

(** [res.json(b)] answers 200; [res.status(c).json(b)] answers [c]. *)
Definition json (b : jsval) : response := {| status := 200; body := b |}.
Definition status_json (c : Z) (b : jsval) : response := {| status := c; body := b |}.

(** The ubiquitous [{ error: msg }] body. *)
Definition error (msg : string) : jsval := obj [("error", JStr msg)].

(** [{ error: 'Access denied', message: msg }]. *)
Definition denied (msg : string) : jsval :=
  obj [("error", JStr "Access denied"); ("message", JStr msg)].

End Http.
Export Http.

(** ** The database

    Tables follow [database-setup.sql].  Traveler rows are kept as the
    driver returns them, objects keyed by column name, because the traveler
    routes spread and destructure them; the other tables are records of the
    columns the routes read and write. *)

Module Db.

Inductive table : Type :=
| Travelers | Vehicles | VehicleAllotments | CheckIns
| Posts | PostSections | PostMedia | PostTags | Settings | Announcements.

#[global] Instance table_eq_dec : EqDecision table.
Proof. solve_decision. Defined.

Record vehicle : Type := {
  v_id : Z;
  v_name : string;
  v_color : option string;
  v_group_leader_email : option string
}.

Record allotment : Type := {
  va_date : string;
  va_traveler_id : Z;
  va_vehicle_id : Z
}.

Record check_in : Type := {
  ci_id : Z;
  ci_vehicle_id : Z;
  ci_traveler_email : string;
  ci_traveler_id : option Z;
  ci_active : Z;
  ci_checked_in_at : Z;
  ci_checked_out_at : option Z
}.

(** [approved] and [is_private] are BOOLEAN, that is TINYINT, columns (a
    NULL there reads like 0 on every path and is kept as 0).  The text
    columns other than [author_email] hold what the driver was handed. *)
Record post : Type := {
  p_id : Z;
  p_author_email : string;
  p_author_name : jsval;
  p_author_image_url : jsval;
  p_place : jsval;
  p_location : jsval;
  p_section_id : option Z;
  p_description : jsval;
  p_lat : jsval;
  p_lng : jsval;
  p_approved : Z;
  p_is_private : Z;
  p_created_at : Z
}.

Record post_section : Type := { ps_id : Z; ps_name : string }.

Record post_medium : Type := {
  pm_post_id : Z;
  pm_media_url : string;
  pm_display_order : Z;
  pm_media_type : option string
}.

Record post_tag : Type := { pt_post_id : Z; pt_tag_name : string }.

(** A settings row without its key: the table is keyed by the UNIQUE
    [setting_key]. *)
Record setting : Type := {
  setting_value : option string;
  setting_type : string
}.

Record announcement : Type := {
  a_id : Z;
  a_recipient_type : string;
  a_recipient_value : option string;
  a_message : string;
  a_display_type : string;
  a_timing_type : string;
  a_scheduled_time : option Z;
  a_sent : bool;
  a_created_at : Z
}.

(** The state of the server's database.  A query on a table for which
    [unavailable] holds throws (the table is missing, or the connection is
    down); [next_id] is the AUTO_INCREMENT counter of a table. *)
Record db : Type := {
  unavailable : table → bool;
  next_id : table → Z;
  travelers : list (gmap string jsval);
  vehicles : list vehicle;
  vehicle_allotments : list allotment;
  check_ins : list check_in;
  posts : list post;
  post_sections : list post_section;
  post_media : list post_medium;
  post_tags : list post_tag;
  settings : gmap string setting;
  announcements : list announcement
}.

Definition set_next_id (t : table) (n : Z) (d : db) : db :=
  {| unavailable := unavailable d;
     next_id := fun t' => if decide (t' = t) then n else next_id d t';
     travelers := travelers d; vehicles := vehicles d;
     vehicle_allotments := vehicle_allotments d; check_ins := check_ins d;
     posts := posts d; post_sections := post_sections d;
     post_media := post_media d; post_tags := post_tags d;
     settings := settings d; announcements := announcements d |}.

Definition set_vehicle_allotments (l : list allotment) (d : db) : db :=
  {| unavailable := unavailable d; next_id := next_id d;
     travelers := travelers d; vehicles := vehicles d;
     vehicle_allotments := l; check_ins := check_ins d;
     posts := posts d; post_sections := post_sections d;
     post_media := post_media d; post_tags := post_tags d;
     settings := settings d; announcements := announcements d |}.

Definition set_check_ins (l : list check_in) (d : db) : db :=
  {| unavailable := unavailable d; next_id := next_id d;
     travelers := travelers d; vehicles := vehicles d;
     vehicle_allotments := vehicle_allotments d; check_ins := l;
     posts := posts d; post_sections := post_sections d;
     post_media := post_media d; post_tags := post_tags d;
     settings := settings d; announcements := announcements d |}.

Definition set_posts (l : list post) (d : db) : db :=
  {| unavailable := unavailable d; next_id := next_id d;
     travelers := travelers d; vehicles := vehicles d;
     vehicle_allotments := vehicle_allotments d; check_ins := check_ins d;
     posts := l; post_sections := post_sections d;
     post_media := post_media d; post_tags := post_tags d;
     settings := settings d; announcements := announcements d |}.

Definition set_post_media (l : list post_medium) (d : db) : db :=
  {| unavailable := unavailable d; next_id := next_id d;
     travelers := travelers d; vehicles := vehicles d;
     vehicle_allotments := vehicle_allotments d; check_ins := check_ins d;
     posts := posts d; post_sections := post_sections d;
     post_media := l; post_tags := post_tags d;
     settings := settings d; announcements := announcements d |}.

Definition set_post_tags (l : list post_tag) (d : db) : db :=
  {| unavailable := unavailable d; next_id := next_id d;
     travelers := travelers d; vehicles := vehicles d;
     vehicle_allotments := vehicle_allotments d; check_ins := check_ins d;
     posts := posts d; post_sections := post_sections d;
     post_media := post_media d; post_tags := l;
     settings := settings d; announcements := announcements d |}.

Definition set_settings (m : gmap string setting) (d : db) : db :=
  {| unavailable := unavailable d; next_id := next_id d;
     travelers := travelers d; vehicles := vehicles d;
     vehicle_allotments := vehicle_allotments d; check_ins := check_ins d;
     posts := posts d; post_sections := post_sections d;
     post_media := post_media d; post_tags := post_tags d;
     settings := m; announcements := announcements d |}.

Definition set_announcements (l : list announcement) (d : db) : db :=
  {| unavailable := unavailable d; next_id := next_id d;
     travelers := travelers d; vehicles := vehicles d;
     vehicle_allotments := vehicle_allotments d; check_ins := check_ins d;
     posts := posts d; post_sections := post_sections d;
     post_media := post_media d; post_tags := post_tags d;
     settings := settings d; announcements := l |}.

(** An empty database with every table present. *)
Definition empty_db : db :=
  {| unavailable := fun _ => false; next_id := fun _ => 1;
     travelers := []; vehicles := []; vehicle_allotments := [];
     check_ins := []; posts := []; post_sections := []; post_media := [];
     post_tags := []; settings := ∅; announcements := [] |}.

(** *** Handlers as computations: state and exceptions *)

Inductive result (A : Type) : Type :=
| Ok (a : A)
| Throw (code : string).
Arguments Ok {A} a.
Arguments Throw {A} code.

#[global] Instance result_ret : MRet result := fun A a => Ok a.
#[global] Instance result_bind : MBind result := fun A B f r =>
  match r with
  | Ok a => f a
  | Throw e => Throw e
  end.

(** [xs.map(f)] for an [f] that may throw. *)
Fixpoint map_result {A B : Type} (f : A → result B) (l : list A) : result (list B) :=
  match l with
  | [] => Ok []
  | x :: rest => y ← f x ; ys ← map_result f rest ; Ok (y :: ys)
  end.

(** [await query(...)] reads or writes the database and may throw; what was
    written before a throw stays written (the routes open no transaction). *)
Definition M (A : Type) : Type := db → result A * db.

#[global] Instance M_ret : MRet M := fun A a d => (Ok a, d).
#[global] Instance M_bind : MBind M := fun A B f m d =>
  match m d with
  | (Ok a, d') => f a d'
  | (Throw e, d') => (Throw e, d')
  end.

Definition throw {A : Type} (code : string) : M A := fun d => (Throw code, d).
Definition lift {A : Type} (r : result A) : M A := fun d => (r, d).
Definition get_db : M db := fun d => (Ok d, d).
Definition modify_db (f : db → db) : M unit := fun d => (Ok (), f d).

(** [try { body } catch (error) { handler }]. *)
Definition try_catch {A : Type} (body : M A) (handler : string → M A) : M A :=
  fun d =>
    match body d with
    | (Ok a, d') => (Ok a, d')
    | (Throw e, d') => handler e d'
    end.

(** A route: the whole handler body sits in one try/catch whose catch
    answers with a fixed response, so a route never throws. *)
Definition route {R : Type} (body : M R) (on_error : string → R) (d : db) : R * db :=
  match body d with
  | (Ok r, d') => (r, d')
  | (Throw e, d') => (on_error e, d')
  end.

(** Every statement first needs its table. *)
Definition on_table (t : table) : M unit :=
  fun d => if unavailable d t then (Throw "ER_NO_SUCH_TABLE", d) else (Ok (), d).

(** [SELECT ... FROM t WHERE w]: the rows of the table, in table order. *)
Definition select {A : Type} (t : table) (rows : db → list A) (w : A → bool)
  : M (list A) :=
  on_table t ;; d ← get_db ; mret (filter (fun r => w r = true) (rows d)).

(** The AUTO_INCREMENT value an INSERT draws. *)
Definition fresh_id (t : table) : M Z :=
  d ← get_db ;
  let i := next_id d t in
  modify_db (set_next_id t (i + 1)) ;; mret i.

(** Inversion of a bind and of a route, for reasoning on a run. *)
Lemma bind_inv {A B : Type} (m : M A) (f : A → M B) (d d' : db) (r : result B) :
  (m ≫= f) d = (r, d') →
  (∃ a d1, m d = (Ok a, d1) ∧ f a d1 = (r, d')) ∨
  (∃ e, m d = (Throw e, d') ∧ r = Throw e).
Proof.
  unfold mbind, M_bind. destruct (m d) as [[a|e] d1]; intros H.
  - left. by exists a, d1.
  - right. exists e. by injection H as <- <-.
Qed.

Lemma route_inv {R : Type} (body : M R) (h : string → R) (d d' : db) (r : R) :
  route body h d = (r, d') →
  body d = (Ok r, d') ∨ ∃ e, body d = (Throw e, d') ∧ r = h e.
Proof.
  unfold route. destruct (body d) as [[a|e] d1]; intros [= <- <-].
  - by left.
  - right. by exists e.
Qed.

Lemma route_state {R : Type} (body : M R) (h : string → R) (d d' : db) (r : R) :
  route body h d = (r, d') → ∃ x, body d = (x, d').
Proof. intros H. apply route_inv in H as [H|(e & H & _)]; eauto. Qed.

End Db.
Export Db.

(** Stable insertion sort, for the ORDER BY clauses. *)
Fixpoint insert_sorted {A : Type} (le : A → A → bool) (x : A) (l : list A) : list A :=
  match l with
  | [] => [x]
  | y :: rest => if le x y then x :: l else y :: insert_sorted le x rest
  end.

Definition order_by {A : Type} (le : A → A → bool) (l : list A) : list A :=
  foldr (insert_sorted le) [] l.

(** ** routes/travelers.js *)

Module Travelers.

(** A traveler row, an object keyed by column name. *)
Abbreviation row := (gmap string jsval).

(** [t.k] on a row. *)
Definition field (t : row) (k : string) : jsval := default JUndefined (t !! k).

(** The template literal
    [`${t.first_name} ${t.middle_name ? t.middle_name + ' ' : ''}${t.last_name}`.trim()]. *)
Definition full_name (t : row) : string :=
  trim (to_string (field t "first_name") +:+ " " +:+
        (if truthy (field t "middle_name")
         then to_string (field t "middle_name") +:+ " " else "") +:+
        to_string (field t "last_name")).

(** The projection [SELECT t.*, v.name as vehicle_name, v.color as
    vehicle_color FROM travelers t LEFT JOIN vehicles v ON t.vehicle_id = v.id]
    of one traveler row. *)
Definition join_vehicle (vs : list vehicle) (t : row) : row :=
  let v := List.find (fun v => strict_eq (field t "vehicle_id") (JNum (v_id v))) vs in
  <["vehicle_color" := from_option (fun v => from_option JStr JNull (v_color v)) JNull v]>
    (<["vehicle_name" := from_option (fun v => JStr (v_name v)) JNull v]> t).

Definition le_name (a b : row) : bool :=
  let fa := to_string (field a "first_name") in
  let fb := to_string (field b "first_name") in
  if (fa =? fb)%string
  then String.leb (to_string (field a "last_name")) (to_string (field b "last_name"))
  else String.leb fa fb.

Definition le_id (a b : row) : bool :=
  match field a "id", field b "id" with
  | JNum x, JNum y => x <=? y
  | _, _ => true
  end.

Definition select_with_vehicle (le : row → row → bool) : M (list row) :=
  on_table Travelers ;; on_table Vehicles ;;
  d ← get_db ;
  mret (order_by le (map (join_vehicle (vehicles d)) (travelers d))).

(** [SELECT * FROM travelers WHERE id = ?]; a NaN parameter is not a value
    the server accepts. *)
Definition select_by_id (id : option Z) : M (list row) :=
  match id with
  | None => throw "ER_BAD_FIELD_ERROR"
  | Some i => select Travelers travelers (fun t => strict_eq (field t "id") (JNum i))
  end.

Definition select_by_email (email : string) : M (list row) :=
  select Travelers travelers (fun t => strict_eq (field t "email") (JStr email)).

(** [const { password_hash, ...travelerData } = traveler] followed by
    [{ ...travelerData, name: ..., image: traveler.image_url || '' }]. *)
Definition without_password (traveler : row) : jsval :=
  let travelerData := delete "password_hash" traveler in
  JObj (<["image" := js_or (field traveler "image_url") (JStr "")]>
          (<["name" := JStr (full_name traveler)]> travelerData)).

Section Routes.

(** The platform's [Date.prototype.toISOString], [bcrypt.compare] and
    [jwt.sign]. *)
Variable toISOString : Z → string.
Variable bcrypt_compare : string → string → bool.
Variable jwt_sign : jsval → string → string → string.

(** [d ? d.toISOString().split('T')[0] : null]: only a [Date] has the
    method. *)
Definition iso_day (v : jsval) : result jsval :=
  if truthy v then
    match v with
    | JDate ms => Ok (JStr (before_char "T" (toISOString ms)))
    | _ => Throw "TypeError"
    end
  else Ok JNull.

(** One element of [formatTravelerData]. *)
Definition formatTraveler (t : row) : result jsval :=
  birthDate ← iso_day (field t "birth_date") ;
  passportIssueDate ← iso_day (field t "passport_issue_date") ;
  passportExpiryDate ← iso_day (field t "passport_expiry_date") ;
  Ok (obj [
    ("id", field t "id");
    ("tirthId", field t "tirth_id");
    ("firstName", field t "first_name");
    ("middleName", js_or (field t "middle_name") (JStr ""));
    ("lastName", field t "last_name");
    ("name", JStr (full_name t));
    ("email", field t "email");
    ("phone", field t "phone");
    ("city", field t "city");
    ("country", field t "country");
    ("center", field t "center");
    ("birthDate", birthDate);
    ("age", if truthy (field t "age") then JStr (to_string (field t "age")) else JNull);
    ("passportNo", field t "passport_no");
    ("passportIssueDate", passportIssueDate);
    ("passportExpiryDate", passportExpiryDate);
    ("nationality", field t "nationality");
    ("gender", field t "gender");
    ("hoodiSize", field t "hoodi_size");
    ("vehicleId", field t "vehicle_id");
    ("profileLine", field t "profile_line");
    ("aboutMe", field t "about_me");
    ("image", js_or (field t "image_url") (JStr ""));
    ("vehicleName", field t "vehicle_name");
    ("vehicleColor", field t "vehicle_color")
  ]).

Definition formatTravelerData (travelers : list row) : result (list jsval) :=
  map_result formatTraveler travelers.

(** GET /public, behind [authenticateToken]. *)
Definition get_public : db → response * db :=
  route
    (travelers ← select_with_vehicle le_name ;
     formatted ← lift (formatTravelerData travelers) ;
     mret (json (JArr formatted)))
    (fun _ => status_json 500 (error "Failed to fetch travelers")).

(** GET /, behind [authenticateToken] and [requireAdmin]. *)
Definition get_all : db → response * db :=
  route
    (travelers ← select_with_vehicle le_id ;
     formatted ← lift (formatTravelerData travelers) ;
     mret (json (JArr formatted)))
    (fun _ => status_json 500 (error "Failed to fetch travelers")).

(** GET /:id, behind [authenticateToken]. *)
Definition get_by_id (u : user) (id : string) : db → response * db :=
  route
    (let travelerId := parseInt_string id in
     if negb (user_isAdmin u) && negb (bool_decide (travelerId = Some (user_id u)))
     then mret (status_json 403 (denied "You can only access your own profile"))
     else
       rows ← select_by_id travelerId ;
       match rows with
       | [] => mret (status_json 404 (error "Traveler not found"))
       | traveler :: _ => mret (json (without_password traveler))
       end)
    (fun _ => status_json 500 (error "Failed to fetch traveler")).

(** GET /email/:email, behind [authenticateToken]: the query selects nine
    columns and the response names each field. *)
Definition get_by_email (u : user) (email : string) : db → response * db :=
  route
    (if negb (user_isAdmin u) && negb (user_email u =? email)%string
     then mret (status_json 403 (denied "You can only access your own information"))
     else
       on_table Vehicles ;;
       rows ← select_by_email email ;
       d ← get_db ;
       match rows with
       | [] => mret (status_json 404 (error "Traveler not found"))
       | t :: _ =>
           let traveler := join_vehicle (vehicles d) t in
           mret (json (obj [
             ("id", field traveler "id");
             ("email", field traveler "email");
             ("firstName", field traveler "first_name");
             ("lastName", field traveler "last_name");
             ("middleName", js_or (field traveler "middle_name") (JStr ""));
             ("name", JStr (full_name traveler));
             ("image", js_or (field traveler "image_url") (JStr ""));
             ("vehicleId", field traveler "vehicle_id");
             ("vehicle_id", field traveler "vehicle_id");
             ("vehicleName", js_or (field traveler "vehicle_name") JNull);
             ("vehicleColor", js_or (field traveler "vehicle_color") JNull)
           ]))
       end)
    (fun _ => status_json 500 (error "Failed to fetch traveler")).

(** [!x] for a body field that is absent or a string. *)
Definition missing (x : option string) : bool :=
  match x with
  | None => true
  | Some s => (s =? "")%string
  end.

(** [bcrypt.compare(password, traveler.password_hash)]: both arguments must
    be strings. *)
Definition compare_password (password : string) (hash : jsval) : result bool :=
  match hash with
  | JStr h => Ok (bcrypt_compare password h)
  | _ => Throw "bcrypt"
  end.

(** The payload handed to [jwt.sign] at login. *)
Definition token_payload (traveler : row) : jsval :=
  obj [("id", field traveler "id");
       ("email", field traveler "email");
       ("isAdmin", JBool false)].

(** POST /login, public.  [JWT_SECRET] is [process.env.JWT_SECRET]; the
    body fields [email] and [password] are absent or strings. *)
Definition login (JWT_SECRET : option string) (email password : option string)
  : db → response * db :=
  route
    (if missing email || missing password
     then mret (status_json 400 (error "Email and password required"))
     else
       rows ← select_by_email (default "" email) ;
       match rows with
       | [] => mret (status_json 401 (error "Invalid email or password"))
       | traveler :: _ =>
           isValid ← lift (compare_password (default "" password)
                                            (field traveler "password_hash")) ;
           if negb isValid
           then mret (status_json 401 (error "Invalid email or password"))
           else if missing JWT_SECRET
           then mret (status_json 500 (error "Server configuration error"))
           else
             let token := jwt_sign (token_payload traveler) (default "" JWT_SECRET) "7d" in
             mret (json (obj [
               ("token", JStr token);
               ("traveler", without_password traveler);
               ("expiresIn", JStr "7d")
             ]))
       end)
    (fun _ => status_json 500 (error "Login failed")).

End Routes.
End Travelers.

(** *** The password hash stays on the server *)

Module TravelersPrivacy.
Import Travelers.

(** A JSON value mentions a key when some object inside it, at any depth,
    has a property of that name. *)
Inductive mentions (k : string) : jsval → Prop :=
| mentions_here (m : gmap string jsval) (v : jsval) :
    m !! k = Some v → mentions k (JObj m)
| mentions_field (m : gmap string jsval) (k' : string) (v : jsval) :
    m !! k' = Some v → mentions k v → mentions k (JObj m)
| mentions_item (l : list jsval) (v : jsval) :
    v ∈ l → mentions k v → mentions k (JArr l).

(** What the driver puts in a cell: NULL, a number, a string or a date. *)
Definition scalar (v : jsval) : Prop :=
  match v with
  | JArr _ | JObj _ => False
  | _ => True
  end.

Definition cells_scalar (d : db) : Prop :=
  ∀ (t : row) (k : string) (v : jsval), t ∈ travelers d → t !! k = Some v → scalar v.

Definition row_scalar (t : row) : Prop :=
  ∀ (k : string) (v : jsval), t !! k = Some v → scalar v.

Lemma scalar_not_mentions k v : scalar v → ¬ mentions k v.
Proof. intros Hs Hm. destruct Hm; exact Hs. Qed.

Lemma scalar_field t k : row_scalar t → scalar (field t k).
Proof.
  intros Ht. unfold field. destruct (t !! k) as [v|] eqn:E; simpl; [|exact I].
  exact (Ht k v E).
Qed.

Lemma scalar_js_or a b : scalar a → scalar b → scalar (js_or a b).
Proof. intros Ha Hb. unfold js_or. destruct (truthy a); assumption. Qed.

Lemma row_scalar_join vs t : row_scalar t → row_scalar (join_vehicle vs t).
Proof.
  intros Ht k v. unfold join_vehicle.
  rewrite lookup_insert_Some. intros [[_ <-]|[_ H]].
  - destruct (List.find _ vs) as [x|]; simpl; [|exact I].
    destruct (v_color x); exact I.
  - rewrite lookup_insert_Some in H. destruct H as [[_ <-]|[_ H]].
    + destruct (List.find _ vs); exact I.
    + exact (Ht k v H).
Qed.

Lemma error_not_mentions k msg : k ≠ "error" → ¬ mentions k (error msg).
Proof.
  intros Hk Hm. unfold error, obj in Hm. simpl in Hm.
  inversion Hm as [m v H|m k' v H Hv|]; subst.
  - rewrite lookup_insert_ne in H by congruence. rewrite lookup_empty in H. discriminate.
  - apply lookup_insert_Some in H as [[_ <-]|[_ H]].
    + inversion Hv.
    + rewrite lookup_empty in H. discriminate.
Qed.

Lemma denied_not_mentions k msg :
  k ≠ "error" → k ≠ "message" → ¬ mentions k (denied msg).
Proof.
  intros Hk Hk' Hm. unfold denied, obj in Hm. simpl in Hm.
  inversion Hm as [m v H|m k' v H Hv|]; subst.
  - do 2 rewrite lookup_insert_ne in H by congruence.
    rewrite lookup_empty in H. discriminate.
  - apply lookup_insert_Some in H as [[_ <-]|[_ H]]; [inversion Hv|].
    apply lookup_insert_Some in H as [[_ <-]|[_ H]]; [inversion Hv|].
    rewrite lookup_empty in H. discriminate.
Qed.

(** An object literal whose keys differ from [k] and whose values are
    scalars does not mention [k]. *)
Lemma obj_not_mentions k (fields : list (string * jsval)) :
  Forall (fun kv => kv.1 ≠ k ∧ scalar kv.2) fields → ¬ mentions k (obj fields).
Proof.
  intros Hall Hm. unfold obj in Hm. rewrite Forall_forall in Hall.
  inversion Hm as [m v H|m k' v H Hv|]; subst.
  - apply elem_of_list_to_map_2 in H. destruct (Hall _ H) as [Hne _]. exact (Hne eq_refl).
  - apply elem_of_list_to_map_2 in H. destruct (Hall _ H) as [_ Hs].
    exact (scalar_not_mentions k v Hs Hv).
Qed.

Lemma without_password_not_mentions t :
  row_scalar t → ¬ mentions "password_hash" (without_password t).
Proof.
  intros Ht Hm. unfold without_password in Hm.
  inversion Hm as [m v H|m k' v H Hv|]; subst.
  - do 2 rewrite lookup_insert_ne in H by discriminate.
    rewrite lookup_delete_eq in H. discriminate.
  - apply lookup_insert_Some in H as [[_ <-]|[_ H]].
    { revert Hv. apply scalar_not_mentions, scalar_js_or; [by apply scalar_field|exact I]. }
    apply lookup_insert_Some in H as [[_ <-]|[_ H]]; [inversion Hv|].
    apply lookup_delete_Some in H as [_ H].
    exact (scalar_not_mentions _ v (Ht k' v H) Hv).
Qed.

Lemma elem_of_insert_sorted {A : Type} (le : A → A → bool) (x y : A) (l : list A) :
  y ∈ insert_sorted le x l → y = x ∨ y ∈ l.
Proof.
  induction l as [|z l IH]; simpl.
  - intros H. apply list_elem_of_singleton in H. by left.
  - destruct (le x z).
    + intros H. apply elem_of_cons in H as [->|H]; [by left|by right].
    + intros H. apply elem_of_cons in H as [->|H].
      * right. apply elem_of_cons. by left.
      * destruct (IH H) as [->|H']; [by left|right; apply elem_of_cons; by right].
Qed.

Lemma elem_of_order_by {A : Type} (le : A → A → bool) (y : A) (l : list A) :
  y ∈ order_by le l → y ∈ l.
Proof.
  induction l as [|x l IH]; simpl; [done|].
  intros H. apply elem_of_insert_sorted in H as [->|H].
  - apply elem_of_cons. by left.
  - apply elem_of_cons. right. by apply IH.
Qed.

Section Facts.

Variable toISOString : Z → string.
Variable bcrypt_compare : string → string → bool.
Variable jwt_sign : jsval → string → string → string.

Lemma scalar_iso_day v r : iso_day toISOString v = Ok r → scalar r.
Proof.
  unfold iso_day. destruct (truthy v); [destruct v|]; intros H;
    inversion H; exact I.
Qed.

Lemma formatTraveler_not_mentions t o :
  row_scalar t → formatTraveler toISOString t = Ok o → ¬ mentions "password_hash" o.
Proof.
  intros Ht. unfold formatTraveler.
  destruct (iso_day toISOString (field t "birth_date")) as [b|] eqn:Eb; simpl; [|discriminate].
  destruct (iso_day toISOString (field t "passport_issue_date")) as [pi|] eqn:Ei;
    simpl; [|discriminate].
  destruct (iso_day toISOString (field t "passport_expiry_date")) as [pe|] eqn:Ee;
    simpl; [|discriminate].
  intros [= <-]. apply obj_not_mentions.
  apply scalar_iso_day in Eb, Ei, Ee.
  repeat (apply Forall_cons; split;
          [split; [discriminate|simpl;
             first [exact I | by apply scalar_field | assumption
                   | (apply scalar_js_or; [by apply scalar_field|exact I])
                   | (destruct (truthy _); exact I)]]|]).
  apply Forall_nil_2.
Qed.

Lemma formatTravelerData_not_mentions ts os :
  Forall row_scalar ts → formatTravelerData toISOString ts = Ok os →
  ¬ mentions "password_hash" (JArr os).
Proof.
  intros Hts Hf Hm. inversion Hm as [| |l v Hin Hv]; subst. clear Hm.
  revert os Hf Hin. induction Hts as [|t ts Ht _ IH]; intros os Hf Hin.
  - injection Hf as <-. by apply elem_of_nil in Hin.
  - unfold formatTravelerData in Hf. simpl in Hf.
    destruct (formatTraveler toISOString t) as [o|] eqn:Eo; simpl in Hf; [|discriminate].
    destruct (map_result (formatTraveler toISOString) ts) as [os'|] eqn:Eos;
      simpl in Hf; [|discriminate].
    injection Hf as <-. apply elem_of_cons in Hin as [->|Hin].
    + exact (formatTraveler_not_mentions t o Ht Eo Hv).
    + exact (IH os' Eos Hin).
Qed.

Lemma select_with_vehicle_scalar le d rows d' :
  cells_scalar d → select_with_vehicle le d = (Ok rows, d') → Forall row_scalar rows.
Proof.
  intros Hd. unfold select_with_vehicle, mbind, M_bind, on_table, get_db, mret, M_ret.
  destruct (unavailable d Travelers); [discriminate|].
  destruct (unavailable d Vehicles); [discriminate|].
  intros [= <- <-]. apply Forall_forall. intros t Ht.
  apply elem_of_order_by, list_elem_of_fmap in Ht as (t0 & -> & Ht0).
  apply row_scalar_join. intros k v. exact (Hd t0 k v Ht0).
Qed.

Lemma select_scalar (w : row → bool) d rows d' :
  cells_scalar d → select Travelers travelers w d = (Ok rows, d') →
  d' = d ∧ Forall row_scalar rows.
Proof.
  intros Hd. unfold select, mbind, M_bind, on_table, get_db, mret, M_ret.
  destruct (unavailable d Travelers); [discriminate|].
  intros [= <- <-]. split; [done|]. apply Forall_forall. intros t Ht.
  apply list_elem_of_filter in Ht as [_ Ht]. intros k v. exact (Hd t k v Ht).
Qed.

Lemma list_route_not_mentions le d :
  cells_scalar d →
  ¬ mentions "password_hash"
      (body (route
         (travelers ← select_with_vehicle le ;
          formatted ← lift (formatTravelerData toISOString travelers) ;
          mret (json (JArr formatted)))
         (fun _ => status_json 500 (error "Failed to fetch travelers")) d).1).
Proof.
  intros Hd. unfold route, mbind at 1, M_bind.
  destruct (select_with_vehicle le d) as [[rows|e] d'] eqn:Es; simpl.
  - apply select_with_vehicle_scalar in Es; [|done].
    unfold mbind, M_bind, lift.
    destruct (formatTravelerData toISOString rows) as [os|e] eqn:Ef; simpl.
    + by eapply formatTravelerData_not_mentions.
    + by apply error_not_mentions.
  - by apply error_not_mentions.
Qed.

Lemma get_by_id_not_mentions d u id :
  cells_scalar d → ¬ mentions "password_hash" (body (get_by_id u id d).1).
Proof.
  intros Hd. unfold get_by_id, route.
  destruct (negb (user_isAdmin u) && _); simpl.
  { by apply denied_not_mentions. }
  unfold mbind, M_bind.
  destruct (parseInt_string id) as [i|]; simpl; [|by apply error_not_mentions].
  destruct (select _ _ _ d) as [[rows|e] d'] eqn:Es; simpl;
    [|by apply error_not_mentions].
  apply select_scalar in Es as [-> Hrows]; [|done].
  destruct Hrows as [|t rows Ht _]; simpl; [by apply error_not_mentions|].
  by apply without_password_not_mentions.
Qed.

Lemma get_by_email_not_mentions d u email :
  cells_scalar d → ¬ mentions "password_hash" (body (get_by_email u email d).1).
Proof.
  intros Hd. unfold get_by_email, route.
  destruct (negb (user_isAdmin u) && _); simpl.
  { by apply denied_not_mentions. }
  unfold mbind at 1, M_bind, on_table.
  destruct (unavailable d Vehicles); simpl; [by apply error_not_mentions|].
  unfold mbind at 1, M_bind, select_by_email.
  destruct (select _ _ _ d) as [[rows|e] d'] eqn:Es; simpl;
    [|by apply error_not_mentions].
  apply select_scalar in Es as [-> Hrows]; [|done].
  destruct Hrows as [|t rows Ht _]; simpl; [by apply error_not_mentions|].
  apply obj_not_mentions.
  pose proof (row_scalar_join (vehicles d) t Ht) as Hj.
  repeat (apply Forall_cons; split;
          [split; [discriminate|simpl;
             first [exact I | by apply scalar_field
                   | (apply scalar_js_or; [by apply scalar_field|exact I])]]|]).
  apply Forall_nil_2.
Qed.

Lemma login_not_mentions d secret email password :
  cells_scalar d →
  ¬ mentions "password_hash"
      (body (login bcrypt_compare jwt_sign secret email password d).1).
Proof.
  intros Hd. unfold login, route.
  destruct (missing email || missing password); simpl.
  { by apply error_not_mentions. }
  unfold mbind at 1, M_bind, select_by_email.
  destruct (select _ _ _ d) as [[rows|e] d'] eqn:Es; simpl;
    [|by apply error_not_mentions].
  apply select_scalar in Es as [-> Hrows]; [|done].
  destruct Hrows as [|t rows Ht _]; simpl; [by apply error_not_mentions|].
  unfold mbind, M_bind, lift.
  destruct (compare_password _ _ _) as [[]|]; simpl;
    [|by apply error_not_mentions|by apply error_not_mentions].
  destruct (missing secret); simpl; [by apply error_not_mentions|].
  intros Hm. unfold obj in Hm. simpl in Hm.
  inversion Hm as [m v H|m k' v H Hv|]; subst.
  - do 3 rewrite lookup_insert_ne in H by discriminate.
    rewrite lookup_empty in H. discriminate.
  - apply lookup_insert_Some in H as [[_ <-]|[_ H]]; [inversion Hv|].
    apply lookup_insert_Some in H as [[_ <-]|[_ H]].
    { by apply (without_password_not_mentions t). }
    apply lookup_insert_Some in H as [[_ <-]|[_ H]]; [inversion Hv|].
    rewrite lookup_empty in H. discriminate.
Qed.

(** C9. No traveler route sends the password hash: whatever the database
    holds and whoever asks, the JSON answered by GET /public, GET /,
    GET /:id, GET /email/:email and POST /login has no [password_hash]
    property at any depth. *)
Theorem password_hash_never_in_response
    (d : db) (u : user) (id email : string) (secret em pw : option string) :
  cells_scalar d →
  ¬ mentions "password_hash" (body (get_public toISOString d).1) ∧
  ¬ mentions "password_hash" (body (get_all toISOString d).1) ∧
  ¬ mentions "password_hash" (body (get_by_id u id d).1) ∧
  ¬ mentions "password_hash" (body (get_by_email u email d).1) ∧
  ¬ mentions "password_hash"
      (body (login bcrypt_compare jwt_sign secret em pw d).1).
Proof.
  intros Hd. repeat split.
  - by apply list_route_not_mentions.
  - by apply list_route_not_mentions.
  - by apply get_by_id_not_mentions.
  - by apply get_by_email_not_mentions.
  - by apply login_not_mentions.
Qed.

End Facts.
End TravelersPrivacy.

(** *** Sample data shared by the examples *)

Module Sample.
Import Travelers.

Definition alice : row :=
  list_to_map [
    ("id", JNum 1); ("tirth_id", JStr "T001");
    ("first_name", JStr "Alice"); ("middle_name", JStr ""); ("last_name", JStr "Shah");
    ("email", JStr "alice@example.com"); ("password_hash", JStr "$2b$10$secret");
    ("vehicle_id", JNum 1); ("image_url", JNull); ("birth_date", JDate 0)].

Definition bob : row :=
  list_to_map [
    ("id", JNum 2); ("tirth_id", JStr "T002");
    ("first_name", JStr "Bob"); ("middle_name", JStr "K"); ("last_name", JStr "Patel");
    ("email", JStr "bob@example.com"); ("password_hash", JStr "$2b$10$hunter2");
    ("vehicle_id", JNull); ("image_url", JStr "/img/bob.png"); ("birth_date", JNull)].

Definition bus : vehicle :=
  {| v_id := 1; v_name := "Bus A"; v_color := Some "#FF9933";
     v_group_leader_email := Some "alice@example.com" |}.

Definition sample_db : db :=
  {| unavailable := fun _ => false; next_id := fun _ => 10;
     travelers := [alice; bob]; vehicles := [bus]; vehicle_allotments := [];
     check_ins := []; posts := []; post_sections := []; post_media := [];
     post_tags := []; settings := ∅; announcements := [] |}.

(** Stand-ins for the platform functions, good enough to run the routes. *)
Definition sample_toISOString (ms : Z) : string := "1970-01-01T00:00:00.000Z".
Definition sample_bcrypt (password hash : string) : bool :=
  (hash =? "$2b$10$" +:+ password)%string.
Definition sample_jwt (payload : jsval) (secret expiresIn : string) : string :=
  "jwt:" +:+ to_string (prop payload "email") +:+ ":" +:+ expiresIn.

Definition alice_user : user :=
  {| user_id := 1; user_email := "alice@example.com"; user_isAdmin := false |}.
Definition bob_user : user :=
  {| user_id := 2; user_email := "bob@example.com"; user_isAdmin := false |}.
Definition admin_user : user :=
  {| user_id := 100; user_email := "admin@example.com"; user_isAdmin := true |}.

End Sample.

Module TravelersExamples.
Import Travelers TravelersPrivacy Sample.

Lemma sample_db_scalar : cells_scalar sample_db.
Proof.
  intros t k v Ht Hk. simpl in Ht.
  apply elem_of_cons in Ht as [->|Ht];
    [|apply elem_of_cons in Ht as [->|Ht]; [|by apply elem_of_nil in Ht]];
    apply elem_of_list_to_map_2 in Hk;
    repeat (apply elem_of_cons in Hk as [[= -> ->]|Hk]; [exact I|]);
    by apply elem_of_nil in Hk.
Qed.

Example login_alice_ok :
  let r := (login sample_bcrypt sample_jwt (Some "s3cr3t")
                  (Some "alice@example.com") (Some "secret") sample_db).1 in
  status r = 200 ∧
  prop (body r) "token" = JStr "jwt:alice@example.com:7d" ∧
  prop (prop (body r) "traveler") "email" = JStr "alice@example.com" ∧
  prop (prop (body r) "traveler") "name" = JStr "Alice Shah" ∧
  prop (prop (body r) "traveler") "password_hash" = JUndefined.
Proof. vm_compute. repeat split. Qed.

Example get_own_profile :
  let r := (get_by_id bob_user "2" sample_db).1 in
  status r = 200 ∧ prop (body r) "name" = JStr "Bob K Patel" ∧
  prop (body r) "password_hash" = JUndefined.
Proof. vm_compute. repeat split. Qed.

Example get_other_profile_denied :
  status (get_by_id bob_user "1" sample_db).1 = 403.
Proof. reflexivity. Qed.

Lemma password_hash_never_in_response_witness :
  cells_scalar sample_db ∧
  (¬ mentions "password_hash" (body (get_public sample_toISOString sample_db).1) ∧
   ¬ mentions "password_hash" (body (get_all sample_toISOString sample_db).1) ∧
   ¬ mentions "password_hash" (body (get_by_id alice_user "1" sample_db).1) ∧
   ¬ mentions "password_hash"
       (body (get_by_email alice_user "alice@example.com" sample_db).1) ∧
   ¬ mentions "password_hash"
       (body (login sample_bcrypt sample_jwt (Some "s3cr3t")
                    (Some "alice@example.com") (Some "secret") sample_db).1)).
Proof.
  split; [exact sample_db_scalar|].
  apply (password_hash_never_in_response sample_toISOString sample_bcrypt sample_jwt
           sample_db alice_user "1" "alice@example.com" (Some "s3cr3t")
           (Some "alice@example.com") (Some "secret")).
  exact sample_db_scalar.
Defined.

End TravelersExamples.

(** *** POST /api/travelers/login *)

Module TravelersLogin.
Import Travelers.

(** The WHERE clause of the login query. *)
Definition has_email (e : string) (t : row) : bool :=
  strict_eq (field t "email") (JStr e).

Lemma filter_head_find {A : Type} (w : A → bool) (l : list A) :
  head (filter (fun r => w r = true) l) = List.find w l.
Proof.
  induction l as [|x l IH]; simpl; [done|].
  rewrite filter_cons. destruct (decide (w x = true)) as [E|E].
  - by rewrite E.
  - apply not_true_is_false in E. by rewrite E.
Qed.

Lemma select_by_email_ok (e : string) (d : db) :
  unavailable d Travelers = false →
  select_by_email e d = (Ok (filter (fun t => has_email e t = true) (travelers d)), d).
Proof.
  intros Hav. unfold select_by_email, select, mbind, M_bind, on_table, get_db, mret, M_ret.
  by rewrite Hav.
Qed.

Lemma missing_Some (s : string) : s ≠ "" → missing (Some s) = false.
Proof. intros H. simpl. by apply String.eqb_neq. Qed.

Section Facts.

Variable bcrypt_compare : string → string → bool.
Variable jwt_sign : jsval → string → string → string.

Lemma login_state (d : db) (secret email password : option string) :
  (login bcrypt_compare jwt_sign secret email password d).2 = d.
Proof.
  unfold login, route.
  destruct (missing email || missing password); simpl; [done|].
  unfold mbind at 1, M_bind, select_by_email, select, mbind, M_bind, on_table, get_db,
    mret, M_ret, lift.
  destruct (unavailable d Travelers); simpl; [done|].
  destruct (filter _ (travelers d)) as [|t rows]; simpl; [done|].
  destruct (compare_password _ _ _) as [[]|]; simpl; [|done|done].
  by destruct (missing secret).
Qed.

(** The body of the route once both fields are present and the table can
    be read. *)
Lemma login_eval (d : db) (secret : option string) (e p : string) :
  e ≠ "" → p ≠ "" → unavailable d Travelers = false →
  (login bcrypt_compare jwt_sign secret (Some e) (Some p) d).1 =
  match filter (fun t => has_email e t = true) (travelers d) with
  | [] => status_json 401 (error "Invalid email or password")
  | t :: _ =>
      match field t "password_hash" with
      | JStr h =>
          if negb (bcrypt_compare p h)
          then status_json 401 (error "Invalid email or password")
          else if missing secret
          then status_json 500 (error "Server configuration error")
          else json (obj [
                 ("token", JStr (jwt_sign (token_payload t) (default "" secret) "7d"));
                 ("traveler", without_password t);
                 ("expiresIn", JStr "7d")])
      | _ => status_json 500 (error "Login failed")
      end
  end.
Proof.
  intros He Hp Hav. unfold login, route.
  rewrite (missing_Some e He), (missing_Some p Hp). simpl.
  unfold mbind at 1, M_bind. rewrite (select_by_email_ok e d Hav).
  destruct (filter _ (travelers d)) as [|t rows]; simpl; [done|].
  unfold mbind, M_bind, lift, compare_password.
  destruct (field t "password_hash"); try done.
  destruct (bcrypt_compare p s); simpl; [|done].
  by destruct (missing secret).
Qed.


End Facts.
End TravelersLogin.

Module TravelersLoginExamples.
Import Travelers TravelersLogin Sample.



Example login_wrong_password :
  (login sample_bcrypt sample_jwt (Some "s3cr3t")
         (Some "alice@example.com") (Some "wrong") sample_db).1
  = status_json 401 (error "Invalid email or password").
Proof. reflexivity. Qed.

Example login_unknown_email :
  (login sample_bcrypt sample_jwt (Some "s3cr3t")
         (Some "carol@example.com") (Some "secret") sample_db).1
  = status_json 401 (error "Invalid email or password").
Proof. reflexivity. Qed.

End TravelersLoginExamples.

(** ** routes/posts.js *)

Module Posts.

(** [s.startsWith(p)], [s.indexOf(c)] and [s.toLowerCase()] (ASCII). *)
Definition startsWith (s p : string) : bool := String.prefix p s.

Fixpoint indexOf (c : ascii) (s : string) : option nat :=
  match s with
  | EmptyString => None
  | String d rest => if Ascii.eqb c d then Some 0%nat else S <$> indexOf c rest
  end.

Definition lower_ascii (c : ascii) : ascii :=
  let n := N_of_ascii c in
  if ((65 <=? n) && (n <=? 90))%N then ascii_of_N (n + 32) else c.

Fixpoint toLowerCase (s : string) : string :=
  match s with
  | EmptyString => EmptyString
  | String c rest => String (lower_ascii c) (toLowerCase rest)
  end.

(** A query-string parameter, absent or a string; [if (x)] on it. *)
Definition given (x : option string) : bool :=
  match x with
  | None => false
  | Some s => negb (s =? "")%string
  end.

(** The WHERE clause that GET / assembles, one conjunct per
    [sql += ' AND ...'; params.push(...)]. *)
Inductive cond : Type :=
| ApprovedIs (b : bool)
| SectionIs (section : string)
| AuthorIs (author : string).

Record posts_query : Type := {
  q_where : list cond;
  q_limit : option (option Z);
  q_offset : option (option Z)
}.

(** [req.query] of GET /. *)
Record list_params : Type := {
  approved : option string;
  section : option string;
  author : option string;
  limit : option string;
  offset : option string
}.

Definition build_query (u : option user) (q : list_params) : posts_query :=
  let w0 :=
    if negb (from_option user_isAdmin false u) then [ApprovedIs true]
    else match approved q with
         | Some a => [ApprovedIs (a =? "true")%string]
         | None => []
         end in
  let w1 := if given (section q)
            then (w0 ++ [SectionIs (default "" (section q))])%list else w0 in
  let w2 := if given (author q)
            then (w1 ++ [AuthorIs (default "" (author q))])%list else w1 in
  {| q_where := w2;
     q_limit := if given (limit q) then Some (parseInt_string (default "" (limit q))) else None;
     q_offset := if given (limit q) && given (offset q)
                 then Some (parseInt_string (default "" (offset q))) else None |}.

(** One media row of a post, as the first route validates it: a URL that
    is raw base64 without its prefix, or a data URL that is too short or
    has no comma where one belongs, is skipped. *)
Definition clean_medium (m : post_medium) : option jsval :=
  let mediaUrl := pm_media_url m in
  let is_data := startsWith mediaUrl "data:image/" || startsWith mediaUrl "data:video/" in
  if negb (mediaUrl =? "")%string && negb (startsWith mediaUrl "data:")
     && negb (startsWith mediaUrl "http://") && negb (startsWith mediaUrl "https://")
     && negb (startsWith mediaUrl "/")
  then None
  else if is_data && (String.length mediaUrl <? 100)%nat
  then None
  else if is_data && match indexOf "," mediaUrl with
                     | None => true
                     | Some i => (i <? 20)%nat
                     end
  then None
  else
    let finalUrl := trim mediaUrl in
    if negb (finalUrl =? "")%string
       && (startsWith finalUrl "data:image/" || startsWith finalUrl "data:video/")
       && negb (bool_decide (is_Some (indexOf "," finalUrl)))
    then None
    else Some (obj [
      ("type", match pm_media_type m with
               | Some ty => if (ty =? "")%string
                            then JStr (if startsWith finalUrl "data:video/" then "video" else "image")
                            else JStr ty
               | None => JStr (if startsWith finalUrl "data:video/" then "video" else "image")
               end);
      ("url", JStr finalUrl)]).

Definition le_display (a b : post_medium) : bool :=
  pm_display_order a <=? pm_display_order b.

Definition newest_first (a b : post) : bool := p_created_at b <=? p_created_at a.

(** [arr.filter((x, i) => arr.indexOf(x) === i)], for GROUP_CONCAT(DISTINCT). *)
Fixpoint distinct (l : list string) : list string :=
  match l with
  | [] => []
  | x :: rest => x :: filter (fun y => y ≠ x) (distinct rest)
  end.

(** LIMIT and OFFSET with a parameter the server refuses (NaN or negative). *)
Definition window {A : Type} (lim off : option (option Z)) (l : list A) : result (list A) :=
  match lim with
  | None => Ok l
  | Some None => Throw "ER_PARSE_ERROR"
  | Some (Some n) =>
      if n <? 0 then Throw "ER_PARSE_ERROR"
      else match off with
           | None => Ok (take (Z.to_nat n) l)
           | Some None => Throw "ER_PARSE_ERROR"
           | Some (Some k) =>
               if k <? 0 then Throw "ER_PARSE_ERROR"
               else Ok (take (Z.to_nat n) (drop (Z.to_nat k) l))
           end
  end.

Section Routes.

(** The platform's [toISOString] and [parseFloat], and the server's
    comparison [column = ?] of an INT column with a string parameter. *)
Variable toISOString : Z → string.
Variable parseFloat : jsval → jsval.
Variable int_eq_param : option Z → string → bool.

Definition holds (p : post) (c : cond) : bool :=
  match c with
  | ApprovedIs true => p_approved p =? 1
  | ApprovedIs false => p_approved p =? 0
  | SectionIs s => int_eq_param (p_section_id p) s
  | AuthorIs a => (p_author_email p =? a)%string
  end.

(** Running the assembled SELECT: the rows satisfying every conjunct,
    newest first, cut by LIMIT and OFFSET. *)
Definition run_query (q : posts_query) : M (list post) :=
  on_table Posts ;; on_table PostTags ;;
  d ← get_db ;
  lift (window (q_limit q) (q_offset q)
          (order_by newest_first
             (filter (fun p => forallb (holds p) (q_where q) = true) (posts d)))).

Definition tags_of (d : db) (id : Z) : list string :=
  map pt_tag_name (filter (fun t => pt_post_id t = id) (post_tags d)).

Definition media_of (d : db) (id : Z) : list post_medium :=
  order_by le_display (filter (fun m => pm_post_id m = id) (post_media d)).

(** [x ? parseFloat(x) : null]. *)
Definition coordinate (x : jsval) : jsval := if truthy x then parseFloat x else JNull.

(** The object GET / answers for one post. *)
Definition format_listed (d : db) (p : post) : jsval :=
  obj [
    ("id", JNum (p_id p));
    ("author", js_or (p_author_name p) (JStr (p_author_email p)));
    ("email", JStr (p_author_email p));
    ("authorImage", js_or (p_author_image_url p) (JStr ""));
    ("place", p_place p);
    ("location", p_location p);
    ("section", from_option JNum JNull (p_section_id p));
    ("description", p_description p);
    ("timestamp", JStr (toISOString (p_created_at p)));
    ("lat", coordinate (p_lat p));
    ("lng", coordinate (p_lng p));
    ("approved", JBool (p_approved p =? 1));
    ("isPrivate", JBool (p_is_private p =? 1));
    ("media", JArr (omap clean_medium (media_of d (p_id p))));
    ("tags", JArr (JStr <$> distinct (tags_of d (p_id p))))
  ].

(** GET /, behind [authenticateToken].  The column check and the ALTER
    statements sit in their own try/catch and change no row. *)
Definition get_posts (u : option user) (q : list_params) : db → response * db :=
  route
    (posts ← run_query (build_query u q) ;
     (if bool_decide (posts = []) then mret () else on_table PostMedia) ;;
     d ← get_db ;
     mret (json (JArr (format_listed d <$> posts))))
    (fun _ => status_json 500 (error "Failed to fetch posts")).

(** GET /:id, behind [authenticateToken]. *)
Definition get_post (u : option user) (id : string) : db → response * db :=
  route
    (rows ← select Posts posts (fun p => int_eq_param (Some (p_id p)) id) ;
     match rows with
     | [] => mret (status_json 404 (error "Post not found"))
     | post :: _ =>
         if negb (from_option user_isAdmin false u) && (p_approved post =? 0)
         then mret (status_json 403 (error "Post not available"))
         else
           on_table PostMedia ;; on_table PostTags ;;
           d ← get_db ;
           mret (json (obj [
             ("id", JNum (p_id post));
             ("author", js_or (p_author_name post) (JStr (p_author_email post)));
             ("email", JStr (p_author_email post));
             ("authorImage", js_or (p_author_image_url post) (JStr ""));
             ("place", p_place post);
             ("location", p_location post);
             ("section", from_option JNum JNull (p_section_id post));
             ("description", p_description post);
             ("timestamp", JStr (toISOString (p_created_at post)));
             ("lat", coordinate (p_lat post));
             ("lng", coordinate (p_lng post));
             ("approved", JBool (p_approved post =? 1));
             ("media", JArr ((fun m => obj [
                 ("type", match pm_media_type m with
                          | Some ty => if (ty =? "")%string
                                       then JStr (if startsWith (pm_media_url m) "data:video/"
                                                  then "video" else "image")
                                       else JStr ty
                          | None => JStr (if startsWith (pm_media_url m) "data:video/"
                                          then "video" else "image")
                          end);
                 ("url", JStr (pm_media_url m))]) <$> media_of d (p_id post)));
             ("tags", JArr (JStr <$> tags_of d (p_id post)))
           ]))
     end)
    (fun _ => status_json 500 (error "Failed to fetch post")).

End Routes.
End Posts.

(** *** Approval gates what a traveler can read *)

Module PostsReading.
Import Posts.

Lemma insert_sorted_perm {A : Type} (le : A → A → bool) (x : A) (l : list A) :
  insert_sorted le x l ≡ₚ x :: l.
Proof.
  induction l as [|y l IH]; simpl; [done|].
  destruct (le x y); [done|]. rewrite IH. apply Permutation_swap.
Qed.

Lemma order_by_perm {A : Type} (le : A → A → bool) (l : list A) :
  order_by le l ≡ₚ l.
Proof.
  induction l as [|x l IH]; simpl; [done|].
  rewrite insert_sorted_perm. by rewrite IH.
Qed.

Lemma window_sublist {A : Type} (lim off : option (option Z)) (l ps : list A) :
  window lim off l = Ok ps → ∀ p, p ∈ ps → p ∈ l.
Proof.
  unfold window. destruct lim as [[n|]|]; [|discriminate|by intros [= <-]].
  destruct (n <? 0); [discriminate|].
  destruct off as [[k|]|]; [|discriminate|].
  - destruct (k <? 0); [discriminate|]. intros [= <-] p Hp.
    eapply elem_of_sublist; [exact Hp|].
    etrans; [apply sublist_take|apply sublist_drop].
  - intros [= <-] p Hp. eapply elem_of_sublist; [exact Hp|apply sublist_take].
Qed.

(** The first conjunct a traveler's query carries is [approved = TRUE]. *)
Lemma build_query_traveler (u : option user) (q : list_params) :
  from_option user_isAdmin false u = false →
  ApprovedIs true ∈ q_where (build_query u q).
Proof.
  intros Hu. unfold build_query. rewrite Hu. simpl.
  destruct (given (section q)), (given (author q)); simpl;
    repeat (apply elem_of_cons; left; reflexivity) || apply elem_of_cons; by left.
Qed.

(** An admin's query without an [approved] parameter has no conjunct on
    approval. *)
Lemma build_query_admin (u : user) (q : list_params) :
  user_isAdmin u = true → approved q = None →
  ∀ b, ApprovedIs b ∉ q_where (build_query (Some u) q).
Proof.
  intros Hu Hq b. unfold build_query. simpl. rewrite Hu, Hq. simpl.
  destruct (given (section q)), (given (author q)); simpl;
    rewrite ?not_elem_of_cons; repeat split; try discriminate; apply not_elem_of_nil.
Qed.

Section Facts.

Variable toISOString : Z → string.
Variable parseFloat : jsval → jsval.
Variable int_eq_param : option Z → string → bool.

Lemma run_query_state (q : posts_query) (d : db) :
  (run_query int_eq_param q d).2 = d.
Proof.
  unfold run_query, mbind, M_bind, on_table, get_db, lift.
  destruct (unavailable d Posts); [done|].
  by destruct (unavailable d PostTags).
Qed.

Lemma run_query_sound (q : posts_query) (d d' : db) (ps : list post) :
  run_query int_eq_param q d = (Ok ps, d') →
  ∀ p, p ∈ ps → p ∈ posts d ∧ forallb (holds int_eq_param p) (q_where q) = true.
Proof.
  unfold run_query, mbind, M_bind, on_table, get_db, lift.
  destruct (unavailable d Posts); [discriminate|].
  destruct (unavailable d PostTags); [discriminate|].
  intros [= Hw _] p Hp.
  apply (window_sublist _ _ _ _ Hw) in Hp.
  rewrite order_by_perm in Hp. apply list_elem_of_filter in Hp as [Hh Hp]. done.
Qed.

Lemma run_query_unlimited (q : posts_query) (d : db) :
  unavailable d Posts = false → unavailable d PostTags = false → q_limit q = None →
  run_query int_eq_param q d =
  (Ok (order_by newest_first
         (filter (fun p => forallb (holds int_eq_param p) (q_where q) = true) (posts d))), d).
Proof.
  intros H1 H2 Hl. unfold run_query, mbind, M_bind, on_table, get_db, lift, window.
  by rewrite H1, H2, Hl.
Qed.

(** What GET / answers: a failure, or the formatted rows of its query. *)
Lemma get_posts_eval (u : option user) (q : list_params) (d : db) :
  (get_posts toISOString parseFloat int_eq_param u q d).1 =
  match run_query int_eq_param (build_query u q) d with
  | (Ok ps, _) =>
      if bool_decide (ps = []) || negb (unavailable d PostMedia)
      then json (JArr (format_listed toISOString parseFloat d <$> ps))
      else status_json 500 (error "Failed to fetch posts")
  | (Throw _, _) => status_json 500 (error "Failed to fetch posts")
  end.
Proof.
  unfold get_posts, route. unfold mbind at 1, M_bind.
  pose proof (run_query_state (build_query u q) d) as Hst.
  destruct (run_query int_eq_param (build_query u q) d) as [[ps|e] d'] eqn:Eq;
    simpl in Hst; subst d'; simpl; [|done].
  unfold mbind, M_bind, on_table, get_db, mret, M_ret.
  case_bool_decide; simpl; [done|].
  by destruct (unavailable d PostMedia).
Qed.

Lemma get_posts_cases (u : option user) (q : list_params) (d : db) :
  (get_posts toISOString parseFloat int_eq_param u q d).1 =
    status_json 500 (error "Failed to fetch posts") ∨
  ∃ ps, run_query int_eq_param (build_query u q) d = (Ok ps, d) ∧
        (get_posts toISOString parseFloat int_eq_param u q d).1 =
          json (JArr (format_listed toISOString parseFloat d <$> ps)).
Proof.
  rewrite get_posts_eval.
  pose proof (run_query_state (build_query u q) d) as Hst.
  destruct (run_query int_eq_param (build_query u q) d) as [[ps|e] d'] eqn:Eq;
    simpl in Hst; subst d'; [|by left].
  destruct (bool_decide (ps = []) || negb (unavailable d PostMedia)); [|by left].
  right. exists ps. split; reflexivity.
Qed.

(** The filters of GET / other than approval. *)
Definition other_filters (q : list_params) (p : post) : Prop :=
  (given (section q) = true →
     int_eq_param (p_section_id p) (default "" (section q)) = true) ∧
  (given (author q) = true → p_author_email p = default "" (author q)).

Lemma where_traveler (u : option user) (q : list_params) (p : post) :
  from_option user_isAdmin false u = false →
  forallb (holds int_eq_param p) (q_where (build_query u q)) = true ↔
  p_approved p = 1 ∧ other_filters q p.
Proof.
  intros Hu. unfold build_query, other_filters. rewrite Hu. simpl.
  destruct (given (section q)), (given (author q)); simpl;
    rewrite ?andb_true_iff, ?Z.eqb_eq, ?String.eqb_eq; intuition congruence.
Qed.

Lemma where_admin (u : user) (q : list_params) (p : post) :
  user_isAdmin u = true → approved q = None →
  forallb (holds int_eq_param p) (q_where (build_query (Some u) q)) = true ↔
  other_filters q p.
Proof.
  intros Hu Hq. unfold build_query, other_filters. simpl. rewrite Hu, Hq. simpl.
  destruct (given (section q)), (given (author q)); simpl;
    rewrite ?andb_true_iff, ?String.eqb_eq; intuition congruence.
Qed.

Lemma get_posts_unlimited (u : option user) (q : list_params) (d : db) :
  unavailable d Posts = false → unavailable d PostTags = false →
  unavailable d PostMedia = false → given (limit q) = false →
  (get_posts toISOString parseFloat int_eq_param u q d).1 =
  json (JArr (format_listed toISOString parseFloat d <$>
                order_by newest_first
                  (filter (fun p => forallb (holds int_eq_param p)
                                      (q_where (build_query u q)) = true) (posts d)))).
Proof.
  intros H1 H2 H3 Hl. rewrite get_posts_eval, run_query_unlimited; try done.
  - rewrite H3. simpl. by rewrite orb_true_r.
  - unfold build_query. simpl. by rewrite Hl.
Qed.


End Facts.
End PostsReading.

(** *** Writing posts: POST /, PUT /:id and PATCH /:id/approve *)

Module PostsWriting.
Import Posts.

(** [toNull] and [toEmpty] of POST /. *)
Definition toNull (val : jsval) : jsval :=
  match val with
  | JUndefined => JNull
  | JStr s => if (s =? "")%string then JNull else val
  | _ => val
  end.

Definition toEmpty (val : jsval) : jsval :=
  match val with
  | JUndefined | JNull => JStr ""
  | _ => JStr (to_string val)
  end.

(** The fallback table of [getSectionId].  A plain object literal also
    answers to the lower-case names it inherits, with a value that is not
    a number. *)
Definition sectionMap (name : string) : jsval :=
  if (name =? "temples")%string || (name =? "temple")%string then JNum 1
  else if (name =? "experiences")%string || (name =? "experience")%string then JNum 2
  else if (name =? "food")%string then JNum 3
  else if (name =? "travel")%string then JNum 4
  else if (name =? "accommodation")%string then JNum 5
  else if (name =? "culture")%string then JNum 6
  else if (name =? "nature")%string then JNum 7
  else if (name =? "scenic")%string then JNum 8
  else if (name =? "events")%string || (name =? "event")%string then JNum 9
  else if (name =? "heritage")%string then JNum 10
  else if (name =? "constructor")%string || (name =? "__proto__")%string then JObj ∅
  else JUndefined.

(** [getSectionId]: a positive number stands for itself; otherwise the
    name is looked up in [post_sections] when that table exists, and then
    in [sectionMap].  The lookup sits in its own try/catch. *)
Definition getSectionId (sectionNameOrId : jsval) : M jsval :=
  if negb (truthy sectionNameOrId) then mret JNull
  else
    match parseInt sectionNameOrId with
    | Some numId => if 0 <? numId then mret (JNum numId) else mret JUndefined
    | None => mret JUndefined
    end ≫= fun direct =>
    match direct with
    | JNum _ => mret direct
    | _ =>
        d ← get_db ;
        let name := to_string sectionNameOrId in
        let found :=
          if unavailable d PostSections then None
          else List.find (fun r => (toLowerCase (ps_name r) =? toLowerCase name)%string)
                         (post_sections d) in
        match found with
        | Some sectionRow =>
            if negb (ps_id sectionRow =? 0) then mret (JNum (ps_id sectionRow))
            else
              let mappedId := sectionMap (trim (toLowerCase name)) in
              mret (if truthy mappedId then mappedId else JNull)
        | None =>
            let mappedId := sectionMap (trim (toLowerCase name)) in
            mret (if truthy mappedId then mappedId else JNull)
        end
    end.

(** What [for (const x of v)] and [v[i]] range over when [v.length > 0]:
    the items of an array, the characters of a string. *)
Definition items (v : jsval) : list jsval :=
  match v with
  | JArr l => l
  | JStr s => (fun c => JStr (String c EmptyString)) <$> list_ascii_of_string s
  | _ => []
  end.

Definition typeof (v : jsval) : string :=
  match v with
  | JUndefined => "undefined"
  | JBool _ => "boolean"
  | JNum _ => "number"
  | JStr _ => "string"
  | JNull | JDate _ | JArr _ | JObj _ => "object"
  end.

Definition dquote : string := String (ascii_of_N 34) EmptyString.

(** [x !== undefined ? (x === true || x === 'true') : false]. *)
Definition flag (x : jsval) : bool :=
  match x with
  | JBool true => true
  | JStr s => (s =? "true")%string
  | _ => false
  end.

Definition tinyint (b : bool) : Z := if b then 1 else 0.

(** INSERT INTO posts: [section_id] references [post_sections] when that
    table exists. *)
Definition insert_post (p : Z → post) : M Z :=
  on_table Posts ;;
  d ← get_db ;
  match p_section_id (p 0) with
  | Some s =>
      if unavailable d PostSections || bool_decide (s ∈ map ps_id (post_sections d))
      then mret ()
      else throw "ER_NO_REFERENCED_ROW_2"
  | None => mret ()
  end ;;
  id ← fresh_id Posts ;
  modify_db (fun d => set_posts (posts d ++ [p id])%list d) ;;
  mret id.

(** The media loop of POST /: items are URL strings or objects with a
    [url] or [data] property. *)
Fixpoint insert_media (postId : Z) (i : Z) (media : list jsval) : M unit :=
  match media with
  | [] => mret ()
  | item :: rest =>
      match item with
      | JStr _ => mret item
      | JObj _ => mret (js_or (js_or (prop item "url") (prop item "data")) (JStr ""))
      | JNull | JUndefined => throw "TypeError"
      | _ => mret (JStr "")
      end ≫= fun mediaUrl =>
      (if truthy mediaUrl then
         match mediaUrl with
         | JStr url =>
             if startsWith url "data:" && negb (bool_decide (is_Some (indexOf "," url)))
             then mret ()
             else
               on_table PostMedia ;;
               modify_db (fun d =>
                 set_post_media
                   (post_media d ++
                    [{| pm_post_id := postId; pm_media_url := url;
                        pm_display_order := i;
                        pm_media_type :=
                          Some (if startsWith url "data:video/"
                                then "video" else "image") |}])%list d)
         | _ => throw "TypeError"
         end
       else mret ()) ;;
      insert_media postId (i + 1) rest
  end.

Fixpoint insert_tags (postId : Z) (tags : list jsval) : M unit :=
  match tags with
  | [] => mret ()
  | tag :: rest =>
      on_table PostTags ;;
      modify_db (fun d =>
        set_post_tags
          (post_tags d ++
           [{| pt_post_id := postId; pt_tag_name := to_string tag |}])%list d) ;;
      insert_tags postId rest
  end.

(** POST /, behind [authenticateToken].  [body] is [req.body] and [now]
    the time the row is stamped with. *)
Definition create_post (now : Z) (u : user) (body : jsval) : db → response * db :=
  route
    (let authorEmail := prop body "authorEmail" in
     let email := prop body "email" in
     let section := prop body "section" in
     let approved := prop body "approved" in
     let postAuthorEmail := js_or (js_or authorEmail email) (JStr (user_email u)) in
     if negb (user_isAdmin u) && negb (strict_eq postAuthorEmail (JStr (user_email u)))
     then mret (status_json 403 (denied "You can only create posts for yourself"))
     else
       let finalAuthorEmail := js_or (js_or authorEmail email) (JStr "") in
       let finalAuthorName := js_or (js_or (prop body "authorName") (prop body "author")) (JStr "") in
       finalSection ← getSectionId section ;
       let finalApproved := flag approved in
       let finalIsPrivate := flag (prop body "isPrivate") in
       match
         match finalSection with
         | JNull | JUndefined => Some None
         | _ => match parseInt finalSection with
                | Some parsedId => if 0 <? parsedId then Some (Some parsedId) else None
                | None => None
                end
         end
       with
       | None =>
           mret (status_json 400 (error (
             "Invalid section: " +:+ dquote +:+ to_string section +:+ dquote +:+
             ". Section must be a valid ID or name. Received: " +:+
             to_string finalSection +:+ " (" +:+ typeof finalSection +:+ ")")))
       | Some sectionIdForInsert =>
           postId ← insert_post (fun id =>
             {| p_id := id;
                p_author_email := to_string finalAuthorEmail;
                p_author_name := finalAuthorName;
                p_author_image_url := toEmpty (prop body "authorImage");
                p_place := toEmpty (prop body "place");
                p_location := toEmpty (prop body "location");
                p_section_id := sectionIdForInsert;
                p_description := toEmpty (prop body "description");
                p_lat := toNull (prop body "lat");
                p_lng := toNull (prop body "lng");
                p_approved := tinyint finalApproved;
                p_is_private := tinyint finalIsPrivate;
                p_created_at := now |}) ;
           insert_media postId 0 (items (prop body "media")) ;;
           insert_tags postId (items (prop body "tags")) ;;
           mret (status_json 201 (obj [
             ("id", JNum postId);
             ("message", JStr "Post created successfully");
             ("approved", JBool finalApproved);
             ("isPrivate", JBool finalIsPrivate)]))
       end)
    (fun e => status_json 500 (obj [("error", JStr "Failed to create post");
                                    ("message", JStr e)])).

(** What the server stores in a BOOLEAN column for a parameter. *)
Definition to_tinyint (v : jsval) : result Z :=
  match v with
  | JBool b => Ok (tinyint b)
  | JNull => Ok 0
  | JNum n => if (-128 <=? n) && (n <=? 127) then Ok n else Throw "ER_WARN_DATA_OUT_OF_RANGE"
  | _ => Throw "ER_TRUNCATED_WRONG_VALUE_FOR_FIELD"
  end.

(** What the server stores in the INT column [section_id]: NULL, or an
    integer (given as a number or in its decimal spelling) that
    [post_sections] holds when that table exists; anything else is
    refused. *)
Definition to_section (d : db) (v : jsval) : result (option Z) :=
  match v with
  | JNull => Ok None
  | JNum n =>
      if unavailable d PostSections || bool_decide (n ∈ map ps_id (post_sections d))
      then Ok (Some n) else Throw "ER_NO_REFERENCED_ROW_2"
  | JStr s =>
      match parseInt_string s with
      | Some n =>
          if negb (string_of_Z n =? s)%string
          then Throw "ER_TRUNCATED_WRONG_VALUE_FOR_FIELD"
          else if unavailable d PostSections
                  || bool_decide (n ∈ map ps_id (post_sections d))
          then Ok (Some n)
          else Throw "ER_NO_REFERENCED_ROW_2"
      | None => Throw "ER_TRUNCATED_WRONG_VALUE_FOR_FIELD"
      end
  | _ => Throw "ER_TRUNCATED_WRONG_VALUE_FOR_FIELD"
  end.

(** The SET list of PUT /:id applied to one row. *)
Definition apply_update (u : user) (body : jsval) (d : db) (p : post) : result post :=
  let place := prop body "place" in
  let location := prop body "location" in
  let section := prop body "section" in
  let description := prop body "description" in
  let lat := prop body "lat" in
  let lng := prop body "lng" in
  let approved := prop body "approved" in
  section_id ← match section with
               | JUndefined => Ok (p_section_id p)
               | _ => to_section d section
               end ;
  approved' ← (if negb (strict_eq approved JUndefined) && user_isAdmin u
               then to_tinyint approved else Ok (p_approved p)) ;
  Ok {| p_id := p_id p;
        p_author_email := p_author_email p;
        p_author_name := p_author_name p;
        p_author_image_url := p_author_image_url p;
        p_place := if truthy place then place else p_place p;
        p_location := if truthy location then location else p_location p;
        p_section_id := section_id;
        p_description := match description with JUndefined => p_description p | _ => description end;
        p_lat := match lat with JUndefined => p_lat p | _ => lat end;
        p_lng := match lng with JUndefined => p_lng p | _ => lng end;
        p_approved := approved';
        p_is_private := p_is_private p;
        p_created_at := p_created_at p |}.

(** [UPDATE posts SET ... WHERE id = ?]. *)
Definition update_where_id (postId : Z) (f : post → result post) : M unit :=
  on_table Posts ;;
  d ← get_db ;
  rows ← lift (map_result (fun p => if p_id p =? postId then f p else Ok p) (posts d)) ;
  modify_db (set_posts rows).

Definition replace_media (postId : Z) (media : list jsval) : M unit :=
  on_table PostMedia ;;
  modify_db (fun d =>
    set_post_media (filter (fun m => pm_post_id m ≠ postId) (post_media d)) d) ;;
  (fix go (i : Z) (l : list jsval) : M unit :=
     match l with
     | [] => mret ()
     | x :: rest =>
         modify_db (fun d =>
           set_post_media
             (post_media d ++
              [{| pm_post_id := postId; pm_media_url := to_string x;
                  pm_display_order := i; pm_media_type := Some "image" |}])%list d) ;;
         go (i + 1) rest
     end) 0 media.

Definition replace_tags (postId : Z) (tags : list jsval) : M unit :=
  on_table PostTags ;;
  modify_db (fun d =>
    set_post_tags (filter (fun t => pt_post_id t ≠ postId) (post_tags d)) d) ;;
  insert_tags postId tags.

(** PUT /:id, behind [authenticateToken]. *)
Definition update_post (u : user) (id : string) (body : jsval) : db → response * db :=
  route
    (match parseInt_string id with
     | None => mret (status_json 400 (error "Invalid post ID"))
     | Some postId =>
         if postId <=? 0 then mret (status_json 400 (error "Invalid post ID"))
         else
           rows ← select Posts posts (fun p => p_id p =? postId) ;
           match rows with
           | [] => mret (status_json 404 (error "Post not found"))
           | post :: _ =>
               if negb (user_isAdmin u) && negb (p_author_email post =? user_email u)%string
               then mret (status_json 403 (denied "You can only update your own posts"))
               else
                 d ← get_db ;
                 update_where_id postId (apply_update u body d) ;;
                 match prop body "media" with
                 | JUndefined => mret ()
                 | JNull => replace_media postId [] ;; throw "TypeError"
                 | media => replace_media postId (items media)
                 end ;;
                 match prop body "tags" with
                 | JUndefined => mret ()
                 | JNull => replace_tags postId [] ;; throw "TypeError"
                 | tags => replace_tags postId (items tags)
                 end ;;
                 mret (json (obj [("message", JStr "Post updated successfully")]))
           end
     end)
    (fun _ => status_json 500 (error "Failed to update post")).

(** PATCH /:id/approve, behind [authenticateToken] and [requireAdmin]. *)
Definition approve_post (id : string) (body : jsval) : db → response * db :=
  route
    (match parseInt_string id with
     | None => mret (status_json 400 (error "Invalid post ID"))
     | Some postId =>
         if postId <=? 0 then mret (status_json 400 (error "Invalid post ID"))
         else
           let approved := prop body "approved" in
           let approvedValue :=
             strict_eq approved (JBool true) || strict_eq approved (JStr "true")
             || strict_eq approved (JNum 1) in
           update_where_id postId (fun p =>
             Ok {| p_id := p_id p; p_author_email := p_author_email p;
                   p_author_name := p_author_name p;
                   p_author_image_url := p_author_image_url p;
                   p_place := p_place p; p_location := p_location p;
                   p_section_id := p_section_id p; p_description := p_description p;
                   p_lat := p_lat p; p_lng := p_lng p;
                   p_approved := tinyint approvedValue;
                   p_is_private := p_is_private p;
                   p_created_at := p_created_at p |}) ;;
           rows ← select Posts posts (fun p => p_id p =? postId) ;
           match rows with
           | updatedPost :: _ =>
               mret (json (obj [
                 ("message", JStr (if approvedValue then "Post approved successfully"
                                   else "Post disapproved successfully"));
                 ("post", obj [
                    ("id", JNum (p_id updatedPost));
                    ("approved", JBool (p_approved updatedPost =? 1));
                    ("isPrivate", JBool (p_is_private updatedPost =? 1));
                    ("author_email", JStr (p_author_email updatedPost));
                    ("place", p_place updatedPost)])]))
           | [] => mret (status_json 404 (error "Post not found after update"))
           end
     end)
    (fun _ => status_json 500 (error "Failed to update post approval")).

End PostsWriting.

(** *** Who can make a post approved *)

Module PostsApproval.
Import Posts PostsWriting Sample.

Definition temple_post : post :=
  {| p_id := 1; p_author_email := "alice@example.com"; p_author_name := JStr "Alice";
     p_author_image_url := JStr ""; p_place := JStr "Pashupatinath";
     p_location := JStr "Kathmandu"; p_section_id := Some 1;
     p_description := JStr "Morning darshan"; p_lat := JNull; p_lng := JNull;
     p_approved := 1; p_is_private := 0; p_created_at := 2000 |}.

Definition draft_post : post :=
  {| p_id := 2; p_author_email := "bob@example.com"; p_author_name := JStr "Bob";
     p_author_image_url := JStr ""; p_place := JStr "Muktinath";
     p_location := JStr "Mustang"; p_section_id := None;
     p_description := JStr "Waiting for review"; p_lat := JNull; p_lng := JNull;
     p_approved := 0; p_is_private := 0; p_created_at := 3000 |}.

Definition posts_db : db :=
  set_next_id Posts 3
    (set_posts [temple_post; draft_post]
       {| unavailable := fun _ => false; next_id := fun _ => 10;
          travelers := [alice; bob]; vehicles := [bus]; vehicle_allotments := [];
          check_ins := []; posts := [];
          post_sections := [{| ps_id := 1; ps_name := "Temples & Sacred Sites" |}];
          post_media := []; post_tags := []; settings := ∅; announcements := [] |}).

(** A traveler's own request with [approved: true] in the body. *)
Definition self_approving_body : jsval :=
  obj [("authorEmail", JStr "bob@example.com"); ("place", JStr "Lumbini");
       ("description", JStr "Arrived"); ("approved", JBool true)].

(** C4, at the input where the code departs from it: the post a traveler
    creates with [approved: true] in the body is stored approved and
    announced as approved, with no admin involved. *)
Theorem create_post_self_approved :
  let '(r, d') := create_post 5000 bob_user self_approving_body posts_db in
  user_isAdmin bob_user = false ∧
  status r = 201 ∧
  prop (body r) "approved" = JBool true ∧
  p_approved <$> last (posts d') = Some 1 ∧
  p_author_email <$> last (posts d') = Some (user_email bob_user) ∧
  p_id <$> last (posts d') = Some 3 ∧
  length (posts d') = S (length (posts posts_db)).
Proof. vm_compute. repeat split. Qed.


(** A computation that leaves the [posts] table as it found it, whether
    it returns or throws. *)
Definition keeps_posts {A : Type} (m : M A) : Prop :=
  ∀ d, posts (m d).2 = posts d.

Lemma keeps_posts_ret {A : Type} (a : A) : keeps_posts (mret a).
Proof. by intros d. Qed.

Lemma keeps_posts_throw {A : Type} (e : string) : keeps_posts (throw e : M A).
Proof. by intros d. Qed.

Lemma keeps_posts_lift {A : Type} (r : result A) : keeps_posts (lift r).
Proof. by intros d. Qed.

Lemma keeps_posts_on_table (t : table) : keeps_posts (on_table t).
Proof. intros d. unfold on_table. by destruct (unavailable d t). Qed.

Lemma keeps_posts_get_db : keeps_posts get_db.
Proof. by intros d. Qed.

Lemma keeps_posts_bind {A B : Type} (m : M A) (f : A → M B) :
  keeps_posts m → (∀ a, keeps_posts (f a)) → keeps_posts (m ≫= f).
Proof.
  intros Hm Hf d. unfold mbind, M_bind. specialize (Hm d).
  destruct (m d) as [[a|e] d1]; simpl in *; [|done].
  by rewrite Hf.
Qed.

Lemma keeps_posts_modify (f : db → db) :
  (∀ d, posts (f d) = posts d) → keeps_posts (modify_db f).
Proof. intros Hf d. apply Hf. Qed.

Lemma keeps_posts_insert_media (postId i : Z) (media : list jsval) :
  keeps_posts (insert_media postId i media).
Proof.
  revert i. induction media as [|item rest IH]; intros i; simpl.
  { apply keeps_posts_ret. }
  apply keeps_posts_bind.
  { destruct item; first [apply keeps_posts_ret | apply keeps_posts_throw]. }
  intros mediaUrl. apply keeps_posts_bind; [|intros _; apply IH].
  destruct (truthy mediaUrl); [|apply keeps_posts_ret].
  destruct mediaUrl; try apply keeps_posts_throw.
  destruct (_ && _); [apply keeps_posts_ret|].
  apply keeps_posts_bind; [apply keeps_posts_on_table|intros _].
  by apply keeps_posts_modify.
Qed.

Lemma keeps_posts_insert_tags (postId : Z) (tags : list jsval) :
  keeps_posts (insert_tags postId tags).
Proof.
  induction tags as [|tag rest IH]; simpl; [apply keeps_posts_ret|].
  apply keeps_posts_bind; [apply keeps_posts_on_table|intros _].
  apply keeps_posts_bind; [by apply keeps_posts_modify|intros _]. apply IH.
Qed.

Lemma getSectionId_state (section : jsval) (d : db) :
  (getSectionId section d).2 = d.
Proof.
  unfold getSectionId. destruct (truthy section); [|done].
  unfold mbind, M_bind, get_db, mret, M_ret.
  destruct (parseInt section) as [n|]; simpl.
  - destruct (0 <? n); simpl; [done|].
    destruct (if unavailable d PostSections then _ else _) as [r|]; [|done].
    by destruct (negb _).
  - destruct (if unavailable d PostSections then _ else _) as [r|]; [|done].
    by destruct (negb _).
Qed.

Lemma insert_post_stores (p : Z → post) (d d' : db) (r : result Z) :
  insert_post p d = (r, d') →
  posts d' = posts d ∨ ∃ id, posts d' = (posts d ++ [p id])%list.
Proof.
  unfold insert_post. intros H.
  apply bind_inv in H as [(u0 & d1 & H1 & H)|(e & H1 & _)]; unfold on_table in H1.
  2:{ destruct (unavailable d Posts); [|discriminate]. injection H1 as _ <-. by left. }
  destruct (unavailable d Posts); [discriminate|]. injection H1 as _ <-.
  apply bind_inv in H as [(d0 & d2 & H2 & H)|(e & H2 & _)]; [|discriminate].
  unfold get_db in H2. injection H2 as <- <-.
  apply bind_inv in H as [(u1 & d1 & H1 & H)|(e & H1 & _)].
  - assert (d1 = d) as ->.
    { destruct (p_section_id (p 0)); [|by injection H1].
      destruct (_ || _); [by injection H1|discriminate]. }
    unfold fresh_id, mbind, M_bind, get_db, modify_db, mret, M_ret in H.
    injection H as _ <-. right. by eexists.
  - destruct (p_section_id (p 0)); [|discriminate].
    destruct (_ || _); [discriminate|injection H1 as _ <-; by left].
Qed.

(** What POST / does to the [posts] table: nothing, or one new row at the
    end whose approval is the [approved] flag of the body. *)
Lemma create_post_stores (now : Z) (u : user) (body : jsval) (d d' : db) (r : response) :
  create_post now u body d = (r, d') →
  posts d' = posts d ∨
  ∃ p, posts d' = (posts d ++ [p])%list ∧
       p_approved p = tinyint (flag (prop body "approved")).
Proof.
  unfold create_post. intros H.
  apply route_state in H as [r0 H0].
  destruct (negb (user_isAdmin u) && _); [injection H0 as _ <-; by left|].
  apply bind_inv in H0 as [(finalSection & d1 & H1 & H)|(e & H1 & _)].
  2:{ left. pose proof (getSectionId_state (prop body "section") d) as Hs.
      rewrite H1 in Hs. simpl in Hs. by subst. }
  pose proof (getSectionId_state (prop body "section") d) as Hs.
  rewrite H1 in Hs. simpl in Hs. subst d1. clear H1.
  destruct (match finalSection with JNull | JUndefined => _ | _ => _ end)
    as [sectionIdForInsert|]; [|injection H as _ <-; by left].
  apply bind_inv in H as [(postId & d1 & H1 & H)|(e & H1 & _)].
  2:{ apply insert_post_stores in H1 as [H1|[id H1]]; [by left|right].
      eexists. split; [exact H1|done]. }
  assert (posts d' = posts d1) as ->.
  { apply bind_inv in H as [([] & d2 & H2 & H)|(e & H2 & _)].
    - pose proof (keeps_posts_insert_media postId 0 (items (prop body "media")) d1) as Hm.
      rewrite H2 in Hm. simpl in Hm. rewrite <- Hm.
      apply bind_inv in H as [([] & d3 & H3 & H)|(e & H3 & _)].
      + pose proof (keeps_posts_insert_tags postId (items (prop body "tags")) d2) as Ht.
        rewrite H3 in Ht. simpl in Ht. rewrite <- Ht. by injection H as _ <-.
      + pose proof (keeps_posts_insert_tags postId (items (prop body "tags")) d2) as Ht.
        rewrite H3 in Ht. done.
    - pose proof (keeps_posts_insert_media postId 0 (items (prop body "media")) d1) as Hm.
      rewrite H2 in Hm. done. }
  apply insert_post_stores in H1 as [H1|[id H1]]; [by left|right].
  eexists. split; [exact H1|done].
Qed.

(** Without an [approved] field in the body the new post starts
    unapproved. *)
Corollary create_post_default_unapproved
    (now : Z) (u : user) (body : jsval) (d d' : db) (r : response) :
  prop body "approved" = JUndefined →
  create_post now u body d = (r, d') →
  posts d' = posts d ∨ ∃ p, posts d' = (posts d ++ [p])%list ∧ p_approved p = 0.
Proof.
  intros Hb H. destruct (create_post_stores now u body d d' r H) as [H0|(p & H1 & H2)];
    [by left|right]. exists p. split; [done|]. by rewrite H2, Hb.
Qed.

Lemma map_result_keeps {A B : Type} (g : A → B) (f : A → result A) (l l' : list A) :
  (∀ x y, f x = Ok y → g y = g x) →
  map_result f l = Ok l' → g <$> l' = g <$> l.
Proof.
  intros Hf. revert l'. induction l as [|x l IH]; intros l'; simpl.
  - by intros [= <-].
  - destruct (f x) as [y|] eqn:Ey; simpl; [|discriminate].
    destruct (map_result f l) as [ys|]; simpl; [|discriminate].
    intros [= <-]. simpl. f_equal; [by apply Hf|by apply IH].
Qed.

Lemma update_where_id_keeps {B : Type} (g : post → B) (postId : Z) (f : post → result post)
    (d d' : db) (r : result unit) :
  (∀ x y, f x = Ok y → g y = g x) →
  update_where_id postId f d = (r, d') → g <$> posts d' = g <$> posts d.
Proof.
  intros Hf. unfold update_where_id, mbind, M_bind, on_table, get_db, lift, modify_db.
  destruct (unavailable d Posts); [by intros [= _ <-]|].
  destruct (map_result _ (posts d)) as [rows|e] eqn:Em; [|by intros [= _ <-]].
  intros [= _ <-]. simpl. eapply map_result_keeps; [|exact Em].
  intros x y. simpl. destruct (p_id x =? postId); [apply Hf|by intros [= <-]].
Qed.

Lemma apply_update_author (u : user) (body : jsval) (d : db) (p p' : post) :
  user_isAdmin u = false → apply_update u body d p = Ok p' →
  p_approved p' = p_approved p.
Proof.
  intros Hu. unfold apply_update. rewrite Hu, andb_false_r.
  destruct (match prop body "section" with JUndefined => _ | _ => _ end); simpl;
    [|discriminate].
  by intros [= <-].
Qed.

Lemma keeps_posts_replace_media (postId : Z) (media : list jsval) :
  keeps_posts (replace_media postId media).
Proof.
  unfold replace_media.
  apply keeps_posts_bind; [apply keeps_posts_on_table|intros _].
  apply keeps_posts_bind; [by apply keeps_posts_modify|intros _].
  generalize 0 as i. induction media as [|x rest IH]; intros i.
  - apply keeps_posts_ret.
  - apply keeps_posts_bind; [by apply keeps_posts_modify|intros _]. apply IH.
Qed.

Lemma keeps_posts_replace_tags (postId : Z) (tags : list jsval) :
  keeps_posts (replace_tags postId tags).
Proof.
  unfold replace_tags.
  apply keeps_posts_bind; [apply keeps_posts_on_table|intros _].
  apply keeps_posts_bind; [by apply keeps_posts_modify|intros _].
  apply keeps_posts_insert_tags.
Qed.

Lemma keeps_posts_state {A : Type} (m : M A) (d d' : db) (r : result A) :
  keeps_posts m → m d = (r, d') → posts d' = posts d.
Proof. intros Hm H. specialize (Hm d). by rewrite H in Hm. Qed.

(** PUT /:id by a requester who is not an admin leaves every approval
    flag as it was: the author of a post cannot approve it by editing it. *)
Lemma author_update_keeps_approval
    (u : user) (id : string) (body : jsval) (d d' : db) (r : response) :
  user_isAdmin u = false →
  update_post u id body d = (r, d') →
  p_approved <$> posts d' = p_approved <$> posts d.
Proof.
  intros Hu H. unfold update_post in H. apply route_state in H as [r0 H].
  destruct (parseInt_string id) as [postId|]; [|by injection H as _ <-].
  destruct (postId <=? 0); [by injection H as _ <-|].
  apply bind_inv in H as [(rows & d1 & H1 & H)|(e & H1 & _)].
  2:{ unfold select, mbind, M_bind, on_table, get_db, mret, M_ret in H1.
      destruct (unavailable d Posts); by injection H1 as _ <-. }
  assert (d1 = d) as ->.
  { unfold select, mbind, M_bind, on_table, get_db, mret, M_ret in H1.
    destruct (unavailable d Posts); by injection H1. }
  destruct rows as [|post rest]; [by injection H as _ <-|].
  destruct (negb (user_isAdmin u) && _); [by injection H as _ <-|].
  clear H1.
  apply bind_inv in H as [(d0 & d1 & [= <- <-] & H)|(e & [=] & _)].
  assert (keeps_posts
            (match prop body "media" with
             | JUndefined => mret ()
             | JNull => replace_media postId [] ;; throw "TypeError"
             | media => replace_media postId (items media)
             end)) as Hmedia.
  { destruct (prop body "media"); try apply keeps_posts_replace_media;
      [apply keeps_posts_ret|].
    apply keeps_posts_bind; [apply keeps_posts_replace_media|intros _].
    apply keeps_posts_throw. }
  assert (keeps_posts
            (match prop body "tags" with
             | JUndefined => mret ()
             | JNull => replace_tags postId [] ;; throw "TypeError"
             | tags => replace_tags postId (items tags)
             end)) as Htags.
  { destruct (prop body "tags"); try apply keeps_posts_replace_tags;
      [apply keeps_posts_ret|].
    apply keeps_posts_bind; [apply keeps_posts_replace_tags|intros _].
    apply keeps_posts_throw. }
  apply bind_inv in H as [([] & d1 & H1 & H)|(e & H1 & _)].
  2:{ eapply update_where_id_keeps; [|exact H1].
      intros x y. by apply apply_update_author. }
  apply (update_where_id_keeps p_approved) in H1;
    [|intros x y; by apply apply_update_author].
  rewrite <- H1. f_equal.
  apply bind_inv in H as [([] & d2 & H2 & H)|(e & H2 & _)].
  2:{ by apply (keeps_posts_state _ _ _ _ Hmedia) in H2. }
  apply (keeps_posts_state _ _ _ _ Hmedia) in H2. rewrite <- H2.
  apply bind_inv in H as [([] & d3 & H3 & H)|(e & H3 & _)].
  2:{ by apply (keeps_posts_state _ _ _ _ Htags) in H3. }
  apply (keeps_posts_state _ _ _ _ Htags) in H3. rewrite <- H3.
  by injection H as _ <-.
Qed.

Example admin_approves_draft :
  let '(r, d') := approve_post "2" (obj [("approved", JBool true)]) posts_db in
  status r = 200 ∧ p_approved <$> posts d' = [1; 1].
Proof. vm_compute. repeat split. Qed.

Example author_edit_cannot_approve :
  let '(r, d') :=
    update_post bob_user "2" (obj [("place", JStr "Jomsom"); ("approved", JBool true)])
                posts_db in
  status r = 200 ∧ p_approved <$> posts d' = [1; 0] ∧
  p_place <$> posts d' = [JStr "Pashupatinath"; JStr "Jomsom"].
Proof. vm_compute. repeat split. Qed.

End PostsApproval.

Module PostsExamples.
Import Posts PostsReading PostsWriting PostsApproval Sample.

Definition sample_parseFloat (v : jsval) : jsval := v.

(** [column = ?] for an INT column and the decimal spelling of a number. *)
Definition sample_int_eq (col : option Z) (s : string) : bool :=
  match col with
  | Some n => bool_decide (parseInt_string s = Some n)
  | None => false
  end.

Definition no_params : list_params :=
  {| approved := None; section := None; author := None; limit := None; offset := None |}.

Example traveler_sees_approved_only :
  let r := (get_posts sample_toISOString sample_parseFloat sample_int_eq
                      (Some alice_user) no_params posts_db).1 in
  status r = 200 ∧
  body r = JArr [format_listed sample_toISOString sample_parseFloat posts_db temple_post].
Proof. vm_compute. repeat split. Qed.

Example admin_sees_all :
  let r := (get_posts sample_toISOString sample_parseFloat sample_int_eq
                      (Some admin_user) no_params posts_db).1 in
  status r = 200 ∧
  body r = JArr [format_listed sample_toISOString sample_parseFloat posts_db draft_post;
                 format_listed sample_toISOString sample_parseFloat posts_db temple_post].
Proof. vm_compute. repeat split. Qed.

Example author_cannot_open_own_draft :
  (get_post sample_toISOString sample_parseFloat sample_int_eq
            (Some bob_user) "2" posts_db).1 =
  status_json 403 (error "Post not available").
Proof. reflexivity. Qed.


End PostsExamples.

(** ** routes/checkIns.js *)

Module CheckIns.
Import Travelers.

(** [SELECT ... FROM check_ins WHERE vehicle_id = ? AND traveler_email = ?
    AND active = 1]. *)
Definition active_for (vehicleId : Z) (email : string) (c : check_in) : bool :=
  (ci_vehicle_id c =? vehicleId) && (ci_traveler_email c =? email)%string
  && (ci_active c =? 1).

(** What the server stores in the INT column [traveler_id] for a
    parameter: NULL, or an integer given as a number or in its decimal
    spelling. *)
Definition to_int_column (v : jsval) : result (option Z) :=
  match v with
  | JNull | JUndefined => Ok None
  | JBool b => Ok (Some (if b then 1 else 0))
  | JNum n => Ok (Some n)
  | JStr s =>
      match parseInt_string s with
      | Some n => if (string_of_Z n =? s)%string then Ok (Some n)
                  else Throw "ER_TRUNCATED_WRONG_VALUE_FOR_FIELD"
      | None => Throw "ER_TRUNCATED_WRONG_VALUE_FOR_FIELD"
      end
  | _ => Throw "ER_TRUNCATED_WRONG_VALUE_FOR_FIELD"
  end.

Definition traveler_ids (d : db) : list Z :=
  omap (fun t => match field t "id" with JNum i => Some i | _ => None end) (travelers d).

(** INSERT INTO check_ins (vehicle_id, traveler_email, traveler_id, active)
    VALUES (?, ?, ?, 1): [vehicle_id] references [vehicles] and
    [traveler_id] references [travelers], where those tables exist. *)
Definition insert_check_in (now : Z) (vehicleId : Z) (email : string) (travelerId : jsval)
  : M Z :=
  on_table CheckIns ;;
  d ← get_db ;
  tid ← lift (to_int_column travelerId) ;
  (if unavailable d Vehicles || bool_decide (vehicleId ∈ map v_id (vehicles d))
   then mret () else throw "ER_NO_REFERENCED_ROW_2") ;;
  (match tid with
   | Some i => if unavailable d Travelers || bool_decide (i ∈ traveler_ids d)
               then mret () else throw "ER_NO_REFERENCED_ROW_2"
   | None => mret ()
   end) ;;
  id ← fresh_id CheckIns ;
  modify_db (fun d =>
    set_check_ins
      (check_ins d ++
       [{| ci_id := id; ci_vehicle_id := vehicleId; ci_traveler_email := email;
           ci_traveler_id := tid; ci_active := 1;
           ci_checked_in_at := now; ci_checked_out_at := None |}])%list d) ;;
  mret id.

(** [req.body] of POST /: [travelerEmail] is absent or a string. *)
Record check_in_body : Type := {
  vehicleId : jsval;
  travelerEmail : option string;
  travelerId : jsval
}.

(** The body of POST /, before its catch. *)
Definition create_check_in_body (now : Z) (u : user) (b : check_in_body) : M response :=
  if negb (truthy (vehicleId b)) || missing (travelerEmail b)
  then mret (status_json 400 (error "Vehicle ID and traveler email required"))
  else
    let email := default "" (travelerEmail b) in
    let parsedVehicleId := parseInt (vehicleId b) in
    if negb (isFinite parsedVehicleId) || (default 0 parsedVehicleId <=? 0)
    then mret (status_json 400 (error "Invalid vehicle ID"))
    else
      let v := default 0 parsedVehicleId in
      if negb (user_isAdmin u) && negb (user_email u =? email)%string
      then mret (status_json 403 (denied "You can only check in yourself"))
      else
        existing ← select CheckIns check_ins (active_for v email) ;
        match existing with
        | _ :: _ => mret (status_json 400 (error "Already checked in"))
        | [] =>
            finalTravelerId ←
              (if truthy (travelerId b) then mret (travelerId b)
               else
                 rows ← select_by_email email ;
                 mret (match rows with
                       | traveler :: _ => field traveler "id"
                       | [] => JNull
                       end)) ;
            id ← insert_check_in now v email finalTravelerId ;
            mret (status_json 201 (obj [
              ("id", JNum id);
              ("message", JStr "Checked in successfully")]))
        end.

(** POST /, behind [authenticateToken]. *)
Definition create_check_in (now : Z) (u : user) (b : check_in_body) : db → response * db :=
  route (create_check_in_body now u b)
        (fun _ => status_json 500 (error "Failed to create check-in")).

(** [UPDATE check_ins SET active = 0, checked_out_at = NOW() WHERE ...]. *)
Definition check_out (now : Z) (c : check_in) : check_in :=
  {| ci_id := ci_id c; ci_vehicle_id := ci_vehicle_id c;
     ci_traveler_email := ci_traveler_email c; ci_traveler_id := ci_traveler_id c;
     ci_active := 0; ci_checked_in_at := ci_checked_in_at c;
     ci_checked_out_at := Some now |}.

Section Routes.

(** The server's comparison [id = ?] of the INT key with the string
    [req.params.id]. *)
Variable int_eq_param : Z → string → bool.

(** POST /:id/checkout, behind [authenticateToken]. *)
Definition checkout (now : Z) (u : user) (id : string) : db → response * db :=
  route
    (rows ← select CheckIns check_ins (fun c => int_eq_param (ci_id c) id) ;
     match rows with
     | [] => mret (status_json 404 (error "Check-in not found"))
     | checkIn :: _ =>
         if negb (user_isAdmin u) && negb (ci_traveler_email checkIn =? user_email u)%string
         then mret (status_json 403 (denied "You can only check out yourself"))
         else
           on_table CheckIns ;;
           modify_db (fun d =>
             set_check_ins
               ((fun c => if int_eq_param (ci_id c) id then check_out now c else c)
                  <$> check_ins d) d) ;;
           mret (json (obj [("message", JStr "Checked out successfully")]))
     end)
    (fun _ => status_json 500 (error "Failed to check out")).

(** DELETE /vehicle/:vehicleId, behind [authenticateToken] and
    [requireAdmin]. *)
Definition clear_vehicle (now : Z) (vehicleId : string) : db → response * db :=
  route
    (on_table CheckIns ;;
     modify_db (fun d =>
       set_check_ins
         ((fun c => if int_eq_param (ci_vehicle_id c) vehicleId && (ci_active c =? 1)
                    then check_out now c else c) <$> check_ins d) d) ;;
     mret (json (obj [("message", JStr "All check-ins cleared for vehicle")])))
    (fun _ => status_json 500 (error "Failed to clear check-ins")).

End Routes.

Section Status.

(** The platform's [new Date(string)] ([None] for an Invalid Date) and
    [toISOString]. *)
Variable Date_parse : string → option Z.
Variable toISOString : Z → string.

(** [normalizeDate] of this module: no value means today. *)
Definition normalizeDate (now : Z) (value : option string) : option string :=
  let parsed := if missing value then Some now else Date_parse (default "" value) in
  match parsed with
  | None => None
  | Some ms => Some (before_char "T" (toISOString ms))
  end.

(** The safe default of GET /my-status. *)
Definition safe_default : jsval :=
  obj [("vehicleId", JNull); ("active", JBool false);
       ("checkedIn", JArr []); ("isCheckedIn", JBool false)].

(** The day-wise allotment query of GET /my-status. *)
Definition allotment_for (travelerId : jsval) (day : string) (a : allotment) : bool :=
  strict_eq (JNum (va_traveler_id a)) travelerId && (va_date a =? day)%string.

(** The body of GET /my-status, before its catch.  The three further
    SELECTs on [check_ins] that follow the first only feed the log: they
    read the table the first one has just read. *)
Definition my_status_body (now : Z) (u : user) (date : option string) : M response :=
  let userEmail := user_email u in
  let targetDate := normalizeDate now date in
  rows ← select_by_email userEmail ;
  let traveler := head rows in
  dayVehicle ←
    match traveler, targetDate with
    | Some t, Some day =>
        if truthy (field t "id") && negb (day =? "")%string then
          allotments ← select VehicleAllotments vehicle_allotments
                              (allotment_for (field t "id") day) ;
          mret (match allotments with
                | dayAllotment :: _ =>
                    if negb (va_vehicle_id dayAllotment =? 0)
                    then JNum (va_vehicle_id dayAllotment) else JNull
                | [] => JNull
                end)
        else mret JNull
    | _, _ => mret JNull
    end ;
  let vehicleId :=
    if negb (truthy dayVehicle) && truthy (from_option (fun t => field t "vehicle_id") JNull traveler)
    then from_option (fun t => field t "vehicle_id") JNull traveler
    else dayVehicle in
  if negb (truthy vehicleId) then mret (json safe_default)
  else
    checkIn ← select CheckIns check_ins
                (fun c => strict_eq (JNum (ci_vehicle_id c)) vehicleId
                          && (ci_traveler_email c =? userEmail)%string
                          && (ci_active c =? 1)) ;
    mret (json (obj [
      ("vehicleId", vehicleId);
      ("active", JBool true);
      ("checkedIn", if bool_decide (checkIn = []) then JArr [] else JArr [JStr userEmail]);
      ("isCheckedIn", JBool (negb (bool_decide (checkIn = []))))])).

(** GET /my-status, behind [authenticateToken]: the catch answers with
    [res.json], not with an error status. *)
Definition my_status (now : Z) (u : user) (date : option string) : db → response * db :=
  route (my_status_body now u date) (fun _ => json safe_default).

End Status.
End CheckIns.

(** *** One active check-in per vehicle and traveler *)

Module CheckInsFacts.
Import Travelers CheckIns.

(** The row that a successful POST / appends. *)
Definition new_check_in (now id v : Z) (e : string) (tid : option Z) : check_in :=
  {| ci_id := id; ci_vehicle_id := v; ci_traveler_email := e;
     ci_traveler_id := tid; ci_active := 1;
     ci_checked_in_at := now; ci_checked_out_at := None |}.

(** At most one active check-in for every vehicle and traveler email. *)
Definition unique_active (d : db) : Prop :=
  ∀ (v : Z) (e : string),
    (length (filter (fun c => active_for v e c = true) (check_ins d)) ≤ 1)%nat.

Lemma select_run {A : Type} (t : table) (rows : db → list A) (w : A → bool)
    (d d' : db) (r : result (list A)) :
  select t rows w d = (r, d') →
  d' = d ∧ (r = Ok (filter (fun x => w x = true) (rows d)) ∧ unavailable d t = false
            ∨ (∃ e, r = Throw e) ∧ unavailable d t = true).
Proof.
  unfold select, mbind, M_bind, on_table, get_db, mret, M_ret.
  destruct (unavailable d t); intros [= <- <-]; split; eauto.
Qed.

Lemma insert_check_in_run (now v : Z) (e : string) (travelerId : jsval)
    (d d' : db) (r : result Z) :
  insert_check_in now v e travelerId d = (r, d') →
  (d' = d ∧ ∃ err, r = Throw err) ∨
  (∃ tid, r = Ok (next_id d CheckIns) ∧
          d' = set_check_ins
                 (check_ins d ++ [new_check_in now (next_id d CheckIns) v e tid])%list
                 (set_next_id CheckIns (next_id d CheckIns + 1) d)).
Proof.
  unfold insert_check_in. intros H.
  apply bind_inv in H as [(u0 & d1 & H1 & H)|(err & H1 & ->)]; unfold on_table in H1.
  2:{ destruct (unavailable d CheckIns); [|discriminate]. injection H1 as _ <-.
      left. eauto. }
  destruct (unavailable d CheckIns); [discriminate|]. injection H1 as _ <-.
  apply bind_inv in H as [(d0 & d2 & [= <- <-] & H)|(err & [=] & _)].
  apply bind_inv in H as [(tid & d2 & H2 & H)|(err & [= _ <-] & ->)]; [|left; eauto].
  injection H2 as _ <-.
  apply bind_inv in H as [(u1 & d2 & H2 & H)|(err & H2 & ->)].
  2:{ destruct (_ || _); [discriminate|]. injection H2 as _ <-. left. eauto. }
  destruct (_ || _); [|discriminate]. injection H2 as _ <-.
  apply bind_inv in H as [(u2 & d2 & H2 & H)|(err & H2 & ->)].
  2:{ destruct tid; [|discriminate].
      destruct (_ || _); [discriminate|]. injection H2 as _ <-. left. eauto. }
  assert (d2 = d) as ->.
  { destruct tid; [|by injection H2]. destruct (_ || _); [by injection H2|discriminate]. }
  unfold fresh_id, mbind, M_bind, get_db, modify_db, mret, M_ret in H.
  injection H as <- <-. right. by exists tid.
Qed.

(** Every run of POST /: the database is left alone and the answer is not
    201, or the request was well formed and allowed, the pair had no
    active check-in, and exactly one active row for it was appended. *)
Lemma create_check_in_run (now : Z) (u : user) (b : check_in_body)
    (d d' : db) (r : response) :
  create_check_in now u b d = (r, d') →
  (d' = d ∧ status r ≠ 201) ∨
  (∃ (v : Z) (e : string) (tid : option Z),
     parseInt (vehicleId b) = Some v ∧ 0 < v ∧ travelerEmail b = Some e ∧
     (user_isAdmin u = true ∨ user_email u = e) ∧
     filter (fun c => active_for v e c = true) (check_ins d) = [] ∧
     r = status_json 201 (obj [("id", JNum (next_id d CheckIns));
                               ("message", JStr "Checked in successfully")]) ∧
     d' = set_check_ins
            (check_ins d ++ [new_check_in now (next_id d CheckIns) v e tid])%list
            (set_next_id CheckIns (next_id d CheckIns + 1) d)).
Proof.
  unfold create_check_in. intros H.
  apply route_inv in H.
  assert (∀ x : result response,
            create_check_in_body now u b d = (x, d') →
            (d' = d ∧ ∀ r0, x = Ok r0 → status r0 ≠ 201) ∨
            (∃ v e tid,
               parseInt (vehicleId b) = Some v ∧ 0 < v ∧ travelerEmail b = Some e ∧
               (user_isAdmin u = true ∨ user_email u = e) ∧
               filter (fun c => active_for v e c = true) (check_ins d) = [] ∧
               x = Ok (status_json 201 (obj [("id", JNum (next_id d CheckIns));
                                             ("message", JStr "Checked in successfully")])) ∧
               d' = set_check_ins
                      (check_ins d ++ [new_check_in now (next_id d CheckIns) v e tid])%list
                      (set_next_id CheckIns (next_id d CheckIns + 1) d))) as Hbody.
  { clear H. intros x H. unfold create_check_in_body in H.
    destruct (negb (truthy (vehicleId b)) || missing (travelerEmail b)) eqn:Hreq.
    { injection H as <- <-. left. split; [done|]. by intros r0 [= <-]. }
    apply orb_false_iff in Hreq as [_ Hmail].
    destruct (travelerEmail b) as [e|] eqn:Ee; [|discriminate]. simpl in H.
    destruct (parseInt (vehicleId b)) as [v|] eqn:Ev; simpl in H.
    2:{ injection H as <- <-. left. split; [done|]. by intros r0 [= <-]. }
    destruct (v <=? 0) eqn:Hv; simpl in H.
    { injection H as <- <-. left. split; [done|]. by intros r0 [= <-]. }
    apply Z.leb_gt in Hv.
    destruct (negb (user_isAdmin u) && negb (user_email u =? e)%string) eqn:Hauth.
    { injection H as <- <-. left. split; [done|]. by intros r0 [= <-]. }
    assert (user_isAdmin u = true ∨ user_email u = e) as Hallowed.
    { apply andb_false_iff in Hauth as [Ha|Ha]; apply negb_false_iff in Ha;
        [by left|right; by apply String.eqb_eq]. }
    apply bind_inv in H as [(existing & d1 & H1 & H)|(err & H1 & ->)].
    2:{ apply select_run in H1 as [-> _]. left. split; [done|]. by intros r0 [=]. }
    apply select_run in H1 as [-> [[[= ->] _]|[[err [=]] _]]].
    destruct (filter _ (check_ins d)) as [|c rest] eqn:Ef.
    2:{ injection H as <- <-. left. split; [done|]. by intros r0 [= <-]. }
    apply bind_inv in H as [(finalTravelerId & d1 & H1 & H)|(err & H1 & ->)].
    2:{ left. split; [|by intros r0 [=]].
        destruct (truthy (travelerId b)); [discriminate|].
        apply bind_inv in H1 as [(rows & d2 & H2 & H1)|(err' & H2 & _)].
        - discriminate.
        - by apply select_run in H2 as [-> _]. }
    assert (d1 = d) as ->.
    { destruct (truthy (travelerId b)); [by injection H1|].
      apply bind_inv in H1 as [(rows & d2 & H2 & H1)|(err' & H2 & _)].
      - apply select_run in H2 as [-> _]. by injection H1.
      - by apply select_run in H2 as [-> _]. }
    apply bind_inv in H as [(id & d1 & H2 & H)|(err & H2 & ->)].
    2:{ apply insert_check_in_run in H2 as [[-> _]|(tid & [=] & _)].
        left. split; [done|]. by intros r0 [=]. }
    apply insert_check_in_run in H2 as [[_ [err [=]]]|(tid & [= ->] & ->)].
    injection H as <- <-. right. exists v, e, tid. done. }
  destruct H as [H|(err & H & ->)].
  - apply Hbody in H as [[-> Hs]|(v & e & tid & ? & ? & ? & ? & ? & [= ->] & ->)].
    + left. split; [done|]. by apply Hs.
    + right. exists v, e, tid. done.
  - apply Hbody in H as [[-> _]|(v & e & tid & ? & ? & ? & ? & ? & [=] & _)].
    left. split; [done|]. simpl. lia.
Qed.


Lemma active_for_inv (v v' : Z) (e e' : string) (now id : Z) (tid : option Z) :
  active_for v' e' (new_check_in now id v e tid) = true → v' = v ∧ e' = e.
Proof.
  unfold active_for. simpl. rewrite !andb_true_iff, Z.eqb_eq, String.eqb_eq.
  intros [[-> ->] _]. done.
Qed.

Lemma length_filter_fmap_le {A : Type} (P : A → bool) (f : A → A) (l : list A) :
  (∀ x, P (f x) = true → P x = true) →
  (length (filter (fun x => P x = true) (f <$> l)) ≤
   length (filter (fun x => P x = true) l))%nat.
Proof.
  intros Hf. induction l as [|x l IH]; [done|].
  rewrite fmap_cons, !filter_cons.
  destruct (decide (P (f x) = true)) as [E|E].
  - rewrite (decide_True (P := P x = true)) by by apply Hf.
    rewrite !length_cons. by apply le_n_S.
  - destruct (decide (P x = true)); [rewrite length_cons; by apply Nat.le_le_succ_r|done].
Qed.

Lemma active_for_check_out (v : Z) (e : string) (now : Z) (c : check_in) :
  active_for v e (check_out now c) = false.
Proof. unfold active_for. simpl. by rewrite andb_false_r. Qed.

Lemma unique_active_create (now : Z) (u : user) (b : check_in_body) (d : db) :
  unique_active d → unique_active (create_check_in now u b d).2.
Proof.
  intros Hd. destruct (create_check_in now u b d) as [r d'] eqn:E.
  apply create_check_in_run in E as [[-> _]|(v & e & tid & _ & _ & _ & _ & Hnone & _ & ->)];
    [done|].
  intros v' e'. simpl. rewrite filter_app, length_app.
  destruct (active_for v' e' (new_check_in now (next_id d CheckIns) v e tid)) eqn:Ea.
  - apply active_for_inv in Ea as [-> ->]. rewrite Hnone. simpl.
    rewrite filter_cons. case_decide; simpl; lia.
  - rewrite filter_cons, decide_False by by rewrite Ea.
    rewrite filter_nil. simpl. specialize (Hd v' e'). lia.
Qed.

Section Facts.

Variable int_eq_param : Z → string → bool.

Lemma checkout_run (now : Z) (u : user) (id : string) (d d' : db) (r : response) :
  checkout int_eq_param now u id d = (r, d') →
  d' = d ∨
  d' = set_check_ins
         ((fun c => if int_eq_param (ci_id c) id then check_out now c else c)
            <$> check_ins d) d.
Proof.
  unfold checkout. intros H. apply route_state in H as [x H].
  apply bind_inv in H as [(rows & d1 & H1 & H)|(err & H1 & _)].
  2:{ apply select_run in H1 as [-> _]. by left. }
  apply select_run in H1 as [-> _].
  destruct rows as [|c rest]; [injection H as _ <-; by left|].
  destruct (negb (user_isAdmin u) && _); [injection H as _ <-; by left|].
  unfold mbind, M_bind, on_table, modify_db, mret, M_ret in H.
  destruct (unavailable d CheckIns); injection H as _ <-; [by left|by right].
Qed.

Lemma unique_active_checkout (now : Z) (u : user) (id : string) (d : db) :
  unique_active d → unique_active (checkout int_eq_param now u id d).2.
Proof.
  intros Hd. destruct (checkout int_eq_param now u id d) as [r d'] eqn:E.
  apply checkout_run in E as [->| ->]; [done|].
  intros v e. simpl. etrans; [|apply (Hd v e)].
  apply (length_filter_fmap_le (active_for v e)).
  intros c. destruct (int_eq_param (ci_id c) id); [|done].
  by rewrite active_for_check_out.
Qed.

Lemma unique_active_clear (now : Z) (vehicleId : string) (d : db) :
  unique_active d → unique_active (clear_vehicle int_eq_param now vehicleId d).2.
Proof.
  intros Hd. unfold clear_vehicle, route, mbind, M_bind, on_table, modify_db, mret, M_ret.
  destruct (unavailable d CheckIns); simpl; [done|].
  intros v e. simpl. etrans; [|apply (Hd v e)].
  apply (length_filter_fmap_le (active_for v e)).
  intros c. destruct (_ && _); [|done]. by rewrite active_for_check_out.
Qed.

Lemma filter_nil_iff {A : Type} (P : A → bool) (l : list A) :
  filter (fun x => P x = true) l = [] ↔ ∀ x, x ∈ l → P x = false.
Proof.
  split.
  - intros Hf x Hx. destruct (P x) eqn:E; [|done].
    assert (x ∈ filter (fun x => P x = true) l) as Hin by by apply list_elem_of_filter.
    rewrite Hf in Hin. by apply elem_of_nil in Hin.
  - intros Hall. induction l as [|x l IH]; [done|].
    rewrite filter_cons, decide_False.
    + apply IH. intros y Hy. apply Hall. by apply elem_of_cons; right.
    + rewrite (Hall x) by (apply elem_of_cons; by left). done.
Qed.

Lemma create_already_checked_in (now : Z) (u : user) (b : check_in_body) (d : db)
    (v : Z) (e : string) :
  truthy (vehicleId b) = true → parseInt (vehicleId b) = Some v → 0 < v →
  travelerEmail b = Some e → e ≠ "" →
  (user_isAdmin u = true ∨ user_email u = e) →
  unavailable d CheckIns = false →
  (∃ c, c ∈ check_ins d ∧ active_for v e c = true) →
  create_check_in now u b d = (status_json 400 (error "Already checked in"), d).
Proof.
  intros Hv Hp Hpos He Hne Hallowed Hav (c & Hc & Hact).
  unfold create_check_in, route, create_check_in_body.
  rewrite Hv, He, Hp. simpl.
  apply String.eqb_neq in Hne. rewrite Hne. simpl.
  assert ((v <=? 0) = false) as -> by lia.
  assert (negb (user_isAdmin u) && negb (user_email u =? e)%string = false) as ->.
  { destruct Hallowed as [-> | ->]; [done|]. rewrite String.eqb_refl. apply andb_false_r. }
  unfold mbind, M_bind, select, mbind, M_bind, on_table, get_db, mret, M_ret.
  rewrite Hav.
  destruct (filter _ (check_ins d)) as [|c0 rest] eqn:Ef; [|done].
  rewrite filter_nil_iff in Ef. by rewrite (Ef c Hc) in Hact.
Qed.

Lemma traveler_id_known (d : db) (t : row) (i : Z) :
  t ∈ travelers d → field t "id" = JNum i → i ∈ traveler_ids d.
Proof.
  intros Ht Hi. unfold traveler_ids. apply list_elem_of_omap.
  exists t. split; [done|]. by rewrite Hi.
Qed.

(** POST / succeeds for a well-formed, allowed request on a pair with no
    active check-in, when the vehicle exists and the traveler is looked up
    by email. *)
Lemma create_succeeds (now : Z) (u : user) (b : check_in_body) (d : db)
    (v : Z) (e : string) :
  truthy (vehicleId b) = true → parseInt (vehicleId b) = Some v → 0 < v →
  travelerEmail b = Some e → e ≠ "" →
  (user_isAdmin u = true ∨ user_email u = e) →
  unavailable d CheckIns = false → unavailable d Travelers = false →
  (∀ c, c ∈ check_ins d → active_for v e c = false) →
  v ∈ map v_id (vehicles d) →
  truthy (travelerId b) = false →
  (∀ t, t ∈ travelers d → ∃ i, field t "id" = JNum i) →
  status (create_check_in now u b d).1 = 201.
Proof.
  intros Hv Hp Hpos He Hne Hallowed Hav Hav' Hnone Hveh Htid Hkeys.
  unfold create_check_in, route, create_check_in_body.
  rewrite Hv, He, Hp, Htid. simpl.
  apply String.eqb_neq in Hne. rewrite Hne. simpl.
  assert ((v <=? 0) = false) as -> by lia.
  assert (negb (user_isAdmin u) && negb (user_email u =? e)%string = false) as ->.
  { destruct Hallowed as [-> | ->]; [done|]. rewrite String.eqb_refl. apply andb_false_r. }
  apply filter_nil_iff in Hnone.
  unfold select_by_email, insert_check_in, fresh_id, select, mbind, M_bind, on_table,
    get_db, modify_db, mret, M_ret, lift.
  rewrite Hav, Hnone, Hav'. simpl.
  assert (∃ tid, to_int_column
                   match filter (fun x => strict_eq (field x "email") (JStr e) = true)
                           (travelers d) with
                   | [] => JNull
                   | traveler :: _ => field traveler "id"
                   end = Ok tid ∧
                 match tid with
                 | Some i => i ∈ traveler_ids d
                 | None => True
                 end) as (tid & -> & Hfk).
  { destruct (filter _ (travelers d)) as [|t rest] eqn:Ef; [by exists None|].
    assert (t ∈ travelers d) as Ht.
    { assert (t ∈ filter (fun x => strict_eq (field x "email") (JStr e) = true)
                         (travelers d)) as Hin by (rewrite Ef; apply elem_of_cons; by left).
      by apply list_elem_of_filter in Hin as [_ ?]. }
    destruct (Hkeys t Ht) as [i Hi]. rewrite Hi. exists (Some i).
    split; [done|]. by apply (traveler_id_known d t i). }
  rewrite Hav. simpl.
  rewrite (bool_decide_eq_true_2 _ Hveh), orb_true_r. simpl.
  destruct tid as [i|]; simpl; [|done].
  by rewrite (bool_decide_eq_true_2 _ Hfk), orb_true_r.
Qed.

Lemma checkout_sets_inactive (now : Z) (u : user) (id : string) (d : db) (c : check_in) :
  unavailable d CheckIns = false →
  List.find (fun c => int_eq_param (ci_id c) id) (check_ins d) = Some c →
  (user_isAdmin u = true ∨ ci_traveler_email c = user_email u) →
  checkout int_eq_param now u id d =
  (json (obj [("message", JStr "Checked out successfully")]),
   set_check_ins
     ((fun c' => if int_eq_param (ci_id c') id then check_out now c' else c')
        <$> check_ins d) d).
Proof.
  intros Hav Hfind Hallowed.
  unfold checkout, route, select, mbind, M_bind, on_table, get_db, modify_db, mret, M_ret.
  rewrite Hav.
  pose proof (TravelersLogin.filter_head_find
                (fun c => int_eq_param (ci_id c) id) (check_ins d)) as Hh.
  rewrite Hfind in Hh.
  destruct (filter _ (check_ins d)) as [|c0 rest]; [discriminate|]. injection Hh as ->.
  assert (negb (user_isAdmin u) && negb (ci_traveler_email c =? user_email u)%string
          = false) as ->.
  { destruct Hallowed as [-> | ->]; [done|]. rewrite String.eqb_refl. apply andb_false_r. }
  by rewrite Hav.
Qed.


End Facts.
End CheckInsFacts.

Module CheckInsExamples.
Import Travelers CheckIns CheckInsFacts Sample.

Definition sample_id_eq (n : Z) (s : string) : bool :=
  bool_decide (parseInt_string s = Some n).

Definition alice_on_bus : check_in :=
  {| ci_id := 1; ci_vehicle_id := 1; ci_traveler_email := "alice@example.com";
     ci_traveler_id := Some 1; ci_active := 1;
     ci_checked_in_at := 1000; ci_checked_out_at := None |}.

Definition checkin_db : db :=
  set_next_id CheckIns 2 (set_check_ins [alice_on_bus] sample_db).

Definition for_alice : check_in_body :=
  {| vehicleId := JNum 1; travelerEmail := Some "alice@example.com";
     travelerId := JUndefined |}.

Definition for_bob : check_in_body :=
  {| vehicleId := JStr "1"; travelerEmail := Some "bob@example.com";
     travelerId := JUndefined |}.


Example bob_checks_in :
  let '(r, d') := create_check_in 9000 bob_user for_bob checkin_db in
  status r = 201 ∧
  check_ins d' = [alice_on_bus; new_check_in 9000 2 1 "bob@example.com" (Some 2)].
Proof. vm_compute. repeat split. Qed.

Example alice_checks_out :
  let '(r, d') := checkout sample_id_eq 9500 alice_user "1" checkin_db in
  status r = 200 ∧ check_ins d' = [check_out 9500 alice_on_bus].
Proof. vm_compute. repeat split. Qed.

Lemma unique_active_checkin_db : unique_active checkin_db.
Proof.
  intros v e. simpl. rewrite filter_cons. case_decide; simpl; lia.
Qed.


End CheckInsExamples.

(** *** GET /api/check-ins/my-status *)

Module MyStatusFacts.
Import Travelers TravelersLogin CheckIns.

Section Facts.

Variable Date_parse : string → option Z.
Variable toISOString : Z → string.

Abbreviation my_status := (my_status Date_parse toISOString).
Abbreviation my_status_body := (my_status_body Date_parse toISOString).
Abbreviation normalizeDate := (normalizeDate Date_parse toISOString).

Lemma my_status_body_state (now : Z) (u : user) (date : option string) (d : db) :
  (my_status_body now u date d).2 = d.
Proof.
  destruct (my_status_body now u date d) as [x d'] eqn:E. simpl.
  unfold CheckIns.my_status_body in E.
  apply bind_inv in E as [(rows & d1 & H1 & H)|(err & H1 & _)];
    apply CheckInsFacts.select_run in H1 as [-> _]; [|done].
  apply bind_inv in H as [(dayVehicle & d1 & H1 & H)|(err & H1 & _)].
  - assert (d1 = d) as ->.
    { destruct (head rows) as [t|]; [|by injection H1].
      destruct (normalizeDate now date) as [day|]; [|by injection H1].
      destruct (truthy (field t "id") && _); [|by injection H1].
      apply bind_inv in H1 as [(al & d2 & H2 & H1)|(err & H2 & _)];
        apply CheckInsFacts.select_run in H2 as [-> _]; [by injection H1|done]. }
    destruct (negb (truthy _)); [by injection H|].
    apply bind_inv in H as [(c & d2 & H2 & H)|(err & H2 & _)];
      apply CheckInsFacts.select_run in H2 as [-> _]; [by injection H|done].
  - destruct (head rows) as [t|]; [|discriminate].
    destruct (normalizeDate now date) as [day|]; [|discriminate].
    destruct (truthy (field t "id") && _); [|discriminate].
    apply bind_inv in H1 as [(al & d2 & H2 & H1)|(err' & H2 & _)];
      apply CheckInsFacts.select_run in H2 as [-> _]; [discriminate|done].
Qed.

Lemma my_status_body_ok (now : Z) (u : user) (date : option string) (d d' : db)
    (r : response) :
  my_status_body now u date d = (Ok r, d') → status r = 200.
Proof.
  unfold CheckIns.my_status_body. intros H.
  apply bind_inv in H as [(rows & d1 & _ & H)|(err & _ & [=])].
  apply bind_inv in H as [(dayVehicle & d2 & _ & H)|(err & _ & [=])].
  destruct (negb (truthy _)); [by injection H as <-|].
  apply bind_inv in H as [(c & d3 & _ & H)|(err & _ & [=])].
  by injection H as <-.
Qed.

(** When [check_ins] cannot be read, no answer other than the default is
    possible. *)
Lemma my_status_body_needs_check_ins (now : Z) (u : user) (date : option string)
    (d d' : db) (r : response) :
  unavailable d CheckIns = true →
  my_status_body now u date d = (Ok r, d') → r = json safe_default.
Proof.
  intros Hav. unfold CheckIns.my_status_body. intros H.
  apply bind_inv in H as [(rows & d1 & H1 & H)|(err & _ & [=])].
  apply CheckInsFacts.select_run in H1 as [-> _].
  apply bind_inv in H as [(dayVehicle & d2 & H2 & H)|(err & _ & [=])].
  assert (d2 = d) as ->.
  { destruct (head rows) as [t|]; [|by injection H2].
    destruct (normalizeDate now date) as [day|]; [|by injection H2].
    destruct (truthy (field t "id") && _); [|by injection H2].
    apply bind_inv in H2 as [(al & d3 & H3 & H2)|(err & H3 & _)];
      apply CheckInsFacts.select_run in H3 as [-> _]; [by injection H2|done]. }
  destruct (negb (truthy _)); [by injection H as <-|].
  apply bind_inv in H as [(c & d3 & H3 & H)|(err & _ & [=])].
  apply CheckInsFacts.select_run in H3 as [_ [[_ Hc]|[[? [=]] _]]]. congruence.
Qed.

(** The WHERE clause of the day-wise allotment query, on a numeric id. *)
Definition allotted (tid : Z) (day : string) (a : allotment) : bool :=
  (va_traveler_id a =? tid) && (va_date a =? day)%string.


End Facts.
End MyStatusFacts.

Module MyStatusExamples.
Import Travelers TravelersLogin CheckIns MyStatusFacts Sample.

Definition dec14 : Z := 1765670400000.

Definition sample_Date_parse (s : string) : option Z :=
  if (s =? "2025-12-14")%string then Some dec14 else None.

Definition sample_iso (ms : Z) : string :=
  if ms =? dec14 then "2025-12-14T00:00:00.000Z" else "1970-01-01T00:00:00.000Z".

Definition jeep : vehicle :=
  {| v_id := 2; v_name := "Jeep B"; v_color := None; v_group_leader_email := None |}.

(** Alice rides the bus (vehicle 1) by default and the jeep (vehicle 2) on
    14 December, where she has checked in. *)
Definition allotted_db : db :=
  {| unavailable := fun _ => false; next_id := fun _ => 10;
     travelers := [alice; bob]; vehicles := [bus; jeep];
     vehicle_allotments :=
       [{| va_date := "2025-12-14"; va_traveler_id := 1; va_vehicle_id := 2 |}];
     check_ins :=
       [{| ci_id := 1; ci_vehicle_id := 2; ci_traveler_email := "alice@example.com";
           ci_traveler_id := Some 1; ci_active := 1;
           ci_checked_in_at := 1000; ci_checked_out_at := None |}];
     posts := []; post_sections := []; post_media := [];
     post_tags := []; settings := ∅; announcements := [] |}.

Definition without_allotments (d : db) : db :=
  {| unavailable := fun t => bool_decide (t = VehicleAllotments);
     next_id := next_id d; travelers := travelers d; vehicles := vehicles d;
     vehicle_allotments := vehicle_allotments d; check_ins := check_ins d;
     posts := posts d; post_sections := post_sections d;
     post_media := post_media d; post_tags := post_tags d;
     settings := settings d; announcements := announcements d |}.

Example allotment_wins :
  (my_status sample_Date_parse sample_iso 0 alice_user (Some "2025-12-14") allotted_db).1 =
  json (obj [("vehicleId", JNum 2); ("active", JBool true);
             ("checkedIn", JArr [JStr "alice@example.com"]);
             ("isCheckedIn", JBool true)]).
Proof. reflexivity. Qed.

Example base_vehicle_on_other_days :
  (my_status sample_Date_parse sample_iso 0 alice_user None allotted_db).1 =
  json (obj [("vehicleId", JNum 1); ("active", JBool true);
             ("checkedIn", JArr []); ("isCheckedIn", JBool false)]).
Proof. reflexivity. Qed.

Example missing_table_gives_default :
  (my_status sample_Date_parse sample_iso 0 alice_user (Some "2025-12-14")
             (without_allotments allotted_db)).1 = json safe_default.
Proof. reflexivity. Qed.


End MyStatusExamples.

(** ** routes/vehicles.js: day-wise vehicle allotments *)

Module Allotments.

(** Modelled from the spec: the CREATE TABLE of [vehicle_allotments] is not
    among the sources.  An allotment is "a day-specific traveler-to-vehicle
    ... assignment", and the routes write it with INSERT ... ON DUPLICATE KEY
    UPDATE vehicle_id = VALUES(vehicle_id): the table has a UNIQUE KEY on
    (date, traveler_id), and a row that collides on it has its vehicle
    replaced. *)
Definition same_key (a b : allotment) : bool :=
  (va_date a =? va_date b)%string && (va_traveler_id a =? va_traveler_id b).

Definition with_vehicle (v : Z) (a : allotment) : allotment :=
  {| va_date := va_date a; va_traveler_id := va_traveler_id a; va_vehicle_id := v |}.

Definition upsert (new : allotment) (l : list allotment) : list allotment :=
  if existsb (same_key new) l
  then (fun a => if same_key new a then with_vehicle (va_vehicle_id new) a else a) <$> l
  else (l ++ [new])%list.

(** INSERT INTO vehicle_allotments ... VALUES ..., ... ON DUPLICATE KEY
    UPDATE: the rows are taken one after the other. *)
Definition insert_on_duplicate_key_update (rows : list allotment) : M unit :=
  on_table VehicleAllotments ;;
  modify_db (fun d => set_vehicle_allotments (foldl (fun l a => upsert a l)
                                                    (vehicle_allotments d) rows) d).

Section Routes.

(** The platform's [new Date(value)] ([None] for an Invalid Date) and
    [toISOString]. *)
Variable Date_new : jsval → option Z.
Variable toISOString : Z → string.

(** [normalizeDate] of this module: no value is no date. *)
Definition normalizeDate (value : jsval) : option string :=
  if negb (truthy value) then None
  else match Date_new value with
       | None => None
       | Some ms => Some (before_char "T" (toISOString ms))
       end.

(** [!normalizedDate]. *)
Definition no_date (x : option string) : bool :=
  match x with
  | None => true
  | Some s => (s =? "")%string
  end.

(** POST /allotments, behind [authenticateToken] and [requireAdmin]. *)
Definition save_allotment (body : jsval) : db → response * db :=
  route
    (let normalizedDate := normalizeDate (prop body "date") in
     let traveler := parseInt (prop body "travelerId") in
     let vehicle := parseInt (prop body "vehicleId") in
     if no_date normalizedDate || negb (isFinite traveler) || negb (isFinite vehicle)
     then mret (status_json 400 (error "date, travelerId and vehicleId are required"))
     else
       insert_on_duplicate_key_update
         [{| va_date := default "" normalizedDate;
             va_traveler_id := default 0 traveler;
             va_vehicle_id := default 0 vehicle |}] ;;
       mret (status_json 201 (obj [("message", JStr "Vehicle allotment saved successfully")])))
    (fun _ => status_json 500 (error "Failed to save vehicle allotment")).

(** [a ?? b]. *)
Definition nullish (a b : jsval) : jsval :=
  match a with
  | JUndefined | JNull => b
  | _ => a
  end.

(** One step of the [forEach] of the bulk route: reading a property of
    [null] or [undefined] throws, as do the two explicit checks. *)
Definition bulk_row (date assignment : jsval) : result allotment :=
  match assignment with
  | JUndefined | JNull => Throw "TypeError"
  | _ =>
      let targetDate := normalizeDate (js_or (prop assignment "date") date) in
      let travelerId := parseInt (nullish (prop assignment "travelerId")
                                          (prop assignment "traveler_id")) in
      let vehicleId := parseInt (nullish (prop assignment "vehicleId")
                                         (prop assignment "vehicle_id")) in
      if no_date targetDate then Throw "Invalid date in assignment"
      else if negb (isFinite travelerId) || negb (isFinite vehicleId)
      then Throw "Invalid travelerId or vehicleId in assignment"
      else Ok {| va_date := default "" targetDate;
                 va_traveler_id := default 0 travelerId;
                 va_vehicle_id := default 0 vehicleId |}
  end.

(** POST /allotments/bulk, behind [authenticateToken] and [requireAdmin]. *)
Definition save_allotments_bulk (body : jsval) : db → response * db :=
  route
    (match prop body "assignments" with
     | JArr (first :: others) =>
         let assignments := first :: others in
         let replaceExisting :=
           match prop body "replaceExisting" with
           | JUndefined => true
           | x => truthy x
           end in
         rows ← lift (map_result (bulk_row (prop body "date")) assignments) ;
         let datesToClear := remove_dups (va_date <$> rows) in
         (if replaceExisting
          then on_table VehicleAllotments ;;
               modify_db (fun d =>
                 set_vehicle_allotments
                   (filter (fun a => va_date a ∉ datesToClear) (vehicle_allotments d)) d)
          else mret ()) ;;
         insert_on_duplicate_key_update rows ;;
         mret (status_json 201 (obj [
           ("message", JStr "Vehicle allotments saved successfully");
           ("count", JNum (Z.of_nat (length rows)));
           ("dates", JArr (JStr <$> datesToClear))]))
     | _ => mret (status_json 400 (error "assignments array is required"))
     end)
    (fun e => status_json 500 (error (if (e =? "")%string
                                      then "Failed to save vehicle allotments" else e))).

End Routes.
End Allotments.

(** *** One vehicle per traveler per day *)

Module AllotmentsFacts.
Import Allotments.

Definition key (a : allotment) : string * Z := (va_date a, va_traveler_id a).

(** The UNIQUE KEY holds: no two rows share (date, traveler_id). *)
Definition keyed (l : list allotment) : Prop := NoDup (key <$> l).

Lemma same_key_spec (a b : allotment) : same_key a b = true ↔ key a = key b.
Proof.
  unfold same_key, key. rewrite andb_true_iff, String.eqb_eq, Z.eqb_eq.
  split; [by intros [-> ->]|by intros [= -> ->]].
Qed.

Lemma existsb_same_key (new : allotment) (l : list allotment) :
  existsb (same_key new) l = true ↔ key new ∈ key <$> l.
Proof.
  rewrite existsb_exists, list_elem_of_fmap. split.
  - intros (a & Ha & Hk). exists a. split; [by apply same_key_spec|by apply list_elem_of_In].
  - intros (a & Hk & Ha). exists a. split; [by apply list_elem_of_In|by apply same_key_spec].
Qed.

Lemma upsert_keys (new : allotment) (l : list allotment) :
  key <$> upsert new l =
  if existsb (same_key new) l then key <$> l else ((key <$> l) ++ [key new])%list.
Proof.
  unfold upsert. destruct (existsb (same_key new) l).
  - rewrite <- list_fmap_compose. apply list_fmap_ext. intros i a _. simpl.
    by destruct (same_key new a).
  - by rewrite fmap_app.
Qed.

Lemma keyed_upsert (new : allotment) (l : list allotment) :
  keyed l → keyed (upsert new l).
Proof.
  unfold keyed. intros Hl. rewrite upsert_keys.
  destruct (existsb (same_key new) l) eqn:E; [done|].
  apply NoDup_app. split; [done|]. split; [|apply NoDup_singleton].
  intros k Hk Hk'. apply list_elem_of_singleton in Hk' as ->.
  apply existsb_same_key in Hk. congruence.
Qed.

Lemma keyed_foldl (rows l : list allotment) :
  keyed l → keyed (foldl (fun l a => upsert a l) l rows).
Proof.
  revert l. induction rows as [|a rows IH]; intros l Hl; simpl; [done|].
  apply IH. by apply keyed_upsert.
Qed.

Lemma keyed_filter (P : allotment → Prop) `{∀ a, Decision (P a)} (l : list allotment) :
  keyed l → keyed (filter P l).
Proof.
  unfold keyed. intros Hl. eapply sublist_NoDup; [exact Hl|].
  apply fmap_sublist, sublist_filter.
Qed.

(** Under the key, a (date, traveler) pair has one vehicle. *)
Lemma keyed_one_vehicle (l : list allotment) (a b : allotment) :
  keyed l → a ∈ l → b ∈ l →
  va_date a = va_date b → va_traveler_id a = va_traveler_id b → a = b.
Proof.
  unfold keyed. intros Hl Ha Hb Hd Ht.
  apply list_elem_of_lookup in Ha as [i Hi]. apply list_elem_of_lookup in Hb as [j Hj].
  assert (i = j) as ->.
  { eapply NoDup_lookup; [exact Hl| |].
    - rewrite list_lookup_fmap, Hi. reflexivity.
    - rewrite list_lookup_fmap, Hj. simpl. unfold key. by rewrite Hd, Ht. }
  congruence.
Qed.

Section Facts.

Variable Date_new : jsval → option Z.
Variable toISOString : Z → string.

Abbreviation normalizeDate := (normalizeDate Date_new toISOString).
Abbreviation save_allotment := (save_allotment Date_new toISOString).
Abbreviation save_allotments_bulk := (save_allotments_bulk Date_new toISOString).

(** The two save routes, as requests. *)
Inductive save : Type :=
| Single (body : jsval)
| Bulk (body : jsval).

Definition run_save (s : save) (d : db) : db :=
  match s with
  | Single body => (save_allotment body d).2
  | Bulk body => (save_allotments_bulk body d).2
  end.

Definition run_saves (l : list save) (d : db) : db := foldl (fun d s => run_save s d) d l.

Lemma insert_run (rows : list allotment) (d d' : db) (r : result unit) :
  insert_on_duplicate_key_update rows d = (r, d') →
  d' = d ∨
  d' = set_vehicle_allotments
         (foldl (fun l a => upsert a l) (vehicle_allotments d) rows) d.
Proof.
  unfold insert_on_duplicate_key_update, mbind, M_bind, on_table, modify_db.
  destruct (unavailable d VehicleAllotments); intros [= _ <-]; [by left|by right].
Qed.

Lemma keyed_save_allotment (body : jsval) (d : db) :
  keyed (vehicle_allotments d) → keyed (vehicle_allotments (save_allotment body d).2).
Proof.
  intros Hd. destruct (save_allotment body d) as [r d'] eqn:E. simpl.
  unfold Allotments.save_allotment in E. apply route_state in E as [x E].
  destruct (_ || _); [by injection E as _ <-|].
  apply bind_inv in E as [([] & d1 & H1 & H)|(e & H1 & _)].
  - injection H as _ <-. apply insert_run in H1 as [->| ->]; [done|].
    by apply keyed_foldl.
  - apply insert_run in H1 as [->| ->]; [done|]. by apply keyed_foldl.
Qed.

Lemma keyed_save_bulk (body : jsval) (d : db) :
  keyed (vehicle_allotments d) →
  keyed (vehicle_allotments (save_allotments_bulk body d).2).
Proof.
  intros Hd. destruct (save_allotments_bulk body d) as [r d'] eqn:E. simpl.
  unfold Allotments.save_allotments_bulk in E. apply route_state in E as [x E].
  destruct (prop body "assignments") as [| | | | | |[|first others]|];
    try (by injection E as _ <-).
  apply bind_inv in E as [(rows & d1 & [= _ <-] & H)|(e & [= _ <-] & _)]; [|done].
  assert (∃ d1, keyed (vehicle_allotments d1) ∧
                ∃ x, (insert_on_duplicate_key_update rows ≫=
                        (fun _ : () => mret (status_json 201 (obj [
                           ("message", JStr "Vehicle allotments saved successfully");
                           ("count", JNum (Z.of_nat (length rows)));
                           ("dates", JArr (JStr <$> remove_dups (va_date <$> rows)))]))))
                       d1 = (x, d') ∨ d' = d1) as (d1 & Hd1 & Hrest).
  { apply bind_inv in H as [([] & d1 & H1 & H)|(e & H1 & _)].
    - exists d1. split; [|eauto].
      destruct (match prop body "replaceExisting" with JUndefined => _ | _ => _ end).
      + unfold mbind, M_bind, on_table, modify_db in H1.
        destruct (unavailable d VehicleAllotments); [discriminate|].
        injection H1 as <-. simpl. by apply keyed_filter.
      + unfold mret, M_ret in H1. by injection H1 as <-.
    - exists d'. split; [|exists (Throw e); by right].
      destruct (match prop body "replaceExisting" with JUndefined => _ | _ => _ end);
        [|discriminate].
      unfold mbind, M_bind, on_table, modify_db in H1.
      destruct (unavailable d VehicleAllotments); [|discriminate].
      by injection H1 as _ <-. }
  destruct Hrest as [x0 [H0| ->]]; [|done].
  apply bind_inv in H0 as [([] & d2 & H2 & H0)|(e & H2 & _)].
  - injection H0 as _ <-. apply insert_run in H2 as [->| ->]; [done|].
    by apply keyed_foldl.
  - apply insert_run in H2 as [->| ->]; [done|]. by apply keyed_foldl.
Qed.

Lemma keyed_run_saves (l : list save) (d : db) :
  keyed (vehicle_allotments d) → keyed (vehicle_allotments (run_saves l d)).
Proof.
  revert d. induction l as [|s l IH]; intros d Hd; [done|].
  simpl. apply IH. destruct s; [by apply keyed_save_allotment|by apply keyed_save_bulk].
Qed.

Lemma existsb_false_iff {A : Type} (f : A → bool) (l : list A) :
  existsb f l = false ↔ ∀ x, x ∈ l → f x = false.
Proof.
  split.
  - intros He x Hx. destruct (f x) eqn:E; [|done].
    assert (existsb f l = true) as Ht
        by (apply existsb_exists; exists x; split; [by apply list_elem_of_In|done]).
    congruence.
  - intros Hall. destruct (existsb f l) eqn:E; [|done].
    apply existsb_exists in E as (x & Hx & Hf). apply list_elem_of_In in Hx.
    rewrite (Hall x Hx) in Hf. discriminate.
Qed.


End Facts.
End AllotmentsFacts.

Module AllotmentsExamples.
Import Allotments AllotmentsFacts Sample.

Definition sample_Date_new (v : jsval) : option Z :=
  match v with
  | JStr s => MyStatusExamples.sample_Date_parse s
  | JNum n => Some n
  | _ => None
  end.

Definition sample_iso := MyStatusExamples.sample_iso.

(** A value that is an integer: a number, or the decimal spelling of
    one. *)
Definition is_integer (v : jsval) : bool :=
  match v with
  | JNum _ => true
  | JStr s => match parseInt_string s with
              | Some n => (string_of_Z n =? s)%string
              | None => false
              end
  | _ => false
  end.

Definition lenient_body : jsval :=
  obj [("date", JStr "2025-12-14"); ("travelerId", JStr "12abc"); ("vehicleId", JNum 3)].


Definition first_save : jsval :=
  obj [("date", JStr "2025-12-14"); ("travelerId", JNum 1); ("vehicleId", JNum 1)].
Definition second_save : jsval :=
  obj [("date", JStr "2025-12-14"); ("travelerId", JStr "1"); ("vehicleId", JNum 2)].
Definition bad_date : jsval :=
  obj [("date", JStr "tomorrow"); ("travelerId", JNum 1); ("vehicleId", JNum 2)].

Example resave_replaces :
  vehicle_allotments
    (run_saves sample_Date_new sample_iso [Single first_save; Single second_save] empty_db) =
  [{| va_date := "2025-12-14"; va_traveler_id := 1; va_vehicle_id := 2 |}].
Proof. vm_compute. reflexivity. Qed.

Example bad_date_rejected :
  save_allotment sample_Date_new sample_iso bad_date empty_db =
  (status_json 400 (error "date, travelerId and vehicleId are required"), empty_db).
Proof. reflexivity. Qed.


End AllotmentsExamples.

(** ** routes/settings.js *)

Module Settings.

Section Routes.

(** Settings hold any JSON value, so this module keeps numbers and
    objects as the platform has them: [number] is the type of JavaScript
    numbers and [object] that of arrays and plain objects.  [Number_toString],
    [parseFloat], [JSON_stringify] and [JSON_parse] are the platform's;
    [JSON_parse] answers [None] where it throws. *)
Variable number : Type.
Variable object : Type.

Inductive value : Type :=
| VUndefined
| VNull
| VBool (b : bool)
| VNumber (n : number)
| VString (s : string)
| VObject (o : object).

Variable Number_toString : number → string.
Variable parseFloat : string → number.
Variable JSON_stringify : value → string.
Variable JSON_parse : string → option value.

Definition typeof (v : value) : string :=
  match v with
  | VUndefined => "undefined"
  | VNull | VObject _ => "object"
  | VBool _ => "boolean"
  | VNumber _ => "number"
  | VString _ => "string"
  end.

(** What the settings routes answer. *)
Inductive answer : Type :=
| Error (msg : string)
| Message (msg : string)
| Setting (key : string) (v : value) (type : string)
| AllSettings (formatted : gmap string value).

Record settings_response : Type := {
  s_status : Z;
  s_body : answer
}.

(** The value read from a cell of [setting_value]: SQL NULL is [null]. *)
Definition cell (raw : option string) : value := from_option VString VNull raw.

(** ToString of a cell, for [parseFloat] and [JSON.parse]. *)
Definition cell_string (raw : option string) : string := default "null" raw.

(** The parsing shared by [formatSettings] and the two single-setting
    routes. *)
Definition parse_setting (s : setting) : value :=
  let raw := setting_value s in
  if (setting_type s =? "number")%string then VNumber (parseFloat (cell_string raw))
  else if (setting_type s =? "boolean")%string
  then VBool (bool_decide (raw = Some "true") || bool_decide (raw = Some "1"))
  else if (setting_type s =? "json")%string
  then match JSON_parse (cell_string raw) with
       | Some v => v
       | None => cell raw
       end
  else cell raw.

(** [formatSettings]: [formatted[setting.setting_key] = value] for each
    row; assigning to [__proto__] creates no property. *)
Definition formatSettings (settings : gmap string setting) : gmap string value :=
  parse_setting <$> delete "__proto__" settings.

(** GET /public (no middleware) and GET / (admin) share their body. *)
Definition get_settings : db → settings_response * db :=
  route
    (on_table Db.Settings ;;
     d ← get_db ;
     mret {| s_status := 200; s_body := AllSettings (formatSettings (settings d)) |})
    (fun _ => {| s_status := 500; s_body := Error "Failed to fetch settings" |}).

(** GET /public/:key (no middleware) and GET /:key (admin) share their
    body too. *)
Definition get_setting (key : string) : db → settings_response * db :=
  route
    (on_table Db.Settings ;;
     d ← get_db ;
     match settings d !! key with
     | None => mret {| s_status := 404; s_body := Error "Setting not found" |}
     | Some setting =>
         mret {| s_status := 200;
                 s_body := Setting key (parse_setting setting) (setting_type setting) |}
     end)
    (fun _ => {| s_status := 500; s_body := Error "Failed to fetch setting" |}).

(** The ENUM of [setting_type]. *)
Definition allowed_type (t : string) : bool :=
  (t =? "string")%string || (t =? "number")%string
  || (t =? "boolean")%string || (t =? "json")%string.

(** The widths of database-setup.sql: [setting_key VARCHAR(100)] and
    [setting_value TEXT], which holds 65535 bytes. *)
Definition fits (width : Z) (s : string) : bool := Z.of_nat (String.length s) <=? width.

(** INSERT INTO settings ... ON DUPLICATE KEY UPDATE setting_value =
    VALUES(setting_value), setting_type = VALUES(setting_type), in the
    strict SQL mode that is MySQL's default: a text too long for its column
    or a type outside the ENUM is an error. *)
Definition upsert_setting (key : string) (v type : string) : M unit :=
  on_table Db.Settings ;;
  (if fits 100 key && fits 65535 v then mret () else throw "ER_DATA_TOO_LONG") ;;
  (if allowed_type type then mret () else throw "WARN_DATA_TRUNCATED") ;;
  modify_db (fun d =>
    set_settings (<[key := {| setting_value := Some v; setting_type := type |}]>
                    (settings d)) d).

(** The storage form of a value: its text and the type tag inferred from
    [typeof]. [type] is the optional [type] of the body, a string when
    present. *)
Definition encode (v : value) (type : option string) : string * string :=
  let given := if Travelers.missing type then "string" else default "" type in
  match v with
  | VNull | VObject _ => (JSON_stringify v, "json")
  | VBool b => (if b then "true" else "false", "boolean")
  | VNumber n => (Number_toString n, "number")
  | VString s => (s, given)
  | VUndefined => ("undefined", given)
  end.

(** PUT /:key, behind [authenticateToken] and [requireAdmin]. *)
Definition put_setting (key : string) (v : value) (type : option string)
  : db → settings_response * db :=
  route
    (let '(settingValue, settingType) := encode v type in
     upsert_setting key settingValue settingType ;;
     mret {| s_status := 200; s_body := Message "Setting updated successfully" |})
    (fun _ => {| s_status := 500; s_body := Error "Failed to update setting" |}).

(** PUT /, behind [authenticateToken] and [requireAdmin]: every entry of
    the body, in order. *)
Definition put_settings (entries : list (string * value)) : db → settings_response * db :=
  route
    ((fix go (l : list (string * value)) : M unit :=
        match l with
        | [] => mret ()
        | (key, v) :: rest =>
            let '(settingValue, settingType) := encode v None in
            upsert_setting key settingValue settingType ;; go rest
        end) entries ;;
     mret {| s_status := 200; s_body := Message "Settings updated successfully" |})
    (fun _ => {| s_status := 500; s_body := Error "Failed to update settings" |}).

(** The GET routes of the router by the segments of the path after
    /api/settings.  Express tries the routes in the order of registration,
    so [/public] is taken before [/:key]; a path no route matches falls to
    the 404 handler of server.js. *)
Definition not_found : db → settings_response * db :=
  fun d => ({| s_status := 404; s_body := Error "Not Found" |}, d).

Definition get (segments : list string) : db → settings_response * db :=
  match segments with
  | [] => get_settings
  | [key] => if (key =? "public")%string then get_settings else get_setting key
  | [first; key] => if (first =? "public")%string then get_setting key else not_found
  | _ => not_found
  end.

End Routes.
End Settings.

(** *** Settings come back as they were put *)

Module SettingsFacts.
Import Settings.

Section Facts.

Variable number : Type.
Variable object : Type.
Variable Number_toString : number → string.
Variable parseFloat : string → number.
Variable JSON_stringify : value number object → string.
Variable JSON_parse : string → option (value number object).

Abbreviation value := (value number object).
Abbreviation put_setting := (put_setting number object Number_toString JSON_stringify).
Abbreviation get_setting := (get_setting number object parseFloat JSON_parse).
Abbreviation get_settings := (get_settings number object parseFloat JSON_parse).
Abbreviation get := (get number object parseFloat JSON_parse).
Abbreviation encode := (encode number object Number_toString JSON_stringify).
Abbreviation parse_setting := (parse_setting number object parseFloat JSON_parse).

(** The values a setting is meant to hold, with what the platform guarantees for them:
    a boolean; a number that [toString] and [parseFloat] carry back and
    forth, as they do every finite number; [null], an array or an object
    that [JSON.stringify] and [JSON.parse] carry back and forth, as they do
    every JSON-serializable one. *)
Definition round_trips (v : value) : Prop :=
  match v with
  | VBool _ _ _ => True
  | VNumber _ _ n => parseFloat (Number_toString n) = n
  | VNull _ _ | VObject _ _ _ => JSON_parse (JSON_stringify v) = Some v
  | VUndefined _ _ | VString _ _ _ => False
  end.

(** The tag PUT infers. *)
Definition inferred_type (v : value) : string :=
  match v with
  | VBool _ _ _ => "boolean"
  | VNumber _ _ _ => "number"
  | _ => "json"
  end.

Lemma encode_decode (v : value) (type : option string) :
  round_trips v →
  parse_setting {| setting_value := Some (encode v type).1;
                   setting_type := (encode v type).2 |} = v ∧
  (encode v type).2 = inferred_type v.
Proof.
  destruct v as [| |b|n|s|o]; simpl; try done; intros Hv;
    unfold Settings.parse_setting; simpl.
  - by rewrite Hv.
  - split; [|done]. by destruct b.
  - by rewrite Hv.
  - by rewrite Hv.
Qed.

Lemma put_setting_run (key : string) (v : value) (type : option string) (d : db) :
  unavailable d Db.Settings = false → round_trips v →
  fits 100 key = true → fits 65535 (encode v type).1 = true →
  put_setting key v type d =
  ({| s_status := 200; s_body := Message number object "Setting updated successfully" |},
   set_settings (<[key := {| setting_value := Some (encode v type).1;
                             setting_type := (encode v type).2 |}]> (settings d)) d).
Proof.
  intros Hav Hv Hkey Hval. unfold Settings.put_setting, route.
  destruct (encode v type) as [settingValue settingType] eqn:E.
  assert (allowed_type settingType = true) as Hty.
  { destruct (encode_decode v type Hv) as [_ Ht]. rewrite E in Ht. simpl in Ht.
    rewrite Ht. by destruct v. }
  simpl in Hval.
  unfold upsert_setting, mbind, M_bind, on_table, modify_db, mret, M_ret, throw.
  by rewrite Hav, Hkey, Hval, Hty.
Qed.


End Facts.
End SettingsFacts.

Module SettingsExamples.
Import Settings SettingsFacts.

(** An instance of the platform: integers for numbers, no object other
    than [null]. *)
Definition sample_parseFloat (s : string) : Z :=
  from_option Z.of_int 0 (NilZero.int_of_string s).

Definition sample_stringify (v : value Z Empty_set) : string :=
  match v with
  | VNull _ _ => "null"
  | _ => "{}"
  end.

Definition sample_parse (s : string) : option (value Z Empty_set) :=
  if (s =? "null")%string then Some (VNull Z Empty_set) else None.

Example number_setting :
  (get_setting Z Empty_set sample_parseFloat sample_parse "top_contributors_count"
     (put_setting Z Empty_set string_of_Z sample_stringify "top_contributors_count"
        (VNumber Z Empty_set 12) None empty_db).2).1 =
  {| s_status := 200;
     s_body := Setting Z Empty_set "top_contributors_count" (VNumber Z Empty_set 12) "number" |}.
Proof. reflexivity. Qed.

(** A key of 101 characters does not fit [setting_key]: the INSERT fails,
    PUT answers 500 and the following GET answers 404 instead of the value. *)
Definition long_key : string :=
  "theme.colors.primary.background.gradient.start.for.the.dashboard.of.the.group."
  +:+ "leader.on.small.screens".


(** GET /api/settings/public is the listing, also after a PUT of the key
    [public]. *)
Example key_public_is_the_listing :
  (get Z Empty_set sample_parseFloat sample_parse ["public"]
     (put_setting Z Empty_set string_of_Z sample_stringify "public"
        (VBool Z Empty_set true) None empty_db).2).1
  = {| s_status := 200;
       s_body := AllSettings Z Empty_set {[ "public" := VBool Z Empty_set true ]} |}.
Proof. vm_compute. reflexivity. Qed.


End SettingsExamples.

(** ** routes/announcements.js *)

Module Announcements.
Import Travelers.

(** [/^[^\s@]+@[^\s@]+\.[^\s@]+$/.test(email)] on 8-bit strings: no white
    space, exactly one [@] with something before it, and after it a dot
    that is neither the first nor the last character. *)
Definition plain (c : ascii) : bool := negb (is_space c) && negb (Ascii.eqb c "@").

Fixpoint all_plain (s : string) : bool :=
  match s with
  | EmptyString => true
  | String c rest => plain c && all_plain rest
  end.

(** [[^\s@]+\.[^\s@]+] against the whole of [s]. *)
Fixpoint dotted (s : string) : bool :=
  match s with
  | EmptyString => false
  | String c rest =>
      plain c &&
      match rest with
      | String "." after => (negb (after =? "")%string && all_plain after) || dotted rest
      | _ => dotted rest
      end
  end.

Fixpoint valid_email (s : string) : bool :=
  match s with
  | EmptyString => false
  | String c rest =>
      plain c &&
      match rest with
      | String "@" domain => dotted domain || valid_email rest
      | _ => valid_email rest
      end
  end.

(** A row as [res.json] sends it. *)
Definition announcement_json (a : announcement) : jsval :=
  obj [("id", JNum (a_id a));
       ("recipient_type", JStr (a_recipient_type a));
       ("recipient_value", from_option JStr JNull (a_recipient_value a));
       ("message", JStr (a_message a));
       ("display_type", JStr (a_display_type a));
       ("timing_type", JStr (a_timing_type a));
       ("scheduled_time", from_option JNum JNull (a_scheduled_time a));
       ("sent", JNum (if a_sent a then 1 else 0));
       ("created_at", JNum (a_created_at a))].

(** WHERE sent = FALSE AND (timing_type = 'instant' OR (timing_type =
    'scheduled' AND scheduled_time <= NOW())). *)
Definition pending (now : Z) (a : announcement) : bool :=
  negb (a_sent a) &&
  ((a_timing_type a =? "instant")%string
   || ((a_timing_type a =? "scheduled")%string
       && match a_scheduled_time a with
          | Some t => t <=? now
          | None => false
          end)).

Definition newest_first (a b : announcement) : bool := a_created_at b <=? a_created_at a.

Definition select_pending (now : Z) : M (list announcement) :=
  rows ← select Db.Announcements announcements (pending now) ;
  mret (order_by newest_first rows).

(** [arr.includes(email)]. *)
Definition includes (email : string) (l : list jsval) : bool :=
  existsb (fun x => strict_eq x (JStr email)) l.

Section Routes.

(** The platform's [JSON.parse] ([None] where it throws), [JSON.stringify],
    [new Date(value)] and [toISOString]. *)
Variable JSON_parse : string → option jsval.
Variable JSON_stringify : jsval → string.
Variable Date_new : jsval → option Z.
Variable toISOString : Z → string.

(** The body of the loop of GET /user/:email.  A NULL [recipient_value]
    of a specific-traveler row goes through [JSON.parse(null)], which is
    [null], and then [null === email], which is false. *)
Definition shouldReceive (email : string) (userVehicleId : jsval) (isGroupLeader : bool)
    (a : announcement) : bool :=
  let value := a_recipient_value a in
  if (a_recipient_type a =? "all-travelers")%string then
    bool_decide (value = None) || bool_decide (value = Some "ALL_TRAVELERS")
    || bool_decide (value = Some "null") || bool_decide (value = Some "")
  else if (a_recipient_type a =? "specific-traveler")%string then
    if bool_decide (value = Some "ALL_GROUP_LEADERS") then isGroupLeader
    else
      match value with
      | None => false
      | Some text =>
          match JSON_parse text with
          | Some recipientData =>
              if truthy recipientData
                 && strict_eq (prop recipientData "type") (JStr "ALL_GROUP_LEADERS")
              then
                match prop recipientData "recipients" with
                | JArr recipients => isGroupLeader && includes email recipients
                | _ => isGroupLeader
                end
              else (text =? email)%string
          | None => (text =? email)%string
          end
      end
  else if (a_recipient_type a =? "specific-vehicle")%string then
    if truthy userVehicleId && negb (Travelers.missing value) then
      match parseInt_string (default "" value), parseInt userVehicleId with
      | Some announcementVehicleId, Some userVehicleIdNum =>
          announcementVehicleId =? userVehicleIdNum
      | _, _ => false
      end
    else false
  else false.

(** GET /user/:email, no middleware. *)
Definition get_user_announcements (now : Z) (email : string) : db → response * db :=
  route
    (if negb (valid_email email)
     then mret (status_json 400 (error "Invalid email format"))
     else
       rows ← select_by_email email ;
       let userVehicleId := from_option (fun t => field t "vehicle_id") JNull (head rows) in
       leads ← select Vehicles vehicles
                 (fun v => bool_decide (v_group_leader_email v = Some email)) ;
       let isGroupLeader := negb (bool_decide (leads = [])) in
       allAnnouncements ← select_pending now ;
       let userAnnouncements :=
         filter (fun a => shouldReceive email userVehicleId isGroupLeader a = true)
                allAnnouncements in
       mret (json (JArr (announcement_json <$> userAnnouncements))))
    (fun _ => status_json 500 (error "Failed to fetch user announcements")).

(** GET /pending, no middleware. *)
Definition get_pending (now : Z) : db → response * db :=
  route
    (announcements ← select_pending now ;
     mret (json (JArr (announcement_json <$> announcements))))
    (fun _ => status_json 500 (error "Failed to fetch pending announcements")).

(** [recipients && recipients[0]]. *)
Definition first_recipient (recipients : jsval) : jsval :=
  if truthy recipients then
    match recipients with
    | JArr (x :: _) => x
    | JStr (String c _) => JStr (String c EmptyString)
    | _ => JUndefined
    end
  else recipients.

(** The value POST / stores in [recipient_value] for a recipient type. *)
Definition recipientValueToStore (recipientType : string) (recipientValue recipients : jsval)
  : jsval :=
  if (recipientType =? "all-travelers")%string then JStr "ALL_TRAVELERS"
  else if (recipientType =? "all-group-leaders")%string then
    match recipients with
    | JArr (first :: others) =>
        let recipientsJson :=
          JSON_stringify (obj [("type", JStr "ALL_GROUP_LEADERS");
                               ("recipients", recipients)]) in
        if (255 <? String.length recipientsJson)%nat then
          let summary :=
            JSON_stringify (obj [("type", JStr "ALL_GROUP_LEADERS");
                                 ("count", JNum (Z.of_nat (length (first :: others))));
                                 ("sample", JArr (take 5 (first :: others)))]) in
          if (255 <? String.length summary)%nat then JStr "ALL_GROUP_LEADERS"
          else JStr summary
        else JStr recipientsJson
    | _ => JStr "ALL_GROUP_LEADERS"
    end
  else if (recipientType =? "specific-group-leader")%string
          || (recipientType =? "specific-traveler")%string then
    js_or (js_or recipientValue (first_recipient recipients)) JNull
  else if (recipientType =? "by-vehicle")%string
          || (recipientType =? "specific-vehicle")%string then
    if truthy recipientValue then JStr (to_string recipientValue) else JNull
  else js_or recipientValue JNull.

(** The enum value POST / stores in [recipient_type]. *)
Definition dbRecipientType (recipientType : string) : string :=
  if (recipientType =? "by-vehicle")%string then "specific-vehicle"
  else if (recipientType =? "all-group-leaders")%string
          || (recipientType =? "specific-group-leader")%string
  then "specific-traveler"
  else recipientType.

Definition one_of (allowed : list string) (x : jsval) : bool :=
  match x with
  | JStr s => bool_decide (s ∈ allowed)
  | _ => false
  end.

(** POST /, behind [authenticateToken] and [requireAdmin]. *)
Definition create_announcement (now : Z) (body : jsval) : db → response * db :=
  route
    (let message := prop body "message" in
     let displayType := prop body "displayType" in
     let timingType := prop body "timingType" in
     let scheduledTime := prop body "scheduledTime" in
     if negb (truthy message) || negb (truthy (prop body "recipientType"))
     then mret (status_json 400 (error "Missing required fields: message, recipientType"))
     else
       match prop body "recipientType" with
       | JStr recipientType =>
           let type := dbRecipientType recipientType in
           if negb (bool_decide (type ∈ ["all-travelers"; "specific-vehicle";
                                         "specific-traveler"]))
           then mret (status_json 400 (error ("Invalid recipient type: " +:+ type +:+
                  ". Allowed values: all-travelers, specific-vehicle, specific-traveler")))
           else
             let value := recipientValueToStore recipientType (prop body "recipientValue")
                                                (prop body "recipients") in
             match message with
             | JStr text =>
                 if (trim text =? "")%string
                 then mret (status_json 400 (error "Message cannot be empty"))
                 else
                   let finalDisplayType :=
                     if one_of ["notification"; "banner"; "modal"] displayType
                     then to_string displayType else "notification" in
                   let finalTimingType :=
                     if one_of ["instant"; "scheduled"] timingType
                     then to_string timingType else "instant" in
                   if (finalTimingType =? "scheduled")%string && truthy scheduledTime
                      && negb (bool_decide (is_Some (Date_new scheduledTime)))
                   then mret (status_json 400 (error "Invalid scheduled time format"))
                   else
                     let finalScheduledTime :=
                       if (finalTimingType =? "scheduled")%string && truthy scheduledTime
                       then (fun ms => ms / 1000 * 1000) <$> Date_new scheduledTime
                       else None in
                     on_table Db.Announcements ;;
                     id ← fresh_id Db.Announcements ;
                     modify_db (fun d =>
                       set_announcements
                         (announcements d ++
                          [{| a_id := id; a_recipient_type := type;
                              a_recipient_value :=
                                match value with
                                | JNull | JUndefined => None
                                | v => Some (to_string v)
                                end;
                              a_message := trim text;
                              a_display_type := finalDisplayType;
                              a_timing_type := finalTimingType;
                              a_scheduled_time := finalScheduledTime;
                              a_sent := false;
                              a_created_at := now |}])%list d) ;;
                     mret (status_json 201 (obj [
                       ("id", JNum id);
                       ("message", JStr "Announcement created successfully")]))
             | _ => throw "TypeError"
             end
       | other =>
           mret (status_json 400 (error ("Invalid recipient type: " +:+ to_string other +:+
                  ". Allowed values: all-travelers, specific-vehicle, specific-traveler")))
       end)
    (fun e => status_json 500 (obj [("error", JStr "Failed to create announcement");
                                    ("details", JStr e)])).

(** PUT /:id/sent, behind [authenticateToken] and [requireAdmin]. *)
Definition mark_sent (id_matches : Z → bool) : db → response * db :=
  route
    (on_table Db.Announcements ;;
     modify_db (fun d =>
       set_announcements
         ((fun a => if id_matches (a_id a)
                    then {| a_id := a_id a; a_recipient_type := a_recipient_type a;
                            a_recipient_value := a_recipient_value a;
                            a_message := a_message a; a_display_type := a_display_type a;
                            a_timing_type := a_timing_type a;
                            a_scheduled_time := a_scheduled_time a;
                            a_sent := true; a_created_at := a_created_at a |}
                    else a) <$> announcements d) d) ;;
     mret (json (obj [("message", JStr "Announcement marked as sent")])))
    (fun _ => status_json 500 (error "Failed to update announcement")).

End Routes.
End Announcements.

(** ** Who receives an announcement *)

Module AnnouncementsFacts.
Import Travelers Announcements.

(** What an announcement row denotes: everyone, one traveler, the riders of
    one vehicle, or the group leaders (all of them, or those of a list). *)
Inductive audience : Type :=
| Everyone
| OneTraveler (email : string)
| OneVehicle (id : Z)
| Leaders (only : option (list jsval)).

(** The traveler's [vehicle_id] as GET /user/:email reads it, and whether
    some vehicle names the email as its group leader. *)
Definition vehicle_of (email : string) (d : db) : jsval :=
  from_option (fun t => field t "vehicle_id") JNull
    (head (filter (fun t => strict_eq (field t "email") (JStr email) = true) (travelers d))).

Definition leads (email : string) (d : db) : bool :=
  negb (bool_decide
    (filter (fun v => bool_decide (v_group_leader_email v = Some email) = true)
            (vehicles d) = [])).

(** The spec's words: all travelers; specifically that email; the vehicle
    in which the traveler rides; a vehicle's group leader (on the list, when
    the announcement carries one). *)
Definition in_audience (email : string) (d : db) (t : audience) : bool :=
  match t with
  | Everyone => true
  | OneTraveler e => (e =? email)%string
  | OneVehicle id =>
      truthy (vehicle_of email d) && bool_decide (parseInt (vehicle_of email d) = Some id)
  | Leaders None => leads email d
  | Leaders (Some only) => leads email d && includes email only
  end.

Section Facts.

Variable JSON_parse : string → option jsval.

Definition marked (o : jsval) : bool :=
  truthy o && strict_eq (prop o "type") (JStr "ALL_GROUP_LEADERS").

(** The audience a stored row denotes, [None] when it denotes none. *)
Definition audience_of (a : announcement) : option audience :=
  let value := a_recipient_value a in
  if (a_recipient_type a =? "all-travelers")%string then
    if bool_decide (value ∈ [None; Some "ALL_TRAVELERS"; Some "null"; Some ""])
    then Some Everyone else None
  else if (a_recipient_type a =? "specific-traveler")%string then
    match value with
    | None => None
    | Some text =>
        if (text =? "ALL_GROUP_LEADERS")%string then Some (Leaders None)
        else
          match JSON_parse text with
          | Some o =>
              if marked o then
                Some (Leaders (match prop o "recipients" with
                               | JArr only => Some only
                               | _ => None
                               end))
              else Some (OneTraveler text)
          | None => Some (OneTraveler text)
          end
    end
  else if (a_recipient_type a =? "specific-vehicle")%string then
    match value with
    | None => None
    | Some text => if (text =? "")%string then None else OneVehicle <$> parseInt_string text
    end
  else None.

Definition addressed (email : string) (d : db) (a : announcement) : bool :=
  from_option (in_audience email d) false (audience_of a).

Lemma shouldReceive_addressed (email : string) (d : db) (a : announcement) :
  shouldReceive JSON_parse email (vehicle_of email d) (leads email d) a
  = addressed email d a.
Proof.
  unfold shouldReceive, addressed, audience_of, marked.
  destruct (a_recipient_type a =? "all-travelers")%string.
  { destruct (a_recipient_value a) as [text|]; [|done].
    rewrite !orb_false_l.
    destruct (bool_decide (Some text = Some "ALL_TRAVELERS")) eqn:E1.
    { apply bool_decide_eq_true in E1 as ->. done. }
    destruct (bool_decide (Some text = Some "null")) eqn:E2.
    { apply bool_decide_eq_true in E2 as ->. done. }
    destruct (bool_decide (Some text = Some "")) eqn:E3.
    { apply bool_decide_eq_true in E3 as ->. done. }
    apply bool_decide_eq_false in E1, E2, E3.
    rewrite bool_decide_eq_false_2; [done|].
    rewrite !elem_of_cons, elem_of_nil. intros [?|[?|[?|[?|[]]]]]; congruence. }
  destruct (a_recipient_type a =? "specific-traveler")%string.
  { destruct (a_recipient_value a) as [text|]; [|by rewrite bool_decide_eq_false_2].
    destruct (text =? "ALL_GROUP_LEADERS")%string eqn:E.
    { apply String.eqb_eq in E as ->. by rewrite bool_decide_eq_true_2. }
    apply String.eqb_neq in E.
    rewrite bool_decide_eq_false_2 by congruence.
    destruct (JSON_parse text) as [o|]; [|done].
    destruct (truthy o && strict_eq (prop o "type") (JStr "ALL_GROUP_LEADERS")); [|done].
    by destruct (prop o "recipients"). }
  destruct (a_recipient_type a =? "specific-vehicle")%string; [|done].
  destruct (a_recipient_value a) as [text|]; simpl; [|by rewrite andb_false_r].
  destruct (text =? "")%string; simpl; [by rewrite andb_false_r|].
  rewrite andb_true_r.
  destruct (parseInt_string text) as [x|]; simpl; [|by destruct (truthy _)].
  destruct (truthy (vehicle_of email d)); simpl; [|done].
  destruct (parseInt (vehicle_of email d)) as [y|]; simpl.
  - destruct (Z.eqb_spec x y) as [->|N].
    + by rewrite bool_decide_eq_true_2.
    + rewrite bool_decide_eq_false_2; [done|congruence].
  - done.
Qed.

(** For a traveler whose [vehicle_id] is a number, riding vehicle [id] is
    having that non-zero number. *)
Lemma rides_numbered (email : string) (d : db) (n id : Z) :
  vehicle_of email d = JNum n →
  in_audience email d (OneVehicle id) = bool_decide (n ≠ 0 ∧ n = id).
Proof.
  intros Hv. cbn [in_audience]. rewrite Hv, Numerals.parseInt_number. cbn [truthy].
  destruct (decide (n ≠ 0 ∧ n = id)) as [[Hn ->]|Hno].
  - rewrite (bool_decide_eq_true_2 (id ≠ 0 ∧ id = id)) by done.
    apply Z.eqb_neq in Hn. rewrite Hn. by rewrite bool_decide_eq_true_2.
  - rewrite (bool_decide_eq_false_2 _ Hno).
    destruct (Z.eqb_spec n 0) as [->|Hn]; [done|]. simpl.
    apply bool_decide_eq_false_2. intros [= ->]. by apply Hno.
Qed.

Lemma select_pending_ok (now : Z) (d : db) :
  unavailable d Db.Announcements = false →
  select_pending now d
  = (Ok (order_by newest_first (filter (fun a => pending now a = true) (announcements d))), d).
Proof.
  intros Hav.
  unfold select_pending, select, mbind, M_bind, on_table, get_db, mret, M_ret.
  by rewrite Hav.
Qed.

(** What GET /user/:email answers for a well-formed email. *)
Lemma get_user_announcements_eval (now : Z) (email : string) (d : db) :
  valid_email email = true →
  unavailable d Travelers = false →
  unavailable d Vehicles = false →
  unavailable d Db.Announcements = false →
  get_user_announcements JSON_parse now email d
  = (json (JArr (announcement_json <$>
       filter (fun a => addressed email d a = true)
         (order_by newest_first
            (filter (fun a => pending now a = true) (announcements d))))), d).
Proof.
  intros Hv Ht Hve Ha.
  unfold get_user_announcements, route. rewrite Hv. simpl.
  unfold mbind at 1, M_bind at 1. rewrite TravelersLogin.select_by_email_ok by done.
  unfold TravelersLogin.has_email.
  unfold mbind at 1, M_bind at 1.
  unfold select at 1, mbind, M_bind, on_table, get_db, mret, M_ret. rewrite Hve.
  fold (@mbind M _). rewrite select_pending_ok by done.
  do 4 f_equal. apply list_filter_iff. intros a.
  by rewrite <- shouldReceive_addressed.
Qed.

Lemma pending_unsent (now : Z) (a : announcement) :
  pending now a = true → a_sent a = false.
Proof. unfold pending. by destruct (a_sent a). Qed.

(** A string the format check refuses is answered 400 before any query. *)
Lemma invalid_email_rejected (now : Z) (email : string) (d : db) :
  valid_email email = false →
  get_user_announcements JSON_parse now email d
  = (status_json 400 (error "Invalid email format"), d).
Proof. intros Hv. unfold get_user_announcements, route. by rewrite Hv. Qed.


End Facts.
End AnnouncementsFacts.

Module AnnouncementsExamples.
Import Travelers Announcements AnnouncementsFacts Sample.

Definition quoted (s : string) : string := PostsWriting.dquote +:+ s +:+ PostsWriting.dquote.

(** The JSON text of [{type: 'ALL_GROUP_LEADERS', recipients: [...]}]. *)
Definition leaders_json (emails : list string) : string :=
  "{" +:+ quoted "type" +:+ ":" +:+ quoted "ALL_GROUP_LEADERS" +:+ ","
  +:+ quoted "recipients" +:+ ":[" +:+ join "," (quoted <$> emails) +:+ "]}".

(** Stand-ins for [JSON.stringify] and [JSON.parse], good for the texts the
    examples store: the recipients object of one leader, and [null]. *)
Definition sample_stringify (v : jsval) : string :=
  match prop v "recipients" with
  | JArr l => leaders_json (to_string <$> l)
  | _ => "{}"
  end.

Definition sample_parse (s : string) : option jsval :=
  if (s =? leaders_json ["alice@example.com"])%string
  then Some (obj [("type", JStr "ALL_GROUP_LEADERS");
                  ("recipients", JArr [JStr "alice@example.com"])])
  else if (s =? "null")%string then Some JNull
  else None.

Definition sample_Date_new (v : jsval) : option Z :=
  match v with
  | JStr "2025-12-14T06:00:00Z" => Some 1765692000000
  | _ => None
  end.

(** Alice leads the bus and rides it; Bob leads the van and rides nothing. *)
Definition van : vehicle :=
  {| v_id := 3; v_name := "Van C"; v_color := None;
     v_group_leader_email := Some "bob@example.com" |}.

Definition leaders_db : db :=
  {| unavailable := fun _ => false; next_id := fun _ => 1;
     travelers := [alice; bob]; vehicles := [bus; van]; vehicle_allotments := [];
     check_ins := []; posts := []; post_sections := []; post_media := [];
     post_tags := []; settings := ∅; announcements := [] |}.

Definition post (body : jsval) (d : db) : db :=
  (create_announcement sample_stringify sample_Date_new 50 body d).2.

Definition to_leaders : jsval :=
  obj [("recipientType", JStr "all-group-leaders");
       ("recipients", JArr [JStr "alice@example.com"]);
       ("message", JStr "Leaders meet at six")].

Definition to_leaders_row : announcement :=
  {| a_id := 1; a_recipient_type := "specific-traveler";
     a_recipient_value := Some (leaders_json ["alice@example.com"]);
     a_message := "Leaders meet at six"; a_display_type := "notification";
     a_timing_type := "instant"; a_scheduled_time := None; a_sent := false;
     a_created_at := 50 |}.


(** The five recipient types of the admin form, as POST / stores them. *)
Definition sent_to (type : string) (value : jsval) : jsval :=
  obj [("recipientType", JStr type); ("recipientValue", value);
       ("message", JStr " Bus leaves at 7 ")].

Definition stored (body : jsval) : list (string * option string) :=
  (fun a => (a_recipient_type a, a_recipient_value a)) <$> announcements (post body leaders_db).

Example stored_all_travelers :
  stored (sent_to "all-travelers" JUndefined) = [("all-travelers", Some "ALL_TRAVELERS")].
Proof. reflexivity. Qed.

Example stored_specific_traveler :
  stored (sent_to "specific-traveler" (JStr "bob@example.com"))
  = [("specific-traveler", Some "bob@example.com")].
Proof. reflexivity. Qed.

Example stored_specific_group_leader :
  stored (sent_to "specific-group-leader" (JStr "bob@example.com"))
  = [("specific-traveler", Some "bob@example.com")].
Proof. reflexivity. Qed.

Example stored_by_vehicle :
  stored (sent_to "by-vehicle" (JNum 1)) = [("specific-vehicle", Some "1")].
Proof. reflexivity. Qed.

Example stored_all_group_leaders :
  stored (sent_to "all-group-leaders" JUndefined)
  = [("specific-traveler", Some "ALL_GROUP_LEADERS")].
Proof. reflexivity. Qed.

Example stored_unknown_type :
  (create_announcement sample_stringify sample_Date_new 50
     (sent_to "everyone" JUndefined) leaders_db).1
  = status_json 400 (error ("Invalid recipient type: everyone. Allowed values: "
                            +:+ "all-travelers, specific-vehicle, specific-traveler")).
Proof. reflexivity. Qed.

(** Three announcements: one for everyone, one for the bus, one for Bob. *)
Definition three_db : db :=
  post (sent_to "specific-traveler" (JStr "bob@example.com"))
    (post (sent_to "by-vehicle" (JNum 1))
       (post (sent_to "all-travelers" JUndefined) leaders_db)).

Definition recipients_of (r : response) : list jsval :=
  match body r with
  | JArr l => (fun a => prop a "recipient_value") <$> l
  | _ => []
  end.

Example alice_receives :
  recipients_of (get_user_announcements sample_parse 100 "alice@example.com" three_db).1
  = [JStr "ALL_TRAVELERS"; JStr "1"].
Proof. vm_compute. reflexivity. Qed.

Example bob_receives :
  recipients_of (get_user_announcements sample_parse 100 "bob@example.com" three_db).1
  = [JStr "ALL_TRAVELERS"; JStr "bob@example.com"].
Proof. vm_compute. reflexivity. Qed.

Example stranger_receives :
  recipients_of (get_user_announcements sample_parse 100 "carol@example.com" three_db).1
  = [JStr "ALL_TRAVELERS"].
Proof. vm_compute. reflexivity. Qed.

Example not_an_email :
  (get_user_announcements sample_parse 100 "alice" three_db).1
  = status_json 400 (error "Invalid email format").
Proof. reflexivity. Qed.

Example marked_sent_is_withheld :
  recipients_of
    (get_user_announcements sample_parse 100 "bob@example.com"
       (mark_sent (fun i => i =? 1) three_db).2).1
  = [JStr "bob@example.com"].
Proof. vm_compute. reflexivity. Qed.

Example valid_email_examples :
  valid_email "a@b.c" = true ∧ valid_email "a@b" = false ∧ valid_email "a b@c.d" = false
  ∧ valid_email "a@b@c.d" = false ∧ valid_email "@b.c" = false ∧ valid_email "a@.c" = false
  ∧ valid_email "a@b." = false ∧ valid_email "a@b..c" = true.
Proof. repeat split. Qed.


End AnnouncementsExamples.

(** ** Route registration: which middleware stands before which handler *)

Module Routing.

Inductive verb : Type := GET | POST | PUT | PATCH | DELETE.

(** The two functions the routers import from [middleware/auth]. *)
Inductive middleware : Type := authenticateToken | requireAdmin.

#[global] Instance verb_eq_dec : EqDecision verb.
Proof. solve_decision. Defined.
#[global] Instance middleware_eq_dec : EqDecision middleware.
Proof. solve_decision. Defined.

(** [router.verb(path, ...chain, handler)] of the router mounted at [mount]. *)
Record registration : Type := {
  mount : string;
  method : verb;
  path : string;
  chain : list middleware
}.

Definition router (at_ : string) (routes : list (verb * string * list middleware))
  : list registration :=
  (fun '(v, p, c) => {| mount := at_; method := v; path := p; chain := c |}) <$> routes.

Definition user_only : list middleware := [authenticateToken].
Definition admin_only : list middleware := [authenticateToken; requireAdmin].

(** routes/travelers.js *)
Definition travelers_routes : list registration :=
  router "/api/travelers" [
    (GET, "/public", user_only); (GET, "/", admin_only); (GET, "/:id", user_only);
    (GET, "/email/:email", user_only); (POST, "/", admin_only); (PUT, "/:id", user_only);
    (DELETE, "/:id", admin_only); (POST, "/login", [])].

(** routes/vehicles.js, in the version that also serves the allotments. *)
Definition vehicles_routes : list registration :=
  router "/api/vehicles" [
    (GET, "/", user_only); (GET, "/allotments", user_only);
    (POST, "/allotments", admin_only); (POST, "/allotments/bulk", admin_only);
    (DELETE, "/allotments", admin_only); (GET, "/:id", user_only);
    (POST, "/", admin_only); (PUT, "/:id", admin_only); (DELETE, "/:id", admin_only);
    (POST, "/:id/location", user_only)].

(** The older copy of routes/vehicles.js that is kept in the repository:
    it imports no middleware and registers every route with its handler
    only. *)
Definition legacy_vehicles_routes : list registration :=
  router "/api/vehicles" [
    (GET, "/", []); (GET, "/:id", []); (POST, "/", []); (PUT, "/:id", []);
    (DELETE, "/:id", []); (POST, "/:id/location", [])].

(** routes/settings.js *)
Definition settings_routes : list registration :=
  router "/api/settings" [
    (GET, "/public", []); (GET, "/public/:key", []); (GET, "/", admin_only);
    (GET, "/:key", admin_only); (PUT, "/:key", admin_only); (PUT, "/", admin_only)].

(** routes/posts.js *)
Definition posts_routes : list registration :=
  router "/api/posts" [
    (GET, "/", user_only); (GET, "/:id", user_only); (POST, "/", user_only);
    (PUT, "/:id", user_only); (DELETE, "/:id", user_only);
    (PATCH, "/:id/approve", admin_only)].

(** routes/checkIns.js *)
Definition check_ins_routes : list registration :=
  router "/api/check-ins" [
    (GET, "/", admin_only); (GET, "/my-status", user_only);
    (GET, "/vehicle/:vehicleId", admin_only); (POST, "/", user_only);
    (POST, "/:id/checkout", user_only); (DELETE, "/vehicle/:vehicleId", admin_only)].

(** routes/announcements.js *)
Definition announcements_routes : list registration :=
  router "/api/announcements" [
    (GET, "/", admin_only); (GET, "/pending", []); (GET, "/user/:email", []);
    (POST, "/", admin_only); (PUT, "/:id/sent", admin_only); (DELETE, "/:id", admin_only)].

(** routes/sections.js *)
Definition sections_routes : list registration :=
  router "/api/sections" [
    (GET, "/", user_only); (GET, "/:id", user_only); (POST, "/", admin_only);
    (PUT, "/:id", admin_only); (DELETE, "/:id", admin_only)].

(** routes/journals.js *)
Definition journals_routes : list registration :=
  router "/api/journals" [
    (GET, "/", user_only); (GET, "/:id", user_only); (POST, "/", user_only);
    (PUT, "/:id", user_only); (DELETE, "/:id", user_only)].

(** routes/itinerary.js *)
Definition itinerary_routes : list registration :=
  router "/api/itinerary" [
    (GET, "/", user_only); (GET, "/:id", user_only); (POST, "/", admin_only);
    (PUT, "/:id", admin_only); (DELETE, "/:id", admin_only)].

Definition all_routes : list registration :=
  (travelers_routes ++ vehicles_routes ++ legacy_vehicles_routes ++ settings_routes
   ++ posts_routes ++ check_ins_routes ++ announcements_routes ++ sections_routes
   ++ journals_routes ++ itinerary_routes)%list.

(** The routes registered with a handler only. *)
Definition open_routes : list registration :=
  (router "/api/travelers" [(POST, "/login", [])]
   ++ router "/api/settings" [(GET, "/public", []); (GET, "/public/:key", [])]
   ++ router "/api/announcements" [(GET, "/pending", []); (GET, "/user/:email", [])]
   ++ legacy_vehicles_routes)%list.

#[global] Instance registration_eq_dec : EqDecision registration.
Proof. solve_decision. Defined.

(** *** How Express runs a chain *)

Record request : Type := {
  authorization : option string;
  req_user : option user
}.

(** A middleware either calls [next()], possibly after setting [req.user],
    or answers the request itself; nothing after it runs then. *)
Inductive verdict : Type :=
| Next (req : request)
| Respond (r : response).

Definition handler : Type := request → db → response * db.

Section Serve.

(** The functions exported by [middleware/auth], which is not among the
    sources: they are whatever that file makes them. *)
Variable auth : middleware → request → verdict.

Fixpoint run_chain (c : list middleware) (h : handler) (req : request) (d : db)
  : response * db :=
  match c with
  | [] => h req d
  | m :: rest =>
      match auth m req with
      | Next req' => run_chain rest h req' d
      | Respond r => (r, d)
      end
  end.

Definition serve (reg : registration) (h : handler) : request → db → response * db :=
  run_chain (chain reg) h.

End Serve.

(** Modelled from the spec: [middleware/auth.js] is not among the sources.
    Authentication is a JWT bearer-token check with a boolean admin flag:
    [authenticateToken] wants an [Authorization: Bearer <token>] header whose
    token verifies, and puts the decoded payload in [req.user];
    [requireAdmin] wants the admin flag of that payload. *)
Definition bearer_check (jwt_verify : string → option user) (m : middleware)
    (req : request) : verdict :=
  match m with
  | authenticateToken =>
      match authorization req with
      | Some header =>
          if Posts.startsWith header "Bearer " then
            match jwt_verify (String.substring 7 (String.length header - 7) header) with
            | Some u => Next {| authorization := authorization req; req_user := Some u |}
            | None => Respond (status_json 403 (error "Invalid or expired token"))
            end
          else Respond (status_json 401 (error "Access token required"))
      | None => Respond (status_json 401 (error "Access token required"))
      end
  | requireAdmin =>
      match req_user req with
      | Some u =>
          if user_isAdmin u then Next req
          else Respond (status_json 403 (error "Admin access required"))
      | None => Respond (status_json 401 (error "Authentication required"))
      end
  end.

End Routing.

Module RoutingFacts.
Import Routing.

(** Every chain that is not empty begins with [authenticateToken], and
    [requireAdmin] only ever comes second. *)
Definition well_guarded (reg : registration) : bool :=
  bool_decide (chain reg = user_only) || bool_decide (chain reg = admin_only).

Lemma routes_guarded_or_open :
  forallb (fun reg => well_guarded reg || bool_decide (reg ∈ open_routes)) all_routes = true.
Proof. vm_compute. reflexivity. Qed.

Lemma chain_of_route (reg : registration) :
  reg ∈ all_routes → reg ∉ open_routes →
  chain reg = user_only ∨ chain reg = admin_only.
Proof.
  intros Hin Hopen.
  pose proof routes_guarded_or_open as H.
  rewrite forallb_forall in H. apply list_elem_of_In, H in Hin.
  apply orb_true_iff in Hin as [Hg|Ho].
  - apply orb_true_iff in Hg as [Hg|Hg]; apply bool_decide_eq_true in Hg; auto.
  - by apply bool_decide_eq_true in Ho.
Qed.

Lemma open_route_chain (reg : registration) :
  reg ∈ open_routes → chain reg = [].
Proof.
  intros Hin. unfold open_routes, legacy_vehicles_routes, router in Hin. simpl in Hin.
  repeat (apply elem_of_cons in Hin as [->|Hin]; [done|]).
  by apply elem_of_nil in Hin.
Qed.

Section Facts.

Variable auth : middleware → request → verdict.

(** An open route hands every request to its handler. *)
Lemma open_route_serves (reg : registration) (h : handler) (req : request) (d : db) :
  reg ∈ open_routes → serve auth reg h req d = h req d.
Proof. intros Hin. unfold serve. by rewrite (open_route_chain reg Hin). Qed.


End Facts.
End RoutingFacts.

Module RoutingExamples.
Import Routing RoutingFacts Sample.

Definition anonymous : request := {| authorization := None; req_user := None |}.

Definition sample_verify (token : string) : option user :=
  if (token =? "alice-token")%string then Some alice_user
  else if (token =? "admin-token")%string then Some admin_user
  else None.

Definition bearer (token : string) : request :=
  {| authorization := Some ("Bearer " +:+ token); req_user := None |}.

Definition pending_route : registration :=
  {| mount := "/api/announcements"; method := GET; path := "/pending"; chain := [] |}.

Definition list_travelers : registration :=
  {| mount := "/api/travelers"; method := GET; path := "/"; chain := admin_only |}.

(** A middleware that answers every request itself: no token is valid. *)
Definition refuse_all (m : middleware) (req : request) : verdict :=
  Respond (status_json 401 (error "Access token required")).


Example anonymous_is_refused :
  bearer_check sample_verify authenticateToken anonymous
  = Respond (status_json 401 (error "Access token required")).
Proof. reflexivity. Qed.

(** The login route answers a request without a token with a token. *)
Example login_without_token :
  status (serve (bearer_check sample_verify)
            {| mount := "/api/travelers"; method := POST; path := "/login"; chain := [] |}
            (fun _ => Travelers.login sample_bcrypt sample_jwt (Some "s3cret")
                        (Some "alice@example.com") (Some "secret"))
            anonymous sample_db).1 = 200.
Proof. vm_compute. reflexivity. Qed.

Example admin_route_with_user_token :
  serve (bearer_check sample_verify) list_travelers
    (fun _ d => (json JNull, empty_db)) (bearer "alice-token") sample_db
  = (status_json 403 (error "Admin access required"), sample_db).
Proof. reflexivity. Qed.

Example admin_route_with_admin_token :
  serve (bearer_check sample_verify) list_travelers
    (fun req d => (json (from_option (fun u => JStr (user_email u)) JNull (req_user req)), d))
    (bearer "admin-token") sample_db
  = (json (JStr "admin@example.com"), sample_db).
Proof. reflexivity. Qed.


End RoutingExamples.

(** ** Further properties of the check-in routes *)

Module CheckInsLifecycle.
Import Travelers TravelersLogin CheckIns CheckInsFacts.

Section Facts.

Variable int_eq_param : Z → string → bool.
Variable Date_parse : string → option Z.
Variable toISOString : Z → string.

Abbreviation my_status := (my_status Date_parse toISOString).
Abbreviation normalizeDate := (normalizeDate Date_parse toISOString).
Abbreviation checkout := (checkout int_eq_param).
Abbreviation clear_vehicle := (clear_vehicle int_eq_param).

(** The vehicle GET /my-status settles on, read off the tables: the day's
    allotment when there is one, else the traveler's own vehicle; [None]
    when one of the two queries fails. *)
Definition resolved_vehicle (now : Z) (u : user) (date : option string) (d : db)
  : option jsval :=
  if unavailable d Travelers then None
  else
    let traveler :=
      head (filter (fun t => strict_eq (field t "email") (JStr (user_email u)) = true)
                   (travelers d)) in
    let base := from_option (fun t => field t "vehicle_id") JNull traveler in
    let pick (dayVehicle : jsval) :=
      if negb (truthy dayVehicle) && truthy base then base else dayVehicle in
    match traveler, normalizeDate now date with
    | Some t, Some day =>
        if truthy (field t "id") && negb (day =? "")%string then
          if unavailable d VehicleAllotments then None
          else Some (pick
                 match filter (fun a => allotment_for (field t "id") day a = true)
                              (vehicle_allotments d) with
                 | a :: _ => if negb (va_vehicle_id a =? 0)
                             then JNum (va_vehicle_id a) else JNull
                 | [] => JNull
                 end)
        else Some (pick JNull)
    | _, _ => Some (pick JNull)
    end.

(** The active check-ins of one traveler in one vehicle, as the route
    selects them. *)
Definition checked_in (vehicleId : jsval) (email : string) (d : db) : list check_in :=
  filter (fun c => strict_eq (JNum (ci_vehicle_id c)) vehicleId
                   && (ci_traveler_email c =? email)%string
                   && (ci_active c =? 1) = true) (check_ins d).

Definition report (vehicleId : jsval) (email : string) (isCheckedIn : bool) : jsval :=
  obj [("vehicleId", vehicleId); ("active", JBool true);
       ("checkedIn", if isCheckedIn then JArr [JStr email] else JArr []);
       ("isCheckedIn", JBool isCheckedIn)].

Lemma my_status_eval (now : Z) (u : user) (date : option string) (d : db) :
  (my_status now u date d).1 =
  match resolved_vehicle now u date d with
  | None => json safe_default
  | Some vehicleId =>
      if negb (truthy vehicleId) || unavailable d CheckIns then json safe_default
      else json (report vehicleId (user_email u)
                   (negb (bool_decide (checked_in vehicleId (user_email u) d = []))))
  end.
Proof.
  unfold CheckIns.my_status, route, CheckIns.my_status_body, resolved_vehicle,
    select_by_email, select, checked_in, report, mbind, M_bind, on_table, get_db,
    mret, M_ret.
  destruct (unavailable d Travelers); [done|].
  destruct (head _) as [t|]; simpl.
  - destruct (normalizeDate now date) as [day|]; simpl.
    + destruct (truthy (field t "id") && negb (day =? "")%string); simpl.
      * destruct (unavailable d VehicleAllotments); [done|].
        destruct (negb (truthy _)); simpl; [done|].
        destruct (unavailable d CheckIns); [done|]. simpl.
        by destruct (bool_decide _).
      * destruct (negb (truthy _)); simpl; [done|].
        destruct (unavailable d CheckIns); [done|]. simpl.
        by destruct (bool_decide _).
    + destruct (negb (truthy _)); simpl; [done|].
      destruct (unavailable d CheckIns); [done|]. simpl.
      by destruct (bool_decide _).
  - destruct (normalizeDate now date) as [day|]; simpl; done.
Qed.

Lemma report_vehicle (vehicleId : jsval) (email : string) (b : bool) :
  prop (report vehicleId email b) "vehicleId" = vehicleId.
Proof. unfold report, obj, prop. simpl. by rewrite lookup_insert_eq. Qed.

(** What GET /my-status reported before tells which vehicle it settled on. *)
Lemma reported_vehicle (now : Z) (u : user) (date : option string) (d : db) (v : Z) :
  prop (body (my_status now u date d).1) "vehicleId" = JNum v →
  resolved_vehicle now u date d = Some (JNum v) ∧ v ≠ 0 ∧ unavailable d CheckIns = false.
Proof.
  rewrite my_status_eval.
  destruct (resolved_vehicle now u date d) as [vid|]; [|by vm_compute].
  destruct (truthy vid) eqn:Et; cbn [negb orb]; [|by vm_compute].
  destruct (unavailable d CheckIns); [by vm_compute|]. cbn [body json].
  rewrite report_vehicle. intros ->. repeat split.
  simpl in Et. intros ->. done.
Qed.

(** X1. DELETE /api/check-ins/vehicle/:vehicleId answers 200 and leaves no
    active check-in in that vehicle; it adds and removes no row, and the
    check-ins of other vehicles, like those that were already checked out,
    stay exactly as they were.  When the table cannot be written the answer
    is 500 and nothing changes. *)
Theorem clear_vehicle_clears (now : Z) (vehicleId : string) (d : db) :
  (unavailable d CheckIns = false →
   (clear_vehicle now vehicleId d).1
   = json (obj [("message", JStr "All check-ins cleared for vehicle")]) ∧
   length (check_ins (clear_vehicle now vehicleId d).2) = length (check_ins d) ∧
   (∀ c, c ∈ check_ins (clear_vehicle now vehicleId d).2 →
         int_eq_param (ci_vehicle_id c) vehicleId = true → ci_active c ≠ 1) ∧
   (∀ c, c ∈ check_ins d →
         int_eq_param (ci_vehicle_id c) vehicleId = false ∨ ci_active c ≠ 1 →
         c ∈ check_ins (clear_vehicle now vehicleId d).2)) ∧
  (unavailable d CheckIns = true →
   clear_vehicle now vehicleId d
   = (status_json 500 (error "Failed to clear check-ins"), d)).
Proof.
  unfold CheckIns.clear_vehicle, route, mbind, M_bind, on_table, modify_db, mret, M_ret.
  split; intros Hav; rewrite Hav; [|done]. simpl.
  split; [done|]. split; [by rewrite length_fmap|]. split.
  - intros c Hc Hv. apply list_elem_of_fmap in Hc as (c0 & -> & Hc0).
    destruct (int_eq_param (ci_vehicle_id c0) vehicleId && (ci_active c0 =? 1)) eqn:E.
    + done.
    + simpl in Hv. rewrite Hv in E. simpl in E. by apply Z.eqb_neq in E.
  - intros c Hc Hkeep. apply list_elem_of_fmap. exists c. split; [|done].
    destruct Hkeep as [Hv|Ha].
    + by rewrite Hv.
    + apply Z.eqb_neq in Ha. by rewrite Ha, andb_false_r.
Qed.

(** X2. POST /api/check-ins/:id/checkout changes nothing unless it answers
    200: an unknown id is answered 404 and a traveler who is neither an
    admin nor the one checked in is answered 403, both with the table left
    as it was. *)
Theorem checkout_refusals (now : Z) (u : user) (id : string) (d : db) :
  (status (checkout now u id d).1 ≠ 200 → (checkout now u id d).2 = d) ∧
  (unavailable d CheckIns = false →
   List.find (fun c => int_eq_param (ci_id c) id) (check_ins d) = None →
   checkout now u id d = (status_json 404 (error "Check-in not found"), d)) ∧
  (∀ c, unavailable d CheckIns = false →
        List.find (fun c => int_eq_param (ci_id c) id) (check_ins d) = Some c →
        user_isAdmin u = false → ci_traveler_email c ≠ user_email u →
        checkout now u id d
        = (status_json 403 (denied "You can only check out yourself"), d)).
Proof.
  pose proof (filter_head_find (fun c => int_eq_param (ci_id c) id) (check_ins d)) as Hh.
  unfold CheckIns.checkout, route, select, mbind, M_bind, on_table, get_db, modify_db,
    mret, M_ret.
  split; [|split].
  - destruct (unavailable d CheckIns) eqn:Hav; [done|].
    destruct (filter _ (check_ins d)) as [|c rest]; [done|].
    destruct (negb (user_isAdmin u) && _); [done|]. rewrite Hav. simpl. done.
  - intros Hav Hfind. rewrite Hav. rewrite Hfind in Hh.
    by destruct (filter _ (check_ins d)).
  - intros c Hav Hfind Hu Hne. rewrite Hav. rewrite Hfind in Hh.
    destruct (filter _ (check_ins d)) as [|c0 rest]; [done|]. injection Hh as ->.
    apply String.eqb_neq in Hne. by rewrite Hu, Hne.
Qed.

(** X3. A check-in shows in the status: when GET /my-status reports vehicle
    [v] for a traveler and that traveler's POST /api/check-ins for [v] is
    answered 201, the next GET /my-status reports the same vehicle with the
    traveler checked in. *)
Theorem check_in_shows_in_status
    (now now' : Z) (u : user) (b : check_in_body) (date : option string) (d : db) (v : Z) :
  status (create_check_in now u b d).1 = 201 →
  travelerEmail b = Some (user_email u) →
  parseInt (vehicleId b) = Some v →
  prop (body (my_status now' u date d).1) "vehicleId" = JNum v →
  (my_status now' u date (create_check_in now u b d).2).1
  = json (report (JNum v) (user_email u) true).
Proof.
  intros Hok He Hv Hrep.
  apply reported_vehicle in Hrep as (Hres & Hv0 & Hav).
  destruct (create_check_in now u b d) as [r d'] eqn:E. simpl in Hok |- *.
  apply create_check_in_run in E
    as [[_ Hno]|(v' & e & tid & Hv' & _ & He' & _ & _ & _ & ->)]; [done|].
  assert (v' = v) as -> by congruence. assert (e = user_email u) as -> by congruence.
  rewrite my_status_eval.
  change (resolved_vehicle now' u date (set_check_ins _ (set_next_id _ _ d)))
    with (resolved_vehicle now' u date d).
  rewrite Hres. cbn [truthy unavailable set_check_ins set_next_id].
  apply Z.eqb_neq in Hv0. rewrite Hv0, Hav. simpl.
  rewrite bool_decide_eq_false_2; [done|].
  unfold checked_in. cbn [check_ins set_check_ins]. rewrite filter_app.
  rewrite (filter_cons_True _ (new_check_in _ _ _ _ _)).
  - by destruct (filter _ (check_ins d)).
  - simpl. by rewrite Z.eqb_refl, String.eqb_refl.
Qed.

Lemma at_most_one {A : Type} (P : A → bool) (l : list A) (x y : A) :
  (length (filter (fun a => P a = true) l) ≤ 1)%nat →
  x ∈ l → y ∈ l → P x = true → P y = true → x = y.
Proof.
  intros Hlen Hx Hy Px Py.
  assert (x ∈ filter (fun a => P a = true) l) as Hfx by by apply list_elem_of_filter.
  assert (y ∈ filter (fun a => P a = true) l) as Hfy by by apply list_elem_of_filter.
  destruct (filter _ l) as [|a [|b rest]]; simpl in Hlen; [|clear Hlen|lia].
  - by apply elem_of_nil in Hfx.
  - apply list_elem_of_singleton in Hfx, Hfy. congruence.
Qed.

(** X4. A check-out shows in the status: with at most one active check-in
    per vehicle and traveler, when GET /my-status reports vehicle [v] and
    the traveler checks out of their active check-in in [v], the next GET
    /my-status reports the same vehicle with nobody checked in. *)
Theorem check_out_shows_in_status
    (now now' : Z) (u : user) (id : string) (date : option string) (d : db)
    (c : check_in) (v : Z) :
  unique_active d →
  List.find (fun c => int_eq_param (ci_id c) id) (check_ins d) = Some c →
  active_for v (user_email u) c = true →
  prop (body (my_status now' u date d).1) "vehicleId" = JNum v →
  (checkout now u id d).1 = json (obj [("message", JStr "Checked out successfully")])
  ∧ (my_status now' u date (checkout now u id d).2).1
    = json (report (JNum v) (user_email u) false).
Proof.
  intros Huniq Hfind Hact Hrep.
  apply reported_vehicle in Hrep as (Hres & Hv0 & Hav).
  assert (ci_traveler_email c = user_email u) as Hown.
  { unfold active_for in Hact. rewrite !andb_true_iff in Hact.
    destruct Hact as [[_ He] _]. by apply String.eqb_eq in He. }
  rewrite (checkout_sets_inactive int_eq_param now u id d c Hav Hfind (or_intror Hown)).
  split; [done|]. cbn [snd].
  rewrite my_status_eval.
  change (resolved_vehicle now' u date (set_check_ins _ d))
    with (resolved_vehicle now' u date d).
  rewrite Hres. cbn [truthy unavailable set_check_ins].
  apply Z.eqb_neq in Hv0. rewrite Hv0, Hav. simpl.
  rewrite bool_decide_eq_true_2; [done|].
  unfold checked_in. cbn [check_ins set_check_ins].
  apply filter_nil_iff. intros c' Hc'.
  apply list_elem_of_fmap in Hc' as (c0 & -> & Hc0).
  destruct (int_eq_param (ci_id c0) id) eqn:Eid; [simpl; by rewrite andb_false_r|].
  destruct (_ && _) eqn:E; [|done].
  assert (active_for v (user_email u) c0 = true) as Hact0.
  { unfold active_for. rewrite !andb_true_iff in E |- *. simpl in E.
    destruct E as [[Hv' ->] ->]. apply Z.eqb_eq in Hv'. rewrite Hv', Z.eqb_refl. done. }
  apply find_some in Hfind as [Hin Hid]. apply list_elem_of_In in Hin.
  assert (c0 = c) as -> by by eapply (at_most_one (active_for v (user_email u))).
  congruence.
Qed.

End Facts.
End CheckInsLifecycle.

(** ** A day's allotment, from the admin's save to the traveler's status *)

Module AllotmentStatus.
Import Travelers CheckIns Allotments CheckInsLifecycle.

Section Facts.

Variable Date_new : jsval → option Z.
Variable Date_parse : string → option Z.
Variable toISOString : Z → string.

Abbreviation save_allotment := (save_allotment Date_new toISOString).
Abbreviation my_status := (CheckIns.my_status Date_parse toISOString).

(** After an upsert the first row of the pair carries the new vehicle. *)
Lemma upsert_first (new : allotment) (l : list allotment) :
  va_vehicle_id <$>
    head (filter (fun a => allotment_for (JNum (va_traveler_id new)) (va_date new) a = true)
                 (upsert new l))
  = Some (va_vehicle_id new).
Proof.
  assert (∀ a, allotment_for (JNum (va_traveler_id new)) (va_date new) a
               = same_key new a) as Hsame.
  { intros a. unfold allotment_for, same_key. simpl.
    rewrite (Z.eqb_sym (va_traveler_id a)), (String.eqb_sym (va_date a)).
    apply andb_comm. }
  unfold upsert. destruct (existsb (same_key new) l) eqn:E.
  - induction l as [|a l IH]; [discriminate|].
    rewrite fmap_cons, filter_cons. simpl in E. destruct (same_key new a) eqn:Ea.
    + rewrite decide_True; [done|]. rewrite Hsame. unfold same_key in *. done.
    + rewrite decide_False; [by apply IH|]. by rewrite Hsame, Ea.
  - rewrite filter_app.
    assert (filter (fun a => allotment_for (JNum (va_traveler_id new)) (va_date new) a = true) l
            = []) as ->.
    { apply CheckInsFacts.filter_nil_iff. intros a Ha. rewrite Hsame.
      destruct (same_key new a) eqn:Ea; [|done].
      assert (existsb (same_key new) l = true) as Hex; [|congruence].
      apply existsb_exists. exists a. split; [by apply list_elem_of_In|done]. }
    simpl. rewrite filter_cons, decide_True; [done|].
    rewrite Hsame. unfold same_key. by rewrite String.eqb_refl, Z.eqb_refl.
Qed.


End Facts.
End AllotmentStatus.

Module LifecycleExamples.
Import Travelers CheckIns CheckInsFacts CheckInsLifecycle AllotmentStatus Sample.
Import CheckInsExamples MyStatusExamples.

Lemma clear_vehicle_clears_witness :
  (clear_vehicle sample_id_eq 9500 "1" checkin_db).1
  = json (obj [("message", JStr "All check-ins cleared for vehicle")]) ∧
  length (check_ins (clear_vehicle sample_id_eq 9500 "1" checkin_db).2)
  = length (check_ins checkin_db) ∧
  (∀ c, c ∈ check_ins (clear_vehicle sample_id_eq 9500 "1" checkin_db).2 →
        sample_id_eq (ci_vehicle_id c) "1" = true → ci_active c ≠ 1) ∧
  (∀ c, c ∈ check_ins checkin_db →
        sample_id_eq (ci_vehicle_id c) "1" = false ∨ ci_active c ≠ 1 →
        c ∈ check_ins (clear_vehicle sample_id_eq 9500 "1" checkin_db).2).
Proof.
  apply (proj1 (clear_vehicle_clears sample_id_eq 9500 "1" checkin_db)). reflexivity.
Defined.

Example clear_vehicle_example :
  check_ins (clear_vehicle sample_id_eq 9500 "1" checkin_db).2 = [check_out 9500 alice_on_bus].
Proof. reflexivity. Qed.

Lemma checkout_refusals_witness :
  checkout sample_id_eq 9500 bob_user "1" checkin_db
  = (status_json 403 (denied "You can only check out yourself"), checkin_db) ∧
  checkout sample_id_eq 9500 bob_user "7" checkin_db
  = (status_json 404 (error "Check-in not found"), checkin_db).
Proof.
  destruct (checkout_refusals sample_id_eq 9500 bob_user "1" checkin_db) as (_ & _ & H403).
  destruct (checkout_refusals sample_id_eq 9500 bob_user "7" checkin_db) as (_ & H404 & _).
  split.
  - apply (H403 alice_on_bus); [reflexivity|reflexivity|reflexivity|].
    vm_compute. discriminate.
  - apply H404; reflexivity.
Defined.

Lemma check_in_shows_in_status_witness :
  (my_status sample_Date_parse sample_iso 9600 alice_user None
     (create_check_in 9000 alice_user for_alice sample_db).2).1
  = json (report (JNum 1) "alice@example.com" true).
Proof.
  apply (check_in_shows_in_status sample_Date_parse sample_iso 9000 9600 alice_user
           for_alice None sample_db 1); reflexivity.
Defined.

Lemma check_out_shows_in_status_witness :
  (checkout sample_id_eq 9500 alice_user "1" checkin_db).1
  = json (obj [("message", JStr "Checked out successfully")]) ∧
  (my_status sample_Date_parse sample_iso 9600 alice_user None
     (checkout sample_id_eq 9500 alice_user "1" checkin_db).2).1
  = json (report (JNum 1) "alice@example.com" false).
Proof.
  apply (check_out_shows_in_status sample_id_eq sample_Date_parse sample_iso 9500 9600
           alice_user "1" None checkin_db alice_on_bus 1);
    [apply unique_active_checkin_db|reflexivity..].
Defined.


End LifecycleExamples.

(** ** Further properties of the post routes *)

Module PostsDeleting.
Import Posts.

(** DELETE /:id, behind [authenticateToken].  [post_media] and [post_tags]
    reference [posts] with ON DELETE CASCADE. *)
Definition delete_post (u : user) (id : string) : db → response * db :=
  route
    (match parseInt_string id with
     | None => mret (status_json 400 (error "Invalid post ID"))
     | Some postId =>
         if postId <=? 0 then mret (status_json 400 (error "Invalid post ID"))
         else
           rows ← select Posts posts (fun p => p_id p =? postId) ;
           match rows with
           | [] => mret (status_json 404 (error "Post not found"))
           | post :: _ =>
               if negb (user_isAdmin u) && negb (p_author_email post =? user_email u)%string
               then mret (status_json 403 (denied "You can only delete your own posts"))
               else
                 on_table Posts ;;
                 modify_db (fun d =>
                   set_posts (filter (fun p => p_id p ≠ postId) (posts d))
                     (set_post_media (filter (fun m => pm_post_id m ≠ postId) (post_media d))
                        (set_post_tags (filter (fun t => pt_post_id t ≠ postId) (post_tags d))
                           d))) ;;
                 mret (json (obj [("message", JStr "Post deleted successfully")]))
           end
     end)
    (fun _ => status_json 500 (error "Failed to delete post")).

End PostsDeleting.

Module PostsOwnership.
Import Posts PostsWriting PostsApproval PostsDeleting.

(** The row POST / builds for a body. *)
Definition new_post (now : Z) (body : jsval) (section : option Z) (id : Z) : post :=
  {| p_id := id;
     p_author_email :=
       to_string (js_or (js_or (prop body "authorEmail") (prop body "email")) (JStr ""));
     p_author_name := js_or (js_or (prop body "authorName") (prop body "author")) (JStr "");
     p_author_image_url := toEmpty (prop body "authorImage");
     p_place := toEmpty (prop body "place");
     p_location := toEmpty (prop body "location");
     p_section_id := section;
     p_description := toEmpty (prop body "description");
     p_lat := toNull (prop body "lat");
     p_lng := toNull (prop body "lng");
     p_approved := tinyint (flag (prop body "approved"));
     p_is_private := tinyint (flag (prop body "isPrivate"));
     p_created_at := now |}.

(** What POST / does to the [posts] table: nothing, or one new row at the
    end, built from the body. *)
Lemma create_post_appends (now : Z) (u : user) (body : jsval) (d : db) :
  posts (create_post now u body d).2 = posts d ∨
  ∃ section id,
    posts (create_post now u body d).2 = (posts d ++ [new_post now body section id])%list.
Proof.
  destruct (create_post now u body d) as [r d'] eqn:H. simpl.
  unfold create_post in H. apply route_state in H as [r0 H0].
  destruct (negb (user_isAdmin u) && _); [injection H0 as _ <-; by left|].
  pose proof (getSectionId_state (prop body "section") d) as Hs.
  apply bind_inv in H0 as [(finalSection & d1 & H1 & H)|(e & H1 & _)].
  2:{ left. rewrite H1 in Hs. simpl in Hs. by subst. }
  rewrite H1 in Hs. simpl in Hs. subst d1. clear H1.
  destruct (match finalSection with JNull | JUndefined => _ | _ => _ end)
    as [sectionIdForInsert|]; [|injection H as _ <-; by left].
  apply bind_inv in H as [(postId & d1 & H1 & H)|(e & H1 & _)].
  2:{ apply insert_post_stores in H1 as [H1|[id H1]]; [by left|right].
      by exists sectionIdForInsert, id. }
  assert (posts d' = posts d1) as ->.
  { apply bind_inv in H as [([] & d2 & H2 & H)|(e & H2 & _)].
    - pose proof (keeps_posts_insert_media postId 0 (items (prop body "media")) d1) as Hm.
      rewrite H2 in Hm. simpl in Hm. rewrite <- Hm.
      apply bind_inv in H as [([] & d3 & H3 & H)|(e & H3 & _)].
      + pose proof (keeps_posts_insert_tags postId (items (prop body "tags")) d2) as Ht.
        rewrite H3 in Ht. simpl in Ht. rewrite <- Ht. by injection H as _ <-.
      + pose proof (keeps_posts_insert_tags postId (items (prop body "tags")) d2) as Ht.
        rewrite H3 in Ht. done.
    - pose proof (keeps_posts_insert_media postId 0 (items (prop body "media")) d1) as Hm.
      rewrite H2 in Hm. done. }
  apply insert_post_stores in H1 as [H1|[id H1]]; [by left|right].
  by exists sectionIdForInsert, id.
Qed.

(** X6. A traveler cannot post under another name: POST /api/posts by a
    requester who is not an admin either stores nothing or appends exactly
    one post, stamped with the time of the request, whose author email is
    the requester's own or, when the body names none, empty; a body that
    names someone else's email is answered 403 and stores nothing. *)
Theorem create_post_attribution (now : Z) (u : user) (body : jsval) (d : db) :
  user_isAdmin u = false →
  (posts (create_post now u body d).2 = posts d ∨
   ∃ p, posts (create_post now u body d).2 = (posts d ++ [p])%list ∧
        (p_author_email p = user_email u ∨ p_author_email p = "") ∧
        p_created_at p = now) ∧
  (∀ other : string,
     js_or (prop body "authorEmail") (prop body "email") = JStr other →
     other ≠ "" → other ≠ user_email u →
     create_post now u body d
     = (status_json 403 (denied "You can only create posts for yourself"), d)).
Proof.
  intros Hu. split.
  - destruct (create_post_appends now u body d) as [H|(section & id & H)]; [by left|].
    destruct (negb (strict_eq (js_or (js_or (prop body "authorEmail") (prop body "email"))
                                      (JStr (user_email u)))
                              (JStr (user_email u)))) eqn:Eg.
    + left. unfold create_post, route. by rewrite Hu, Eg.
    + right. eexists. split; [exact H|]. split; [|done]. simpl.
      apply negb_false_iff in Eg.
      set (named := js_or (prop body "authorEmail") (prop body "email")) in *.
      unfold js_or in Eg |- *. destruct (truthy named).
      * left. destruct named; try discriminate.
        simpl in Eg. by apply String.eqb_eq in Eg.
      * by right.
  - intros other Hother Hne Hneq. unfold create_post, route. rewrite Hu, Hother.
    unfold js_or. simpl. apply String.eqb_neq in Hne, Hneq. rewrite Hne. simpl.
    by rewrite Hneq.
Qed.

(** [UPDATE posts SET ... WHERE id = ?] keeps whatever the SET list keeps
    on the rows it reaches. *)
Lemma update_where_id_reaches {B : Type} (g : post → B) (postId : Z)
    (f : post → result post) (d d' : db) (r : result unit) :
  (∀ x y, p_id x = postId → f x = Ok y → g y = g x) →
  update_where_id postId f d = (r, d') → g <$> posts d' = g <$> posts d.
Proof.
  intros Hf. unfold update_where_id, mbind, M_bind, on_table, get_db, lift, modify_db.
  destruct (unavailable d Posts); [by intros [= _ <-]|].
  destruct (map_result _ (posts d)) as [rows|e] eqn:Em; [|by intros [= _ <-]].
  intros [= _ <-]. simpl. eapply map_result_keeps; [|exact Em].
  intros x y. simpl. destruct (Z.eqb_spec (p_id x) postId) as [E|_].
  - by apply Hf.
  - by intros [= <-].
Qed.

(** What PUT /:id keeps on the rows of [posts]: anything that its SET list
    keeps on the rows with the id of the request. *)
Lemma update_post_preserves {B : Type} (g : post → B)
    (u : user) (id : string) (body : jsval) (d : db) :
  (∀ n x y, parseInt_string id = Some n → p_id x = n →
            apply_update u body d x = Ok y → g y = g x) →
  g <$> posts (update_post u id body d).2 = g <$> posts d.
Proof.
  intros Hg. destruct (update_post u id body d) as [r d'] eqn:H. simpl.
  unfold update_post in H. apply route_state in H as [r0 H].
  destruct (parseInt_string id) as [postId|]; [|by injection H as _ <-].
  destruct (postId <=? 0); [by injection H as _ <-|].
  apply bind_inv in H as [(rows & d1 & H1 & H)|(e & H1 & _)];
    apply CheckInsFacts.select_run in H1 as [-> _]; [|done].
  destruct rows as [|post rest]; [by injection H as _ <-|].
  destruct (negb (user_isAdmin u) && _); [by injection H as _ <-|].
  apply bind_inv in H as [(d0 & d1 & [= <- <-] & H)|(e & [=] & _)].
  assert (keeps_posts
            (match prop body "media" with
             | JUndefined => mret ()
             | JNull => replace_media postId [] ;; throw "TypeError"
             | media => replace_media postId (items media)
             end)) as Hmedia.
  { destruct (prop body "media"); try apply keeps_posts_replace_media;
      [apply keeps_posts_ret|].
    apply keeps_posts_bind; [apply keeps_posts_replace_media|intros _].
    apply keeps_posts_throw. }
  assert (keeps_posts
            (match prop body "tags" with
             | JUndefined => mret ()
             | JNull => replace_tags postId [] ;; throw "TypeError"
             | tags => replace_tags postId (items tags)
             end)) as Htags.
  { destruct (prop body "tags"); try apply keeps_posts_replace_tags;
      [apply keeps_posts_ret|].
    apply keeps_posts_bind; [apply keeps_posts_replace_tags|intros _].
    apply keeps_posts_throw. }
  apply bind_inv in H as [([] & d1 & H1 & H)|(e & H1 & _)].
  2:{ eapply update_where_id_reaches; [|exact H1]. intros x y. by apply Hg. }
  apply (update_where_id_reaches g) in H1; [|intros x y; by apply Hg].
  rewrite <- H1. f_equal.
  apply bind_inv in H as [([] & d2 & H2 & H)|(e & H2 & _)].
  2:{ by apply (keeps_posts_state _ _ _ _ Hmedia) in H2. }
  apply (keeps_posts_state _ _ _ _ Hmedia) in H2. rewrite <- H2.
  apply bind_inv in H as [([] & d3 & H3 & H)|(e & H3 & _)].
  2:{ by apply (keeps_posts_state _ _ _ _ Htags) in H3. }
  apply (keeps_posts_state _ _ _ _ Htags) in H3. rewrite <- H3.
  by injection H as _ <-.
Qed.

Lemma apply_update_identity (u : user) (body : jsval) (d : db) (p p' : post) :
  apply_update u body d p = Ok p' →
  p_id p' = p_id p ∧ p_author_email p' = p_author_email p ∧
  p_author_name p' = p_author_name p ∧ p_created_at p' = p_created_at p ∧
  p_is_private p' = p_is_private p.
Proof.
  unfold apply_update.
  destruct (match prop body "section" with JUndefined => _ | _ => _ end); simpl;
    [|discriminate].
  destruct (negb (strict_eq (prop body "approved") JUndefined) && user_isAdmin u);
    [destruct (to_tinyint (prop body "approved")); simpl; [|discriminate]|simpl];
    by intros [= <-].
Qed.

(** X7. Editing is not approving: PUT /api/posts/:id by a requester who is
    not an admin leaves the approved flag of every post as it was, whatever
    the body says and whatever the answer is. *)
Theorem update_post_never_approves (u : user) (id : string) (body : jsval) (d : db) :
  user_isAdmin u = false →
  p_approved <$> posts (update_post u id body d).2 = p_approved <$> posts d.
Proof.
  intros Hu. apply update_post_preserves. intros n x y _ _.
  by apply apply_update_author.
Qed.

(** X8. PUT /api/posts/:id adds and removes no post and never changes a
    post's id, author or creation time, whoever asks; and a post with
    another id than the one of the request stays in its place exactly as it
    was. *)
Theorem update_post_keeps_identity (u : user) (id : string) (body : jsval) (d : db) :
  p_id <$> posts (update_post u id body d).2 = p_id <$> posts d ∧
  p_author_email <$> posts (update_post u id body d).2 = p_author_email <$> posts d ∧
  p_created_at <$> posts (update_post u id body d).2 = p_created_at <$> posts d ∧
  (∀ (n : Z) (i : nat) (p : post),
     parseInt_string id = Some n → posts d !! i = Some p → p_id p ≠ n →
     posts (update_post u id body d).2 !! i = Some p).
Proof.
  repeat split.
  - apply update_post_preserves. intros n x y _ _ H.
    by apply apply_update_identity in H as (? & _).
  - apply update_post_preserves. intros n x y _ _ H.
    by apply apply_update_identity in H as (_ & ? & _).
  - apply update_post_preserves. intros n x y _ _ H.
    by apply apply_update_identity in H as (_ & _ & _ & ? & _).
  - intros n i p Hn Hi Hne.
    pose proof (update_post_preserves
                  (fun q => if p_id q =? n then None else Some q) u id body d) as Hk.
    assert ((fun q => if p_id q =? n then None else Some q)
              <$> posts (update_post u id body d).2 !! i
            = Some (Some p)) as Hi'.
    { rewrite <- list_lookup_fmap, Hk, list_lookup_fmap, Hi; simpl.
      - apply Z.eqb_neq in Hne. by rewrite Hne.
      - intros n' x y Hn' Hx H. assert (n' = n) as -> by congruence.
        apply apply_update_identity in H as (Hid & _).
        rewrite Hid, Hx, Z.eqb_refl. done. }
    destruct (posts (update_post u id body d).2 !! i) as [q|]; [|discriminate].
    simpl in Hi'. destruct (p_id q =? n); [discriminate|]. congruence.
Qed.

Lemma map_result_where {A : Type} (c : A → bool) (f : A → A) (l : list A) :
  map_result (fun x => if c x then Ok (f x) else Ok x) l
  = Ok ((fun x => if c x then f x else x) <$> l).
Proof.
  induction l as [|x l IH]; simpl; [done|]. rewrite IH. by destruct (c x).
Qed.

(** [approved === true || approved === 'true' || approved === 1]. *)
Definition approved_value (body : jsval) : bool :=
  strict_eq (prop body "approved") (JBool true)
  || strict_eq (prop body "approved") (JStr "true")
  || strict_eq (prop body "approved") (JNum 1).

Definition with_approved (b : bool) (p : post) : post :=
  {| p_id := p_id p; p_author_email := p_author_email p;
     p_author_name := p_author_name p; p_author_image_url := p_author_image_url p;
     p_place := p_place p; p_location := p_location p;
     p_section_id := p_section_id p; p_description := p_description p;
     p_lat := p_lat p; p_lng := p_lng p;
     p_approved := tinyint b; p_is_private := p_is_private p;
     p_created_at := p_created_at p |}.

Definition after_approval (body : jsval) (n : Z) (d : db) : list post :=
  (fun p => if p_id p =? n then with_approved (approved_value body) p else p) <$> posts d.

Lemma approve_post_eval (id : string) (body : jsval) (d : db) (n : Z) :
  parseInt_string id = Some n → 0 < n → unavailable d Posts = false →
  approve_post id body d
  = (match filter (fun p => (p_id p =? n) = true) (after_approval body n d) with
     | updatedPost :: _ =>
         json (obj [
           ("message", JStr (if approved_value body then "Post approved successfully"
                             else "Post disapproved successfully"));
           ("post", obj [
              ("id", JNum (p_id updatedPost));
              ("approved", JBool (p_approved updatedPost =? 1));
              ("isPrivate", JBool (p_is_private updatedPost =? 1));
              ("author_email", JStr (p_author_email updatedPost));
              ("place", p_place updatedPost)])])
     | [] => status_json 404 (error "Post not found after update")
     end,
     set_posts (after_approval body n d) d).
Proof.
  intros Hn Hpos Hav. unfold approve_post, route. rewrite Hn.
  assert ((n <=? 0) = false) as -> by lia.
  unfold update_where_id, select, mbind, M_bind, on_table, get_db, lift, modify_db,
    mret, M_ret.
  rewrite Hav.
  rewrite (map_result_where (fun p => p_id p =? n) (with_approved (approved_value body))).
  cbn [unavailable set_posts posts]. rewrite Hav.
  fold (after_approval body n d). by destruct (filter _ _).
Qed.


End PostsOwnership.

Module PostsModeration.
Import Posts PostsReading PostsWriting PostsDeleting PostsOwnership.

Section Facts.

Variable toISOString : Z → string.
Variable parseFloat : jsval → jsval.
Variable int_eq_param : option Z → string → bool.

Abbreviation get_posts := (get_posts toISOString parseFloat int_eq_param).
Abbreviation other_filters := (other_filters int_eq_param).


End Facts.

(** X11. DELETE /api/posts/:id by the author of the post or by an admin
    answers 200 and removes the posts with that id together with their media
    and tags, and nothing else; asked by anyone else it answers 403 and
    removes nothing. *)
Theorem delete_post_removes (u : user) (id : string) (d : db) (n : Z) (p0 : post) :
  parseInt_string id = Some n → 0 < n → unavailable d Posts = false →
  List.find (fun p => p_id p =? n) (posts d) = Some p0 →
  (user_isAdmin u = true ∨ p_author_email p0 = user_email u →
   (delete_post u id d).1 = json (obj [("message", JStr "Post deleted successfully")]) ∧
   (∀ p, p ∈ posts (delete_post u id d).2 ↔ p ∈ posts d ∧ p_id p ≠ n) ∧
   (∀ m, m ∈ post_media (delete_post u id d).2 ↔ m ∈ post_media d ∧ pm_post_id m ≠ n) ∧
   (∀ t, t ∈ post_tags (delete_post u id d).2 ↔ t ∈ post_tags d ∧ pt_post_id t ≠ n)) ∧
  (user_isAdmin u = false → p_author_email p0 ≠ user_email u →
   delete_post u id d
   = (status_json 403 (denied "You can only delete your own posts"), d)).
Proof.
  intros Hn Hpos Hav Hfind.
  pose proof (TravelersLogin.filter_head_find (fun p => p_id p =? n) (posts d)) as Hh.
  rewrite Hfind in Hh.
  unfold delete_post, route. rewrite Hn.
  assert ((n <=? 0) = false) as -> by lia.
  unfold select, mbind, M_bind, on_table, get_db, modify_db, mret, M_ret.
  rewrite Hav. destruct (filter _ (posts d)) as [|p1 rest]; [discriminate|].
  injection Hh as ->. split.
  - intros Hallowed.
    assert (negb (user_isAdmin u) && negb (p_author_email p0 =? user_email u)%string
            = false) as ->.
    { destruct Hallowed as [-> | ->]; [done|]. rewrite String.eqb_refl. apply andb_false_r. }
    rewrite Hav. simpl. split; [done|].
    split; [|split]; intros x; rewrite list_elem_of_filter; tauto.
  - intros Hu Hne. apply String.eqb_neq in Hne. by rewrite Hu, Hne.
Qed.

End PostsModeration.

Module PostsMoreExamples.
Import Posts PostsWriting PostsApproval PostsDeleting PostsOwnership PostsModeration.
Import PostsExamples Sample.

Definition as_alice : jsval :=
  obj [("authorEmail", JStr "alice@example.com"); ("place", JStr "Lumbini")].

Definition edit : jsval :=
  obj [("place", JStr "Jomsom"); ("approved", JBool true)].

Lemma create_post_attribution_witness :
  (posts (create_post 5000 bob_user self_approving_body posts_db).2 = posts posts_db ∨
   ∃ p, posts (create_post 5000 bob_user self_approving_body posts_db).2
        = (posts posts_db ++ [p])%list ∧
        (p_author_email p = user_email bob_user ∨ p_author_email p = "") ∧
        p_created_at p = 5000) ∧
  create_post 5000 bob_user as_alice posts_db
  = (status_json 403 (denied "You can only create posts for yourself"), posts_db).
Proof.
  split.
  - exact (proj1 (create_post_attribution 5000 bob_user self_approving_body posts_db
                    eq_refl)).
  - apply (proj2 (create_post_attribution 5000 bob_user as_alice posts_db eq_refl)
             "alice@example.com"); [reflexivity|discriminate|discriminate].
Defined.

Lemma update_post_never_approves_witness :
  p_approved <$> posts (update_post bob_user "2" edit posts_db).2
  = p_approved <$> posts posts_db.
Proof. apply update_post_never_approves. reflexivity. Defined.

Lemma update_post_keeps_identity_witness :
  p_id <$> posts (update_post bob_user "2" edit posts_db).2 = [1; 2] ∧
  posts (update_post bob_user "2" edit posts_db).2 !! 0%nat = Some temple_post.
Proof.
  destruct (update_post_keeps_identity bob_user "2" edit posts_db) as (Hid & _ & _ & Hrest).
  split; [exact Hid|].
  apply (Hrest 2 0%nat temple_post); [reflexivity|reflexivity|discriminate].
Defined.



Example draft_becomes_visible :
  (fun p => prop p "id") <$>
    (match body (get_posts sample_toISOString sample_parseFloat sample_int_eq
                   (Some alice_user) no_params
                   (approve_post "2" (obj [("approved", JBool true)]) posts_db).2).1
     with JArr l => l | _ => [] end)
  = [JNum 2; JNum 1].
Proof. vm_compute. reflexivity. Qed.

Lemma delete_post_removes_witness :
  ((delete_post bob_user "2" posts_db).1
   = json (obj [("message", JStr "Post deleted successfully")]) ∧
   (∀ p, p ∈ posts (delete_post bob_user "2" posts_db).2 ↔ p ∈ posts posts_db ∧ p_id p ≠ 2) ∧
   (∀ m, m ∈ post_media (delete_post bob_user "2" posts_db).2
         ↔ m ∈ post_media posts_db ∧ pm_post_id m ≠ 2) ∧
   (∀ t, t ∈ post_tags (delete_post bob_user "2" posts_db).2
         ↔ t ∈ post_tags posts_db ∧ pt_post_id t ≠ 2)) ∧
  delete_post alice_user "2" posts_db
  = (status_json 403 (denied "You can only delete your own posts"), posts_db).
Proof.
  split.
  - apply (proj1 (delete_post_removes bob_user "2" posts_db 2 draft_post
                    eq_refl ltac:(lia) eq_refl eq_refl)).
    by right.
  - apply (proj2 (delete_post_removes alice_user "2" posts_db 2 draft_post
                    eq_refl ltac:(lia) eq_refl eq_refl)); [reflexivity|discriminate].
Defined.

End PostsMoreExamples.

(** ** Further properties of the settings routes *)

Module SettingsMore.
Import Settings SettingsFacts.

Section Facts.

Variable number : Type.
Variable object : Type.
Variable Number_toString : number → string.
Variable parseFloat : string → number.
Variable JSON_stringify : value number object → string.
Variable JSON_parse : string → option (value number object).

Abbreviation value := (value number object).
Abbreviation put_setting := (put_setting number object Number_toString JSON_stringify).
Abbreviation put_settings := (put_settings number object Number_toString JSON_stringify).
Abbreviation get_setting := (get_setting number object parseFloat JSON_parse).
Abbreviation encode := (encode number object Number_toString JSON_stringify).
Abbreviation parse_setting := (parse_setting number object parseFloat JSON_parse).
Abbreviation round_trips := (round_trips number object Number_toString parseFloat
                                         JSON_stringify JSON_parse).

(** The row PUT stores for a value. *)
Definition stored (v : value) (type : option string) : setting :=
  {| setting_value := Some (encode v type).1; setting_type := (encode v type).2 |}.

(** What PUT /:key does to the table: nothing, or one row put under the
    key. *)
Lemma put_setting_state (key : string) (v : value) (type : option string) (d : db) :
  (put_setting key v type d).2 = d ∨
  (put_setting key v type d).2 = set_settings (<[key := stored v type]> (settings d)) d.
Proof.
  unfold Settings.put_setting, route, stored.
  destruct (encode v type) as [settingValue settingType].
  unfold upsert_setting, mbind, M_bind, on_table, modify_db, mret, M_ret, throw.
  destruct (unavailable d Db.Settings); [by left|].
  destruct (fits 100 key && fits 65535 settingValue); [|by left].
  destruct (allowed_type settingType); [by right|by left].
Qed.



(** The values PUT / reads back: text as it is, and what round-trips
    through the platform's printing and parsing. *)
Definition reads_back (v : value) : Prop :=
  match v with
  | VString _ _ _ => True
  | _ => round_trips v
  end.

Definition type_of (v : value) : string :=
  match v with
  | VString _ _ _ => "string"
  | _ => inferred_type number object v
  end.

Lemma stored_reads_back (v : value) :
  reads_back v →
  parse_setting (stored v None) = v ∧ setting_type (stored v None) = type_of v.
Proof.
  destruct v as [| |b|n|s|o]; try done; intros Hv;
    try (by apply (encode_decode number object Number_toString parseFloat
                     JSON_stringify JSON_parse _ None Hv)).
Qed.

(** The table after the loop of PUT / has gone through all entries. *)
Definition bulk_state (entries : list (string * value)) (d : db) : db :=
  foldl (fun d e => set_settings (<[e.1 := stored e.2 None]> (settings d)) d) d entries.

Lemma bulk_state_unavailable (entries : list (string * value)) (d : db) :
  unavailable (bulk_state entries d) = unavailable d.
Proof. revert d. induction entries as [|e rest IH]; intros d; simpl; [done|]. by rewrite IH. Qed.

Lemma bulk_state_other (entries : list (string * value)) (d : db) (k : string) :
  k ∉ entries.*1 → settings (bulk_state entries d) !! k = settings d !! k.
Proof.
  revert d. induction entries as [|e rest IH]; intros d Hk; simpl; [done|].
  rewrite fmap_cons, not_elem_of_cons in Hk. destruct Hk as [Hne Hk].
  rewrite IH by done. simpl. by rewrite lookup_insert_ne.
Qed.

Lemma bulk_state_lookup (entries : list (string * value)) (d : db) (k : string) (v : value) :
  NoDup entries.*1 → (k, v) ∈ entries →
  settings (bulk_state entries d) !! k = Some (stored v None).
Proof.
  revert d. induction entries as [|e rest IH]; intros d Hnd Hin; simpl.
  { by apply elem_of_nil in Hin. }
  rewrite fmap_cons in Hnd. apply NoDup_cons in Hnd as [Hnew Hnd].
  apply elem_of_cons in Hin as [<-|Hin].
  - rewrite bulk_state_other by done. simpl. by rewrite lookup_insert_eq.
  - by apply IH.
Qed.

Lemma put_settings_run (entries : list (string * value)) (d : db) :
  unavailable d Db.Settings = false →
  (∀ k v, (k, v) ∈ entries →
          fits 100 k = true ∧ fits 65535 (encode v None).1 = true) →
  put_settings entries d
  = ({| s_status := 200; s_body := Message number object "Settings updated successfully" |},
     bulk_state entries d).
Proof.
  intros Hav Hfit. unfold Settings.put_settings, route.
  unfold mbind at 1, M_bind at 1.
  assert ((fix go (l : list (string * value)) : M unit :=
             match l with
             | [] => mret ()
             | (key, v) :: rest =>
                 let '(settingValue, settingType) := encode v None in
                 upsert_setting key settingValue settingType ;; go rest
             end) entries d = (Ok (), bulk_state entries d)) as ->; [|done].
  revert d Hav. induction entries as [|[k v] rest IH]; intros d Hav; [done|].
  destruct (Hfit k v) as [Hk Hv]; [apply elem_of_cons; by left|].
  assert (allowed_type (encode v None).2 = true) as Hty by by destruct v.
  destruct (encode v None) as [settingValue settingType] eqn:E. simpl in Hv, Hty.
  unfold upsert_setting. unfold mbind, M_bind, on_table, modify_db, mret, M_ret, throw.
  rewrite Hav, Hk, Hv, Hty. simpl.
  fold (@mbind M _). unfold stored. rewrite E. simpl.
  apply IH.
  - intros k' v' Hin. apply Hfit. apply elem_of_cons. by right.
  - done.
Qed.


End Facts.
End SettingsMore.

Module SettingsMoreExamples.
Import Settings SettingsFacts SettingsMore SettingsExamples.

Definition on (v : value Z Empty_set) : db :=
  (put_setting Z Empty_set string_of_Z sample_stringify "alarm_enabled" v None empty_db).2.



(** A string put with the type 'number' does not come back as a string. *)
Example typed_string_is_parsed :
  (get_setting Z Empty_set sample_parseFloat sample_parse "count"
     (put_setting Z Empty_set string_of_Z sample_stringify "count"
        (VString Z Empty_set "12") (Some "number") empty_db).2).1
  = {| s_status := 200; s_body := Setting Z Empty_set "count" (VNumber Z Empty_set 12) "number" |}.
Proof. reflexivity. Qed.

Definition two_entries : list (string * value Z Empty_set) :=
  [("banner", VString Z Empty_set "Welcome"); ("top_contributors_count", VNumber Z Empty_set 5)].


End SettingsMoreExamples.

(** ** Further properties of the announcement routes *)

Module AnnouncementsLifecycle.
Import Travelers Announcements AnnouncementsFacts.

Section Facts.

Variable JSON_parse : string → option jsval.
Variable JSON_stringify : jsval → string.
Variable Date_new : jsval → option Z.

Abbreviation create_announcement := (create_announcement JSON_stringify Date_new).
Abbreviation get_user_announcements := (get_user_announcements JSON_parse).

Lemma one_of_elem (allowed : list string) (x : jsval) :
  one_of allowed x = true → to_string x ∈ allowed.
Proof. destruct x; try done. simpl. apply bool_decide_eq_true. Qed.

(** X15. POST /api/announcements stores nothing unless it answers 201; when
    it does, it appends exactly one announcement, not sent, under a fresh
    id and stamped with the time of the request, whose recipient type,
    display type and timing type are each among the values of the table's
    ENUM columns and whose message is not empty. *)
Theorem create_announcement_invariants (now : Z) (body : jsval) (d : db) :
  (status (create_announcement now body d).1 ≠ 201 ∧ (create_announcement now body d).2 = d)
  ∨ ∃ a,
      status (create_announcement now body d).1 = 201 ∧
      announcements (create_announcement now body d).2 = (announcements d ++ [a])%list ∧
      a_id a = next_id d Db.Announcements ∧ a_sent a = false ∧ a_created_at a = now ∧
      a_recipient_type a ∈ ["all-travelers"; "specific-vehicle"; "specific-traveler"] ∧
      a_display_type a ∈ ["notification"; "banner"; "modal"] ∧
      a_timing_type a ∈ ["instant"; "scheduled"] ∧
      a_message a ≠ "".
Proof.
  unfold Announcements.create_announcement, route.
  destruct (negb (truthy (prop body "message")) || _); [by left|].
  destruct (prop body "recipientType") as [| | | |recipientType| | |]; try by left.
  destruct (negb (bool_decide (dbRecipientType recipientType ∈ _))) eqn:Etype; [by left|].
  destruct (prop body "message") as [| | | |text| | |]; try by left.
  destruct (trim text =? "")%string eqn:Etext; [by left|].
  destruct (_ && negb (bool_decide (is_Some (Date_new (prop body "scheduledTime")))));
    [by left|].
  unfold mbind, M_bind, on_table, fresh_id, get_db, modify_db, mret, M_ret.
  destruct (unavailable d Db.Announcements); [by left|].
  right. eexists. simpl. repeat split.
  - apply negb_false_iff, bool_decide_eq_true in Etype. exact Etype.
  - destruct (one_of _ (prop body "displayType")) eqn:E.
    + by apply one_of_elem.
    + apply elem_of_cons. by left.
  - destruct (one_of _ (prop body "timingType")) eqn:E.
    + by apply one_of_elem.
    + apply elem_of_cons. by left.
  - by apply String.eqb_neq.
Qed.

Lemma instant_by_default (timingType : jsval) :
  timingType ≠ JStr "scheduled" →
  (if one_of ["instant"; "scheduled"] timingType then to_string timingType else "instant")
  = "instant".
Proof.
  intros Hne. destruct timingType as [| | | |s| | |]; try done. simpl.
  case_bool_decide as Hs; [|done].
  apply elem_of_cons in Hs as [->|Hs]; [done|].
  apply list_elem_of_singleton in Hs as ->. done.
Qed.


Lemma select_pending_run (now : Z) (d : db) :
  unavailable d Db.Announcements = false →
  (get_pending now d).1
  = json (JArr (announcement_json <$>
                  order_by newest_first
                    (filter (fun a => pending now a = true) (announcements d)))).
Proof.
  intros Hav. unfold get_pending, route. unfold mbind at 1, M_bind at 1.
  by rewrite (select_pending_ok now d Hav).
Qed.


(** The row PUT /:id/sent leaves for a row it reaches. *)
Definition sent_row (a : announcement) : announcement :=
  {| a_id := a_id a; a_recipient_type := a_recipient_type a;
     a_recipient_value := a_recipient_value a; a_message := a_message a;
     a_display_type := a_display_type a; a_timing_type := a_timing_type a;
     a_scheduled_time := a_scheduled_time a; a_sent := true;
     a_created_at := a_created_at a |}.

Lemma pending_after_sent (id_matches : Z → bool) (now : Z) (l : list announcement) :
  filter (fun a => pending now a = true)
         ((fun a => if id_matches (a_id a) then sent_row a else a) <$> l)
  = filter (fun a => pending now a = true)
           (filter (fun a => id_matches (a_id a) = false) l).
Proof.
  induction l as [|a l IH]; [done|].
  rewrite fmap_cons, !filter_cons. destruct (id_matches (a_id a)) eqn:E.
  - rewrite decide_False by done. rewrite (decide_False (P := true = false)) by done.
    exact IH.
  - rewrite (decide_True (P := false = false)) by done. rewrite filter_cons.
    destruct (decide (pending now a = true)); by rewrite IH.
Qed.

(** X18. Marking an announcement sent withholds it: PUT
    /api/announcements/:id/sent answers 200, after which GET /pending lists
    exactly the announcements that were pending and have another id; the
    marked one is shown to nobody, and the others are not affected. *)
Theorem mark_sent_withholds (id_matches : Z → bool) (now : Z) (d : db) :
  unavailable d Db.Announcements = false →
  (mark_sent id_matches d).1 = json (obj [("message", JStr "Announcement marked as sent")]) ∧
  ∃ l,
    (get_pending now (mark_sent id_matches d).2).1 = json (JArr (announcement_json <$> l)) ∧
    ∀ a, a ∈ l ↔ a ∈ announcements d ∧ pending now a = true ∧ id_matches (a_id a) = false.
Proof.
  intros Hav. unfold mark_sent, route, mbind, M_bind, on_table, modify_db, mret, M_ret.
  rewrite Hav. cbn [fst snd]. split; [done|]. eexists. split.
  - rewrite select_pending_run by done. cbn [announcements set_announcements].
    pose proof (pending_after_sent id_matches now (announcements d)) as Hp.
    unfold sent_row in Hp. rewrite Hp. reflexivity.
  - intros a. rewrite PostsReading.order_by_perm, !list_elem_of_filter. tauto.
Qed.

End Facts.
End AnnouncementsLifecycle.

Module AnnouncementsMoreExamples.
Import Travelers Announcements AnnouncementsFacts AnnouncementsExamples.



(** Alice is shown two of the three pending announcements. *)
Example alice_is_shown_part :
  length (recipients_of (get_user_announcements sample_parse 100 "alice@example.com"
                           three_db).1) = 2%nat ∧
  length (recipients_of (get_pending 100 three_db).1) = 3%nat.
Proof. vm_compute. done. Qed.

Lemma mark_sent_withholds_witness :
  (mark_sent (fun i => i =? 1) three_db).1
  = json (obj [("message", JStr "Announcement marked as sent")]) ∧
  ∃ l,
    (get_pending 100 (mark_sent (fun i => i =? 1) three_db).2).1
    = json (JArr (announcement_json <$> l)) ∧
    ∀ a, a ∈ l ↔ a ∈ announcements three_db ∧ pending 100 a = true ∧ (a_id a =? 1) = false.
Proof.
  apply (AnnouncementsLifecycle.mark_sent_withholds (fun i => i =? 1) 100 three_db).
  reflexivity.
Defined.

End AnnouncementsMoreExamples.

(** ** More of routes/travelers.js *)

(** *** Who may read a traveler's record *)

Module TravelersAccess.
Import Travelers.

Lemma without_password_id (t : row) : prop (without_password t) "id" = field t "id".
Proof.
  unfold without_password, prop, field.
  by rewrite !lookup_insert_ne, lookup_delete_ne.
Qed.


Lemma join_vehicle_field (vs : list vehicle) (t : row) (k : string) :
  k ≠ "vehicle_color" → k ≠ "vehicle_name" → field (join_vehicle vs t) k = field t k.
Proof. intros H1 H2. unfold join_vehicle, field. by rewrite !lookup_insert_ne. Qed.


End TravelersAccess.

(** *** The two listings *)

Module TravelersLists.
Import Travelers.

(** A map that may throw, run on two orders of the same list: both runs
    throw, or both return and the results are the same up to order. *)
Definition agree {B : Type} (r r' : result (list B)) : Prop :=
  match r, r' with
  | Ok l, Ok l' => l ≡ₚ l'
  | Throw _, Throw _ => True
  | _, _ => False
  end.

Lemma map_result_perm {A B : Type} (f : A → result B) (l l' : list A) :
  l ≡ₚ l' → agree (map_result f l) (map_result f l').
Proof.
  induction 1 as [|x l l' _ IH|x y l|l l' l'' _ IH1 _ IH2]; unfold agree in *.
  - simpl. reflexivity.
  - cbn [map_result mbind result_bind]. destruct (f x); [|done].
    destruct (map_result f l), (map_result f l'); try done.
    cbn [mbind result_bind]. by constructor.
  - cbn [map_result mbind result_bind]. destruct (f x), (f y); try done;
      destruct (map_result f l); try done.
    cbn [mbind result_bind]. apply perm_swap.
  - destruct (map_result f l), (map_result f l'), (map_result f l''); try done.
    by etrans.
Qed.

Section Facts.

Variable toISOString : Z → string.

(** X21. The listing for every logged-in user is the admin listing in
    another order: on any database GET /api/travelers/public and GET
    /api/travelers both answer 500, or both answer 200 with the same
    formatted travelers, every field included, up to their order. *)
Theorem public_list_is_the_admin_list (d : db) :
  ((get_public toISOString d).1 = status_json 500 (error "Failed to fetch travelers") ∧
   (get_all toISOString d).1 = status_json 500 (error "Failed to fetch travelers"))
  ∨ ∃ l l',
      (get_public toISOString d).1 = json (JArr l) ∧
      (get_all toISOString d).1 = json (JArr l') ∧
      l ≡ₚ l'.
Proof.
  unfold get_public, get_all, route, select_with_vehicle, lift.
  unfold mbind, M_bind, on_table, get_db, mret, M_ret.
  destruct (unavailable d Travelers); [by left|].
  destruct (unavailable d Vehicles); [by left|].
  pose proof (map_result_perm (formatTraveler toISOString)
                (order_by le_name (map (join_vehicle (vehicles d)) (travelers d)))
                (order_by le_id (map (join_vehicle (vehicles d)) (travelers d)))) as H.
  unfold agree, formatTravelerData in *.
  destruct (map_result _ (order_by le_name _)) as [l|e],
           (map_result _ (order_by le_id _)) as [l'|e'].
  - right. exists l, l'. split; [done|]. split; [done|]. apply H.
    by rewrite !PostsReading.order_by_perm.
  - exfalso. apply H. by rewrite !PostsReading.order_by_perm.
  - exfalso. apply H. by rewrite !PostsReading.order_by_perm.
  - by left.
Qed.

End Facts.
End TravelersLists.

Module TravelersAccessExamples.
Import Travelers TravelersAccess Sample.


(** Alice reads her own profile; Bob asking for it is refused, an admin is
    not. *)
Example profile_access :
  status (get_by_id alice_user "1" sample_db).1 = 200 ∧
  status (get_by_id bob_user "1" sample_db).1 = 403 ∧
  status (get_by_id admin_user "1" sample_db).1 = 200 ∧
  status (get_by_id admin_user "7" sample_db).1 = 404.
Proof. vm_compute. done. Qed.


Example record_access :
  status (get_by_email alice_user "alice@example.com" sample_db).1 = 200 ∧
  status (get_by_email alice_user "bob@example.com" sample_db).1 = 403 ∧
  status (get_by_email admin_user "bob@example.com" sample_db).1 = 200.
Proof. vm_compute. done. Qed.

(** The listings are sorted: the public one of a table holding Bob before
    Alice is the admin one of a table holding Alice before Bob. *)
Example listings_are_sorted :
  (get_public sample_toISOString
     {| unavailable := fun _ => false; next_id := fun _ => 10;
        travelers := [bob; alice]; vehicles := [bus]; vehicle_allotments := [];
        check_ins := []; posts := []; post_sections := []; post_media := [];
        post_tags := []; settings := ∅; announcements := [] |}).1
  = (get_all sample_toISOString sample_db).1.
Proof. vm_compute. reflexivity. Qed.

End TravelersAccessExamples.

(** ** More of routes/announcements.js: the email format check *)

Module EmailFormat.
Import Announcements.

Lemma dotted_step (c : ascii) (rest : string) :
  dotted (String c rest)
  = plain c &&
    (match rest with
     | String c' after => Ascii.eqb c' "." && negb (after =? "")%string && all_plain after
     | EmptyString => false
     end || dotted rest).
Proof.
  destruct rest as [|c' after]; [done|].
  destruct c' as [[] [] [] [] [] [] [] []]; reflexivity.
Qed.

Lemma valid_email_step (c : ascii) (rest : string) :
  valid_email (String c rest)
  = plain c &&
    (match rest with
     | String c' domain => Ascii.eqb c' "@" && dotted domain
     | EmptyString => false
     end || valid_email rest).
Proof.
  destruct rest as [|c' domain]; [done|].
  destruct c' as [[] [] [] [] [] [] [] []]; reflexivity.
Qed.

(** [[^\s@]+\.[^\s@]+]: a dot with plain characters, at least one, on
    either side. *)
Lemma dotted_spec (s : string) :
  dotted s = true ↔
  ∃ host tld, s = host +:+ String "." tld ∧ host ≠ "" ∧ tld ≠ "" ∧
              all_plain host = true ∧ all_plain tld = true.
Proof.
  split.
  - induction s as [|c rest IH]; [done|].
    rewrite dotted_step. intros [Hc [H|H]%orb_true_iff]%andb_true_iff.
    + destruct rest as [|c' after]; [done|].
      apply andb_true_iff in H as [[Hdot Hne]%andb_true_iff Hafter].
      apply Ascii.eqb_eq in Hdot as ->. apply negb_true_iff, String.eqb_neq in Hne.
      exists (String c ""), after. simpl. by rewrite Hc.
    + destruct (IH H) as (host & tld & -> & Hh & Ht & Hph & Hpt).
      exists (String c host), tld. simpl. by rewrite Hc, Hph.
  - intros (host & tld & -> & Hh & Ht & Hph & Hpt).
    induction host as [|c host IH]; [done|].
    simpl in Hph. apply andb_true_iff in Hph as [Hc Hph].
    change (String c host +:+ String "." tld) with (String c (host +:+ String "." tld)).
    rewrite dotted_step, Hc. destruct host as [|c' host'].
    + simpl. apply String.eqb_neq in Ht. by rewrite Ht, Hpt.
    + rewrite (IH ltac:(done) Hph). apply orb_true_r.
Qed.

Lemma local_part_spec (s : string) :
  valid_email s = true ↔
  ∃ name domain, s = name +:+ String "@" domain ∧ name ≠ "" ∧
                 all_plain name = true ∧ dotted domain = true.
Proof.
  split.
  - induction s as [|c rest IH]; [done|].
    rewrite valid_email_step. intros [Hc [H|H]%orb_true_iff]%andb_true_iff.
    + destruct rest as [|c' domain]; [done|].
      apply andb_true_iff in H as [Hat Hdom]. apply Ascii.eqb_eq in Hat as ->.
      exists (String c ""), domain. simpl. by rewrite Hc.
    + destruct (IH H) as (name & domain & -> & Hn & Hpn & Hdom).
      exists (String c name), domain. simpl. by rewrite Hc, Hpn.
  - intros (name & domain & -> & Hn & Hpn & Hdom).
    induction name as [|c name IH]; [done|].
    simpl in Hpn. apply andb_true_iff in Hpn as [Hc Hpn].
    change (String c name +:+ String "@" domain)
      with (String c (name +:+ String "@" domain)).
    rewrite valid_email_step, Hc. destruct name as [|c' name'].
    + simpl. by rewrite Hdom.
    + rewrite (IH ltac:(done) Hpn). apply orb_true_r.
Qed.


End EmailFormat.

(** ** More of routes/vehicles.js: the bulk save of allotments *)

Module AllotmentsBulk.
Import Allotments AllotmentsFacts.

Lemma map_result_throws {A B : Type} (f : A → result B) (l : list A) (a : A) (e : string) :
  a ∈ l → f a = Throw e → ∃ e', map_result f l = Throw e'.
Proof.
  intros Ha Hf. induction l as [|x l IH]; [by apply elem_of_nil in Ha|].
  cbn [map_result mbind result_bind].
  destruct (f x) as [y|e0] eqn:Hx; [|by eexists].
  apply elem_of_cons in Ha as [<-|Ha]; [congruence|].
  destruct (IH Ha) as [e' ->]. by eexists.
Qed.

(** The row that collides with a new one becomes the new one. *)
Lemma same_key_with_vehicle (new a : allotment) :
  same_key new a = true → with_vehicle (va_vehicle_id new) a = new.
Proof.
  intros [= Hd Ht]%same_key_spec. destruct new, a. simpl in *. by subst.
Qed.

Lemma elem_of_upsert (new a : allotment) (l : list allotment) :
  a ∈ upsert new l → a ∈ l ∨ a = new.
Proof.
  unfold upsert. destruct (existsb (same_key new) l).
  - intros (a0 & -> & Ha0)%list_elem_of_fmap. destruct (same_key new a0) eqn:E.
    + right. by apply same_key_with_vehicle.
    + by left.
  - intros [H|H%list_elem_of_singleton]%elem_of_app; [by left|by right].
Qed.

Lemma elem_of_upsert_other_day (new a : allotment) (l : list allotment) :
  va_date a ≠ va_date new → a ∈ upsert new l ↔ a ∈ l.
Proof.
  intros Hday.
  assert (same_key new a = false) as Hkey.
  { destruct (same_key new a) eqn:E; [|done].
    apply same_key_spec in E. injection E as E _. congruence. }
  split.
  - intros [H| ->]%elem_of_upsert; [done|congruence].
  - intros Ha. unfold upsert. destruct (existsb (same_key new) l).
    + apply list_elem_of_fmap. exists a. by rewrite Hkey.
    + apply elem_of_app. by left.
Qed.

Abbreviation upsert_all := (foldl (fun l a => upsert a l)).

Lemma elem_of_upsert_all (rows l : list allotment) (a : allotment) :
  a ∈ upsert_all l rows → a ∈ l ∨ a ∈ rows.
Proof.
  revert l. induction rows as [|r rows IH]; intros l; simpl; [by left|].
  intros [[H| ->]%elem_of_upsert|H]%IH.
  - by left.
  - right. apply elem_of_cons. by left.
  - right. apply elem_of_cons. by right.
Qed.

Lemma elem_of_upsert_all_other_day (rows l : list allotment) (a : allotment) :
  va_date a ∉ va_date <$> rows → a ∈ upsert_all l rows ↔ a ∈ l.
Proof.
  revert l. induction rows as [|r rows IH]; intros l Hday; simpl; [done|].
  rewrite fmap_cons, not_elem_of_cons in Hday. destruct Hday as [Hr Hday].
  by rewrite (IH _ Hday), elem_of_upsert_other_day.
Qed.

Lemma key_upsert_all (rows l : list allotment) (k : string * Z) :
  k ∈ key <$> upsert_all l rows ↔ k ∈ key <$> l ∨ k ∈ key <$> rows.
Proof.
  revert l. induction rows as [|r rows IH]; intros l; simpl.
  - rewrite elem_of_nil. tauto.
  - rewrite IH, upsert_keys, elem_of_cons.
    destruct (existsb (same_key r) l) eqn:E.
    + apply existsb_same_key in E. split; [tauto|]. intros [H|[->|H]]; tauto.
    + rewrite elem_of_app, list_elem_of_singleton. tauto.
Qed.

Section Facts.

Variable Date_new : jsval → option Z.
Variable toISOString : Z → string.

Abbreviation normalizeDate := (normalizeDate Date_new toISOString).
Abbreviation bulk_row := (bulk_row Date_new toISOString).
Abbreviation save_allotments_bulk := (save_allotments_bulk Date_new toISOString).


Lemma save_allotments_bulk_run (body : jsval) (assignments : list jsval)
    (rows : list allotment) (d : db) :
  prop body "assignments" = JArr assignments → assignments ≠ [] →
  map_result (bulk_row (prop body "date")) assignments = Ok rows →
  prop body "replaceExisting" = JUndefined ∨ truthy (prop body "replaceExisting") = true →
  unavailable d VehicleAllotments = false →
  status (save_allotments_bulk body d).1 = 201 ∧
  vehicle_allotments (save_allotments_bulk body d).2
  = upsert_all (filter (fun a => va_date a ∉ remove_dups (va_date <$> rows))
                       (vehicle_allotments d)) rows.
Proof.
  intros Hass Hne Hrows Hrep Hav.
  unfold Allotments.save_allotments_bulk, route. rewrite Hass.
  destruct assignments as [|first others]; [done|].
  unfold mbind at 1, M_bind at 1, lift. rewrite Hrows.
  assert (match prop body "replaceExisting" with
          | JUndefined => true
          | x => truthy x
          end = true) as ->.
  { destruct Hrep as [->|H]; [done|]. by destruct (prop body "replaceExisting"). }
  unfold insert_on_duplicate_key_update, mbind, M_bind, on_table, modify_db, mret, M_ret.
  rewrite Hav. cbn [unavailable set_vehicle_allotments]. by rewrite Hav.
Qed.


End Facts.
End AllotmentsBulk.

Module AllotmentsBulkExamples.
Import Allotments AllotmentsFacts AllotmentsBulk AllotmentsExamples.

(** Two assignments for 14 December, the second one in the snake_case
    spelling; and a list whose second assignment names no traveler. *)
Definition two_assignments : list jsval :=
  [obj [("travelerId", JNum 1); ("vehicleId", JNum 2)];
   obj [("traveler_id", JStr "2"); ("vehicle_id", JNum 2)]].

Definition bulk_body : jsval :=
  obj [("date", JStr "2025-12-14"); ("assignments", JArr two_assignments)].

Definition no_traveler : jsval := obj [("vehicleId", JNum 2)].

Definition bad_bulk_body : jsval :=
  obj [("date", JStr "2025-12-14");
       ("assignments", JArr [obj [("travelerId", JNum 1); ("vehicleId", JNum 2)];
                             no_traveler])].

(** Traveler 3 is allotted for 14 December and traveler 1 for the day
    after. *)
Definition two_days_db : db :=
  set_vehicle_allotments
    [{| va_date := "2025-12-14"; va_traveler_id := 3; va_vehicle_id := 1 |};
     {| va_date := "2025-12-15"; va_traveler_id := 1; va_vehicle_id := 1 |}] empty_db.

Definition two_rows : list allotment :=
  [{| va_date := "2025-12-14"; va_traveler_id := 1; va_vehicle_id := 2 |};
   {| va_date := "2025-12-14"; va_traveler_id := 2; va_vehicle_id := 2 |}].



(** The bulk save clears 14 December, keeps the day after, and stores the
    two rows. *)
Example bulk_save_example :
  vehicle_allotments
    (save_allotments_bulk sample_Date_new sample_iso bulk_body two_days_db).2
  = ({| va_date := "2025-12-15"; va_traveler_id := 1; va_vehicle_id := 1 |} :: two_rows).
Proof. vm_compute. reflexivity. Qed.

End AllotmentsBulkExamples.
